(** * Security audit pipeline: pattern scanner, risk scorer, business risk calculator

    A shallow embedding of [audit/security_auditor.py], [audit/risk_calculator.py]
    and of the glue of [audit/audit_runner.py], with the properties of the
    specification stated and proved over it, and then further properties
    of the scanner, the calculators, the priority actions and the results of
    a comprehensive audit.  What the programs print and the report files they
    write are not modelled.

    Python values are modelled as follows.
    - [int] is [Z] (unbounded).
    - [float] is IEEE-754 binary64: a finite float is the rational number it
      denotes, every operation computes the exact rational result and rounds
      it to the nearest binary64 value, ties to even ([RN]).  Negative zero is
      identified with zero: no function of the program divides by a float
      zero or prints a sign.
    - [str] is [string] for identifiers, dictionary keys and path names, and
      [text] (a list of Unicode code points) for what is decoded from files.
    - [dict] is an association list in insertion order with unique keys.
    - an exception is a constructor of [exn]; a computation that may raise
      lives in the monad [py]. *)

From Stdlib Require Import ZArith QArith Qround Qabs Qpower Qreduction Lia Lqa.
From Stdlib Require Import SpecFloat.
From Stdlib Require Import String Ascii List Permutation Sorted DecimalString.
From Stdlib.Strings Require Import Byte.
From stdpp Require Import base option list strings sorting gmap.

Local Open Scope Z_scope.

(** ** Exceptions and the error monad *)

Inductive exn : Type :=
| ZeroDivisionError
| OverflowError
| ValueError
| KeyError
| FileNotFoundError
| PermissionError
| IsADirectoryError
| OSError
| UnicodeDecodeError
| re_error.

Inductive py (A : Type) : Type :=
| Return (a : A)
| Raise (e : exn).
Arguments Return {A} a.
Arguments Raise {A} e.

#[global] Instance py_ret : MRet py := fun A a => Return a.
#[global] Instance py_bind : MBind py := fun A B f m =>
  match m with
  | Return a => f a
  | Raise e => Raise e
  end.

(** ** Floats: IEEE-754 binary64 with round-to-nearest-even *)

Module Float.

Local Open Scope Q_scope.

Inductive float : Type :=
| Fin (q : Q)
| Inf (neg : bool)
| NaN.

(** Rounding of a rational to the nearest integer, ties to the even one. *)
Definition rne (x : Q) : Z :=
  let f := Qfloor x in
  match Qcompare (x - inject_Z f) (1 # 2) with
  | Lt => f
  | Gt => (f + 1)%Z
  | Eq => if Z.even f then f else (f + 1)%Z
  end.

(** For [x > 0], the exponent [k] with [2^k <= x < 2^(k+1)]. *)
Definition floor_log2 (x : Q) : Z :=
  let k := (Z.log2 (Qnum x) - Z.log2 (Zpos (Qden x)))%Z in
  if Qle_bool (2 ^ k) x then k else (k - 1)%Z.

(** Exponent of the unit in the last place of the binary64 format at [x]:
    53 bits of precision, least exponent -1074 (subnormal numbers). *)
Definition ulp_exp (x : Q) : Z :=
  Z.max (floor_log2 (Qabs x) - 52) (-1074).

(** [x] rounded to 53 bits, with the exponent unbounded above. *)
Definition round53 (x : Q) : Q :=
  if Qeq_bool x 0 then 0
  else let e := ulp_exp x in Qred (inject_Z (rne (x / 2 ^ e)) * 2 ^ e).

(** Round to nearest binary64: overflow gives an infinity. *)
Definition RN (x : Q) : float :=
  let y := round53 x in
  if Qle_bool (2 ^ 1024) (Qabs y) then Inf (negb (Qle_bool 0 x)) else Fin y.

(** A float literal of the source, written as a decimal fraction. *)
Definition lit (q : Q) : float := RN q.

Definition is_neg (q : Q) : bool := negb (Qle_bool 0 q).

(** [a * b] *)
Definition fmul (a b : float) : float :=
  match a, b with
  | NaN, _ | _, NaN => NaN
  | Fin x, Fin y => RN (x * y)
  | Inf s, Fin y | Fin y, Inf s =>
      if Qeq_bool y 0 then NaN else Inf (xorb s (is_neg y))
  | Inf s, Inf t => Inf (xorb s t)
  end.

(** [a + b] *)
Definition fadd (a b : float) : float :=
  match a, b with
  | NaN, _ | _, NaN => NaN
  | Fin x, Fin y => RN (x + y)
  | Inf s, Fin _ | Fin _, Inf s => Inf s
  | Inf s, Inf t => if Bool.eqb s t then Inf s else NaN
  end.

(** [a / b]: Python raises [ZeroDivisionError] on a zero divisor. *)
Definition fdiv (a b : float) : py float :=
  match a, b with
  | NaN, Fin y => if Qeq_bool y 0 then Raise ZeroDivisionError else Return NaN
  | NaN, _ | _, NaN => Return NaN
  | Fin x, Fin y =>
      if Qeq_bool y 0 then Raise ZeroDivisionError else Return (RN (x / y))
  | Inf s, Fin y =>
      if Qeq_bool y 0 then Raise ZeroDivisionError
      else Return (Inf (xorb s (is_neg y)))
  | Fin _, Inf _ => Return (Fin 0)
  | Inf _, Inf _ => Return NaN
  end.

(** Comparisons: every comparison with [NaN] is false. *)
Definition flt (a b : float) : bool :=
  match a, b with
  | NaN, _ | _, NaN => false
  | Fin x, Fin y => negb (Qle_bool y x)
  | Fin _, Inf s => negb s
  | Inf s, Fin _ => s
  | Inf s, Inf t => s && negb t
  end.

Definition fle (a b : float) : bool :=
  match a, b with
  | NaN, _ | _, NaN => false
  | Fin x, Fin y => Qle_bool x y
  | Fin _, Inf s => negb s
  | Inf s, Fin _ => s
  | Inf s, Inf t => s || negb t
  end.

Definition fge (a b : float) : bool := fle b a.

(** [int(z)] converted to float: [OverflowError] when too large. *)
Definition of_int (z : Z) : py float :=
  match RN (inject_Z z) with
  | Fin q => Return (Fin q)
  | _ => Raise OverflowError
  end.

(** [a / b] on two ints: the correctly rounded quotient. *)
Definition int_truediv (a b : Z) : py float :=
  if (b =? 0)%Z then Raise ZeroDivisionError
  else match RN (inject_Z a / inject_Z b) with
       | Fin q => Return (Fin q)
       | _ => Raise OverflowError
       end.

(** [round(x, 1)]: the decimal with one fractional digit nearest to the exact
    value of [x] (ties to even), converted back to the nearest float. *)
Definition py_round1 (x : float) : float :=
  match x with
  | Fin q => RN (inject_Z (rne (q * 10)) / 10)
  | _ => x
  end.

(** [round(x)]: the nearest int, ties to even. *)
Definition py_round (x : float) : py Z :=
  match x with
  | Fin q => Return (rne q)
  | Inf _ => Raise OverflowError
  | NaN => Raise ValueError
  end.

(** [min(a, b)]: the first argument unless the second is smaller. *)
Definition py_min (a b : float) : float := if flt b a then b else a.

(** *** The same operations in the IEEE-754 specification of the library

    [SpecFloat] gives the operations of binary64 on mantissa and exponent
    ([prec = 53], [emax = 1024]).  The definitions below are only used to
    compare the two formulations on sample values. *)

Definition of_spec_float (x : spec_float) : float :=
  match x with
  | S754_zero _ => Fin 0
  | S754_infinity s => Inf s
  | S754_nan => NaN
  | S754_finite s m e =>
      Fin (Qred (inject_Z (if s then Z.neg m else Z.pos m) * 2 ^ e))
  end.

Definition b64_of_Z (z : Z) : spec_float := binary_normalize 53 1024 z 0 false.

Definition float_eqb (a b : float) : bool :=
  match a, b with
  | Fin x, Fin y => Z.eqb (Qnum x) (Qnum y) && Pos.eqb (Qden x) (Qden y)
  | Inf s, Inf t => Bool.eqb s t
  | NaN, NaN => true
  | _, _ => false
  end.

Definition py_float_eqb (a : py float) (b : float) : bool :=
  match a with
  | Return x => float_eqb x b
  | Raise _ => false
  end.

(** For the fractions [a/b] and [c/d], with [b] and [d] not zero: the
    rounding of the fractions, their product, sum, quotient and order.  The
    integers are taken exactly representable, so that [SFdiv] rounds the
    exact quotient; a zero divisor is Python's [ZeroDivisionError]. *)
Definition agrees_with_spec_float (a b c d : Z) : bool :=
  let x := SFdiv 53 1024 (b64_of_Z a) (b64_of_Z b) in
  let y := SFdiv 53 1024 (b64_of_Z c) (b64_of_Z d) in
  let x' := of_spec_float x in
  let y' := of_spec_float y in
  float_eqb x' (RN (inject_Z a / inject_Z b))
  && py_float_eqb (int_truediv a b) x'
  && float_eqb (of_spec_float (SFmul 53 1024 x y)) (fmul x' y')
  && float_eqb (of_spec_float (SFadd 53 1024 x y)) (fadd x' y')
  && match fdiv x' y' with
     | Return r => float_eqb r (of_spec_float (SFdiv 53 1024 x y))
     | Raise _ => (c =? 0)%Z
     end
  && Bool.eqb (SFltb x y) (flt x' y')
  && Bool.eqb (SFleb x y) (fle x' y').

(** Numerator and denominator of the samples: small fractions of the
    program, fractions at the edge of the 53 bits, near overflow and in the
    subnormal range. *)
Definition sample_fractions : list (Z * Z) :=
  [(0, 1); (1, 3); (1, -10); (-7, 3); (13, 1000); (72, 10); (65, 10);
   (2 ^ 53 - 1, 3); (1, 2 ^ 52 + 1); (2 ^ 1000, 3); (2 ^ 1000, -1);
   (1, 3 * 2 ^ 1000); (3, 2 ^ 1000)]%Z.

End Float.
Import Float.


(** ** Text: decoded file content *)

(** A decoded [str]: the sequence of its Unicode code points. *)
Definition text : Type := list Z.

Definition text_of_string (s : string) : text :=
  map (fun a => Z.of_nat (nat_of_ascii a)) (list_ascii_of_string s).

(** [str.isspace] on one code point. *)
Definition isspace (c : Z) : bool :=
  ((9 <=? c) && (c <=? 13)) || ((28 <=? c) && (c <=? 32))
  || (c =? 133) || (c =? 160) || (c =? 5760)
  || ((8192 <=? c) && (c <=? 8202)) || (c =? 8232) || (c =? 8233)
  || (c =? 8239) || (c =? 8287) || (c =? 12288).

(** [s.strip()] *)
Fixpoint lstrip (s : text) : text :=
  match s with
  | [] => []
  | c :: s' => if isspace c then lstrip s' else s
  end.
Definition strip (s : text) : text := rev (lstrip (rev (lstrip s))).

(** [s.split('\n')]: always at least one piece. *)
Fixpoint split_lines (s : text) : list text :=
  match s with
  | [] => [[]]
  | c :: s' =>
      if c =? 10 then [] :: split_lines s'
      else match split_lines s' with
           | [] => [[c]]
           | l :: ls => (c :: l) :: ls
           end
  end.

(** [enumerate(lines, 1)] *)
Fixpoint enumerate {A : Type} (xs : list A) (start : Z) : list (Z * A) :=
  match xs with
  | [] => []
  | x :: xs' => (start, x) :: enumerate xs' (start + 1)
  end.

(** *** Reading a file opened with [encoding='utf-8'] *)

(** The [errors] argument of [open]. *)
Inductive errors_mode : Type := strict | ignore | replace.

Definition is_continuation (b : N) : bool := (N.land b 192 =? 128)%N.

(** What the codec does with a malformed sequence: [strict] raises,
    [ignore] drops it, [replace] puts U+FFFD in its place.  [k] decodes the
    bytes after the malformed sequence. *)
Definition on_error (errors : errors_mode) (k : py text) : py text :=
  match errors with
  | strict => Raise UnicodeDecodeError
  | ignore => k
  | replace => t ← k; mret (65533 :: t)
  end.

Definition emit (c : N) (k : py text) : py text :=
  t ← k; mret (Z.of_N c :: t).

(** The UTF-8 decoder.  A malformed sequence is the lead byte alone
    (invalid start byte, or first continuation byte out of range), or the
    lead byte with the valid continuation bytes before the offending one,
    or everything that is left when the data ends inside a sequence. *)
Fixpoint utf8_decode (errors : errors_mode) (bs : list Byte.byte) : py text :=
  match bs with
  | [] => mret []
  | b0 :: r0 =>
      let c0 := Byte.to_N b0 in
      if (c0 <? 128)%N then emit c0 (utf8_decode errors r0)
      else if (c0 <? 194)%N then on_error errors (utf8_decode errors r0)
      else if (c0 <? 224)%N then
        match r0 with
        | [] => on_error errors (mret [])
        | b1 :: r1 =>
            let c1 := Byte.to_N b1 in
            if negb (is_continuation c1) then on_error errors (utf8_decode errors r0)
            else emit (N.lor (N.shiftl (N.land c0 31) 6) (N.land c1 63))
                      (utf8_decode errors r1)
        end
      else if (c0 <? 240)%N then
        match r0 with
        | [] => on_error errors (mret [])
        | b1 :: r1 =>
            let c1 := Byte.to_N b1 in
            if negb (is_continuation c1)
               || (if (c1 <? 160)%N then (c0 =? 224)%N else (c0 =? 237)%N)
            then on_error errors (utf8_decode errors r0)
            else match r1 with
                 | [] => on_error errors (mret [])
                 | b2 :: r2 =>
                     let c2 := Byte.to_N b2 in
                     if negb (is_continuation c2)
                     then on_error errors (utf8_decode errors r1)
                     else emit (N.lor (N.shiftl (N.land c0 15) 12)
                                  (N.lor (N.shiftl (N.land c1 63) 6)
                                     (N.land c2 63)))
                               (utf8_decode errors r2)
                 end
        end
      else if (c0 <? 245)%N then
        match r0 with
        | [] => on_error errors (mret [])
        | b1 :: r1 =>
            let c1 := Byte.to_N b1 in
            if negb (is_continuation c1)
               || (if (c1 <? 144)%N then (c0 =? 240)%N else (c0 =? 244)%N)
            then on_error errors (utf8_decode errors r0)
            else match r1 with
                 | [] => on_error errors (mret [])
                 | b2 :: r2 =>
                     let c2 := Byte.to_N b2 in
                     if negb (is_continuation c2)
                     then on_error errors (utf8_decode errors r1)
                     else match r2 with
                          | [] => on_error errors (mret [])
                          | b3 :: r3 =>
                              let c3 := Byte.to_N b3 in
                              if negb (is_continuation c3)
                              then on_error errors (utf8_decode errors r2)
                              else emit
                                     (N.lor (N.shiftl (N.land c0 7) 18)
                                        (N.lor (N.shiftl (N.land c1 63) 12)
                                           (N.lor (N.shiftl (N.land c2 63) 6)
                                              (N.land c3 63))))
                                     (utf8_decode errors r3)
                          end
                 end
        end
      else on_error errors (utf8_decode errors r0)
  end.

(** Text mode with the default [newline=None]: CR LF and a lone CR are read
    as a line feed. *)
Fixpoint universal_newlines (s : text) : text :=
  match s with
  | [] => []
  | c :: s' =>
      if c =? 13 then
        match s' with
        | d :: s'' => if d =? 10 then 10 :: universal_newlines s''
                      else 10 :: universal_newlines s'
        | [] => [10]
        end
      else c :: universal_newlines s'
  end.

(** ** Regular expressions: the fragment of [re] that the catalog uses *)

Module Re.

Inductive cset_item : Type :=
| CChar (c : Z)
| CRange (lo hi : Z).

Inductive regex : Type :=
| Empty                                         (* matches nothing *)
| Eps                                           (* the empty string *)
| Chr (c : Z)                                   (* a literal character *)
| Any                                           (* [.] *)
| Space                                         (* [\s] *)
| Set_ (neg : bool) (items : list cset_item)    (* [[...]] and [[^...]] *)
| Cat (r1 r2 : regex)
| Alt (r1 r2 : regex)                           (* [r1|r2] *)
| Rep (r : regex) (lo : nat) (hi : option nat). (* [r{lo,hi}], [*], [+], [?] *)

(** Case folding of the ASCII letters (the folding of other scripts is not
    modelled). *)
Definition lower (c : Z) : Z := if (65 <=? c) && (c <=? 90) then c + 32 else c.
Definition upper (c : Z) : Z := if (97 <=? c) && (c <=? 122) then c - 32 else c.

Definition in_range (lo hi x : Z) : bool := (lo <=? x) && (x <=? hi).

(** [ic] is the flag [re.IGNORECASE]. *)
Definition chr_match (ic : bool) (c x : Z) : bool :=
  (x =? c) || (ic && (lower x =? lower c)).

Definition item_match (ic : bool) (x : Z) (it : cset_item) : bool :=
  match it with
  | CChar c => chr_match ic c x
  | CRange lo hi =>
      in_range lo hi x
      || (ic && (in_range lo hi (lower x) || in_range lo hi (upper x)))
  end.

Fixpoint nullable (r : regex) : bool :=
  match r with
  | Eps => true
  | Cat a b => nullable a && nullable b
  | Alt a b => nullable a || nullable b
  | Rep a lo _ => (lo =? 0)%nat || nullable a
  | _ => false
  end.

Definition cat (a b : regex) : regex :=
  match a, b with
  | Empty, _ | _, Empty => Empty
  | Eps, _ => b
  | _, Eps => a
  | _, _ => Cat a b
  end.

Definition alt (a b : regex) : regex :=
  match a, b with
  | Empty, _ => b
  | _, Empty => a
  | _, _ => Alt a b
  end.

(** Brzozowski derivative: what is left of [r] after reading [x]. *)
Fixpoint deriv (ic : bool) (x : Z) (r : regex) : regex :=
  match r with
  | Empty | Eps => Empty
  | Chr c => if chr_match ic c x then Eps else Empty
  | Any => if x =? 10 then Empty else Eps
  | Space => if isspace x then Eps else Empty
  | Set_ neg items =>
      if xorb neg (existsb (item_match ic x) items) then Eps else Empty
  | Cat a b =>
      if nullable a then alt (cat (deriv ic x a) b) (deriv ic x b)
      else cat (deriv ic x a) b
  | Alt a b => alt (deriv ic x a) (deriv ic x b)
  | Rep a lo hi =>
      match hi with
      | Some O => Empty
      | _ => cat (deriv ic x a) (Rep a (Nat.pred lo) (Nat.pred <$> hi))
      end
  end.

(** Does a prefix of [s] match [r]? *)
Fixpoint match_here (ic : bool) (r : regex) (s : text) : bool :=
  nullable r ||
  match s with
  | [] => false
  | x :: s' =>
      match deriv ic x r with
      | Empty => false
      | r' => match_here ic r' s'
      end
  end.

(** Does [r] match somewhere in [s]? *)
Fixpoint search (ic : bool) (r : regex) (s : text) : bool :=
  match_here ic r s ||
  match s with
  | [] => false
  | _ :: s' => search ic r s'
  end.

(** *** Parsing a pattern *)

Inductive pmode : Type :=
| PNormal
| PEscape                                        (* after a backslash *)
| PSetStart                                      (* after [[] *)
| PSet (neg : bool) (items : list cset_item)     (* inside a set, items reversed *)
| PSetEscape (neg : bool) (items : list cset_item)
| PSetDash (neg : bool) (items : list cset_item) (* after [-] inside a set *)
| PBraceLo (n : nat) (digits : bool)             (* after [{] *)
| PBraceHi (lo n : nat) (digits : bool).         (* after [{lo,] *)

Record pstate : Type := mk_pstate {
  p_alts : list regex;      (* finished alternatives, last first *)
  p_seq : list regex;       (* atoms of the current alternative, last first *)
  p_quantified : bool;      (* the last atom already carries a quantifier *)
  p_mode : pmode
}.

Definition mkseq (atoms : list regex) : regex :=
  fold_left (fun acc a => cat a acc) atoms Eps.

Definition push (a : regex) (st : pstate) : py pstate :=
  mret (mk_pstate (p_alts st) (a :: p_seq st) false PNormal).

Definition quantify (lo : nat) (hi : option nat) (st : pstate) : py pstate :=
  match p_seq st with
  | [] => Raise re_error
  | a :: rest =>
      if p_quantified st then Raise re_error
      else mret (mk_pstate (p_alts st) (Rep a lo hi :: rest) true PNormal)
  end.

Definition set_mode (m : pmode) (st : pstate) : py pstate :=
  mret (mk_pstate (p_alts st) (p_seq st) (p_quantified st) m).

Definition is_digit (c : Z) : bool := (48 <=? c) && (c <=? 57).
Definition is_alnum (c : Z) : bool :=
  is_digit c || ((65 <=? c) && (c <=? 90)) || ((97 <=? c) && (c <=? 122)).
Definition digit (c : Z) : nat := Z.to_nat (c - 48).

Definition in_set (neg : bool) (items : list cset_item) (c : Z) (st : pstate)
  : py pstate :=
  if c =? 93 (* ] *) then
    match items with
    | [] => Raise re_error
    | _ => push (Set_ neg (rev items)) st
    end
  else if c =? 92 (* \ *) then set_mode (PSetEscape neg items) st
  else if c =? 45 (* - *) then
    match items with
    | [] => set_mode (PSet neg [CChar 45]) st
    | _ => set_mode (PSetDash neg items) st
    end
  else set_mode (PSet neg (CChar c :: items)) st.

Definition pstep (st : pstate) (c : Z) : py pstate :=
  match p_mode st with
  | PNormal =>
      if c =? 92 (* \ *) then set_mode PEscape st
      else if c =? 91 (* [ *) then set_mode PSetStart st
      else if c =? 46 (* . *) then push Any st
      else if c =? 42 (* * *) then quantify 0 None st
      else if c =? 43 (* + *) then quantify 1 None st
      else if c =? 63 (* ? *) then quantify 0 (Some 1%nat) st
      else if c =? 123 (* { *) then set_mode (PBraceLo 0 false) st
      else if c =? 124 (* | *) then
        mret (mk_pstate (mkseq (p_seq st) :: p_alts st) [] false PNormal)
      else if (c =? 40) || (c =? 41) || (c =? 94) || (c =? 36) then
        Raise re_error     (* groups and anchors: outside the fragment *)
      else push (Chr c) st
  | PEscape =>
      if c =? 115 (* s *) then push Space st
      else if is_alnum c then Raise re_error
      else push (Chr c) st
  | PSetStart =>
      if c =? 94 (* ^ *) then set_mode (PSet true []) st
      else in_set false [] c st
  | PSet neg items => in_set neg items c st
  | PSetEscape neg items =>
      if is_alnum c then Raise re_error
      else set_mode (PSet neg (CChar c :: items)) st
  | PSetDash neg items =>
      if c =? 93 (* ] *) then push (Set_ neg (rev (CChar 45 :: items))) st
      else if c =? 92 then Raise re_error
      else match items with
           | CChar lo :: rest =>
               if lo <=? c then set_mode (PSet neg (CRange lo c :: rest)) st
               else Raise re_error
           | _ => Raise re_error
           end
  | PBraceLo n digits =>
      if is_digit c then set_mode (PBraceLo (10 * n + digit c) true) st
      else if (c =? 44) && digits then set_mode (PBraceHi n 0 false) st
      else if (c =? 125) && digits then quantify n (Some n) st
      else Raise re_error
  | PBraceHi lo n digits =>
      if is_digit c then set_mode (PBraceHi lo (10 * n + digit c) true) st
      else if c =? 125 then
        if digits then
          if (lo <=? n)%nat then quantify lo (Some n) st else Raise re_error
        else quantify lo None st
      else Raise re_error
  end.

Fixpoint prun (st : pstate) (p : text) : py pstate :=
  match p with
  | [] => mret st
  | c :: p' => st' ← pstep st c; prun st' p'
  end.

(** [re.compile(pattern)] *)
Definition compile (pattern : string) : py regex :=
  st ← prun (mk_pstate [] [] false PNormal) (text_of_string pattern);
  match p_mode st with
  | PNormal =>
      mret (fold_left (fun acc a => alt a acc) (p_alts st) (mkseq (p_seq st)))
  | _ => Raise re_error
  end.

End Re.

(** [re.IGNORECASE] *)
Definition IGNORECASE : bool := true.

(** [re.search(pattern, line, flags)], as a truth value. *)
Definition re_search (pattern : string) (line : text) (flags : bool) : py bool :=
  r ← Re.compile pattern; mret (Re.search flags r line).

(** ** Dictionaries *)

(** A [dict] with string keys: the items in insertion order. *)
Definition dict (V : Type) : Type := list (string * V).

Fixpoint dict_get {V : Type} (d : dict V) (k : string) : option V :=
  match d with
  | [] => None
  | (k', v) :: d' => if String.eqb k' k then Some v else dict_get d' k
  end.

(** [d.get(k, dflt)] *)
Definition get {V : Type} (d : dict V) (k : string) (dflt : V) : V :=
  match dict_get d k with
  | Some v => v
  | None => dflt
  end.

(** [d[k] = v]: an existing key keeps its place, a new one goes last. *)
Fixpoint dict_set {V : Type} (d : dict V) (k : string) (v : V) : dict V :=
  match d with
  | [] => [(k, v)]
  | (k', v') :: d' =>
      if String.eqb k' k then (k', v) :: d' else (k', v') :: dict_set d' k v
  end.

(** [d[k]] *)
Definition getitem {V : Type} (d : dict V) (k : string) : py V :=
  match dict_get d k with
  | Some v => Return v
  | None => Raise KeyError
  end.

(** [d1 == d2] on dictionaries: the same keys with the same values. *)
Definition dict_eq {V : Type} (d1 d2 : dict V) : Prop :=
  forall k, dict_get d1 k = dict_get d2 k.

(** ** Paths ([pathlib]) and the file tree *)

Local Open Scope string_scope.

(** A path is the tuple of its parts; an absolute path starts with the part
    ["/"].  [Path('.')] has no part. *)
Definition Path : Type := list string.

(** [s.split(sep)] on one separator character. *)
Fixpoint split_on (sep : ascii) (s : string) : list string :=
  match s with
  | EmptyString => [EmptyString]
  | String c s' =>
      if Ascii.eqb c sep then EmptyString :: split_on sep s'
      else match split_on sep s' with
           | [] => [String c EmptyString]
           | w :: ws => String c w :: ws
           end
  end.

Definition slash : ascii := "/"%char.

(** [Path(s)]: repeated slashes and ["."] components are dropped; exactly two
    leading slashes are kept as the root ["//"]. *)
Definition Path_of_string (s : string) : Path :=
  let comps :=
    filter (fun c => negb (String.eqb c "" || String.eqb c ".")) (split_on slash s) in
  let root :=
    match s with
    | String a (String b (String c _)) =>
        if Ascii.eqb a slash
        then if Ascii.eqb b slash && negb (Ascii.eqb c slash)
             then ["//"] else ["/"]
        else []
    | String a (String b EmptyString) =>
        if Ascii.eqb a slash
        then if Ascii.eqb b slash then ["//"] else ["/"]
        else []
    | String a EmptyString => if Ascii.eqb a slash then ["/"] else []
    | EmptyString => []
    end in
  (root ++ comps)%list.

Definition is_root (part : string) : bool :=
  String.eqb part "/" || String.eqb part "//".

(** [str(path)] *)
Definition path_str (p : Path) : string :=
  match p with
  | [] => "."
  | r :: rest => if is_root r then r ++ String.concat "/" rest
                 else String.concat "/" p
  end.

(** [path / name] *)
Definition joinpath (p : Path) (name : string) : Path := (p ++ [name])%list.

(** [path.relative_to(other)] *)
Fixpoint relative_to (p other : Path) : py Path :=
  match other with
  | [] => Return p
  | o :: other' =>
      match p with
      | x :: p' => if String.eqb x o then relative_to p' other'
                   else Raise ValueError
      | [] => Raise ValueError
      end
  end.

(** [s.rfind('.')]: the index of the last dot. *)
Fixpoint rfind_dot (s : string) : option nat :=
  match s with
  | EmptyString => None
  | String c s' =>
      match rfind_dot s' with
      | Some i => Some (S i)
      | None => if Ascii.eqb c "."%char then Some O else None
      end
  end.

Fixpoint string_drop (n : nat) (s : string) : string :=
  match n, s with
  | O, _ => s
  | S n', String _ s' => string_drop n' s'
  | S _, EmptyString => EmptyString
  end.

(** [path.suffix]: the last dot-separated piece of the final part, unless the
    dot is the first or the last character of the name. *)
Definition suffix (p : Path) : string :=
  let name := match last p with
              | Some n => if is_root n then "" else n
              | None => ""
              end in
  match rfind_dot name with
  | Some i =>
      if (0 <? i)%nat && (i <? String.length name - 1)%nat
      then string_drop i name else ""
  | None => ""
  end.

Definition ascii_lower (c : ascii) : ascii :=
  let n := nat_of_ascii c in
  if (65 <=? n)%nat && (n <=? 90)%nat then ascii_of_nat (n + 32) else c.

(** [s.lower()] on the ASCII letters. *)
Fixpoint str_lower (s : string) : string :=
  match s with
  | EmptyString => EmptyString
  | String c s' => String (ascii_lower c) (str_lower s')
  end.

Fixpoint is_prefix (p s : string) : bool :=
  match p, s with
  | EmptyString, _ => true
  | String a p', String b s' => Ascii.eqb a b && is_prefix p' s'
  | String _ _, EmptyString => false
  end.

(** [needle in hay] on strings. *)
Fixpoint str_contains (needle hay : string) : bool :=
  is_prefix needle hay ||
  match hay with
  | EmptyString => false
  | String _ hay' => str_contains needle hay'
  end.

(** A node of the file tree under the scan root: a regular file with what
    [open] and [read] give for it (its bytes, or the exception they raise),
    or a directory with its entries in listing order. *)
#[local] Unset Elimination Schemes.
Inductive node : Type :=
| File (data : py (list Byte.byte))
| Dir (entries : list (string * node)).
#[local] Set Elimination Schemes.

Definition is_file (n : node) : bool :=
  match n with
  | File _ => true
  | Dir _ => false
  end.

(** The directories under [p], [p] first, each with its entries. *)
Fixpoint iterate_directories (p : Path) (n : node)
  : list (Path * list (string * node)) :=
  match n with
  | File _ => []
  | Dir es =>
      (p, es) ::
      flat_map (fun e => let '(name, child) := e in
                         iterate_directories (joinpath p name) child) es
  end.

(** [root.rglob('*')]: every entry of every directory under the root. *)
Definition rglob (root : Path) (tree : node) : list (Path * node) :=
  flat_map (fun d => let '(dir, es) := d in
                     map (fun e => let '(name, child) := e in
                                   (joinpath dir name, child)) es)
           (iterate_directories root tree).

Fixpoint descend (n : node) (rel : Path) : py node :=
  match rel with
  | [] => Return n
  | name :: rel' =>
      match n with
      | Dir es =>
          match dict_get es name with
          | Some child => descend child rel'
          | None => Raise FileNotFoundError
          end
      | File _ => Raise FileNotFoundError
      end
  end.

(** [open(file_path, 'r', encoding='utf-8', errors=errors)] followed by
    [f.read()].  [tree] is the file tree at [root]; nothing outside it
    exists. *)
Definition read_text (root : Path) (tree : node) (file_path : Path)
    (errors : errors_mode) : py text :=
  match relative_to file_path root with
  | Raise _ => Raise FileNotFoundError
  | Return rel =>
      n ← descend tree rel;
      match n with
      | Dir _ => Raise IsADirectoryError
      | File data =>
          bs ← data;
          t ← utf8_decode errors bs;
          mret (universal_newlines t)
      end
  end.

(** ** [security_auditor.py] *)

Record Vulnerability : Type := mk_Vulnerability {
  severity : string;          (* critical, high, medium, low *)
  category : string;
  description : string;
  file_path : string;
  line_number : Z;
  code_snippet : text;
  remediation : string;
  cwe_id : string;
  cvss_score : float
}.

(** A list object lives in the heap; a variable or a field holds its
    location, so two fields may name the same list. *)
Abbreviation loc := nat (only parsing).
Abbreviation heap := (list (list Vulnerability)) (only parsing).

Definition deref (h : heap) (l : loc) : list Vulnerability :=
  default [] (h !! l).

(** [lst.extend(items)]: the list object at [l] grows in place. *)
Definition extend (h : heap) (l : loc) (items : list Vulnerability) : heap :=
  <[l := (deref h l ++ items)%list]> h.

(** [[]]: a new list object. *)
Definition new_list (h : heap) : loc * heap := (length h, (h ++ [[]])%list).

Record AuditResult : Type := mk_AuditResult {
  total_files_scanned : Z;
  vulnerabilities : loc;
  risk_score : float;
  timestamp : Z;              (* the start time, as read from the clock *)
  scan_duration : Z           (* end time minus start time *)
}.

Record SecurityAuditor : Type := mk_SecurityAuditor {
  target_path : Path;
  self_vulnerabilities : loc;
  file_extensions : list string;
  patterns : list (string * list (string * string))
}.

(** The double quote, which patterns and scanned lines contain. *)
Definition dq : string := String (ascii_of_nat 34) EmptyString.

(** The catalog of [__init__]: category, then (pattern, description) pairs.
    The patterns are the raw strings of the source. *)
Definition catalog : list (string * list (string * string)) :=
  [ ("xss",
     [ ("innerHTML\s*=\s*[^;]*\+", "Potential XSS via innerHTML concatenation");
       ("document\.write\s*\([^)]*\+", "Potential XSS via document.write concatenation");
       ("eval\s*\([^)]*\+", "Potential XSS via eval with user input");
       ("dangerouslySetInnerHTML.*[^}]}\}", "React dangerouslySetInnerHTML usage");
       ("v-html\s*=\s*[" ++ dq ++ "\'][^" ++ dq ++ "\']*\+", "Vue.js v-html with concatenation") ]);
    ("sql_injection",
     [ ("SELECT.*\+.*FROM", "SQL query with string concatenation");
       ("INSERT.*\+.*VALUES", "SQL INSERT with string concatenation");
       ("UPDATE.*SET.*\+", "SQL UPDATE with string concatenation");
       ("DELETE.*WHERE.*\+", "SQL DELETE with string concatenation");
       ("query\s*\(\s*[" ++ dq ++ "\'][^" ++ dq ++ "\']*\+", "Database query with concatenation");
       ("execute\s*\(\s*[" ++ dq ++ "\'][^" ++ dq ++ "\']*\+", "SQL execute with concatenation") ]);
    ("command_injection",
     [ ("exec\s*\([^)]*\+", "Command execution with concatenation");
       ("system\s*\([^)]*\+", "System command with concatenation");
       ("shell_exec\s*\([^)]*\+", "Shell execution with concatenation");
       ("subprocess\.call\s*\([^)]*\+", "Subprocess call with concatenation");
       ("os\.system\s*\([^)]*\+", "OS system call with concatenation") ]);
    ("path_traversal",
     [ ("\.\./", "Potential path traversal sequence");
       ("\.\.\\\\", "Potential Windows path traversal");
       ("file_get_contents\s*\([^)]*\$", "File access with variable path");
       ("readFile\s*\([^)]*\+", "File read with concatenated path");
       ("open\s*\([^)]*\+.*[" ++ dq ++ "\']r", "File open with concatenated path") ]);
    ("ssrf",
     [ ("fetch\s*\(\s*[^)]*\$", "HTTP request with variable URL");
       ("axios\.[a-z]+\s*\([^)]*\$", "Axios request with variable URL");
       ("http\.get\s*\([^)]*\$", "HTTP GET with variable URL");
       ("requests\.[a-z]+\s*\([^)]*\+", "Python requests with concatenated URL");
       ("curl\s+[^;]*\$", "cURL with variable URL") ]);
    ("hardcoded_secrets",
     [ ("password\s*=\s*[" ++ dq ++ "\'][^" ++ dq ++ "\']{8,}[" ++ dq ++ "\']", "Hardcoded password");
       ("api[_-]?key\s*=\s*[" ++ dq ++ "\'][^" ++ dq ++ "\']{16,}[" ++ dq ++ "\']", "Hardcoded API key");
       ("secret\s*=\s*[" ++ dq ++ "\'][^" ++ dq ++ "\']{16,}[" ++ dq ++ "\']", "Hardcoded secret");
       ("token\s*=\s*[" ++ dq ++ "\'][^" ++ dq ++ "\']{20,}[" ++ dq ++ "\']", "Hardcoded token");
       ("[A-Z0-9]{32,}", "Potential hardcoded hash/key") ]);
    ("weak_crypto",
     [ ("md5\s*\(", "Weak MD5 hashing");
       ("sha1\s*\(", "Weak SHA1 hashing");
       ("DES|RC4", "Weak encryption algorithm");
       ("Math\.random\s*\(", "Weak random number generation");
       ("random\s*\(\s*\)", "Weak random function usage") ]);
    ("insecure_deserialization",
     [ ("pickle\.loads\s*\(", "Unsafe pickle deserialization");
       ("JSON\.parse\s*\([^)]*req\.body", "JSON parsing user input");
       ("unserialize\s*\(\s*\$_", "PHP unserialize user input");
       ("yaml\.load\s*\([^)]*\)", "YAML load without safe loader") ]);
    ("information_disclosure",
     [ ("console\.log\s*\([^)]*password", "Password logged to console");
       ("print\s*\([^)]*password", "Password in print statement");
       ("printStackTrace\s*\(\s*\)", "Stack trace exposure");
       ("error_reporting\s*\(\s*E_ALL", "Full error reporting enabled") ]) ].

(** [SecurityAuditor(target_path)] *)
Definition SecurityAuditor_init (target : string) (h : heap)
  : SecurityAuditor * heap :=
  let '(l, h') := new_list h in
  ({| target_path := Path_of_string target;
      self_vulnerabilities := l;
      file_extensions :=
        [".js"; ".jsx"; ".ts"; ".tsx"; ".py"; ".java"; ".cs"; ".php";
         ".rb"; ".go"; ".rs"; ".cpp"; ".c"; ".h"; ".sql"; ".json"; ".yaml";
         ".yml"];
      patterns := catalog |}, h').

Definition _get_severity (category : string) : string :=
  let severity_map :=
    [ ("sql_injection", "critical");
      ("command_injection", "critical");
      ("xss", "critical");
      ("ssrf", "high");
      ("path_traversal", "high");
      ("hardcoded_secrets", "high");
      ("insecure_deserialization", "high");
      ("weak_crypto", "medium");
      ("information_disclosure", "medium") ] in
  get severity_map category "low".

Definition _get_remediation (category : string) : string :=
  let remediation_map :=
    [ ("xss", "Use proper input validation and output encoding. Implement CSP headers.");
      ("sql_injection", "Use parameterized queries or prepared statements.");
      ("command_injection", "Validate and sanitize all user inputs. Use safe APIs.");
      ("path_traversal", "Validate file paths and use allowlists for permitted directories.");
      ("ssrf", "Validate and restrict URLs. Use allowlists for permitted domains.");
      ("hardcoded_secrets", "Use environment variables or secure key management systems.");
      ("weak_crypto", "Use strong cryptographic algorithms (AES-256, SHA-256+).");
      ("insecure_deserialization", "Validate data before deserialization or use safe formats.");
      ("information_disclosure", "Remove sensitive information from logs and error messages.") ] in
  get remediation_map category "Review and secure the identified code.".

Definition _get_cwe_id (category : string) : string :=
  let cwe_map :=
    [ ("xss", "CWE-79");
      ("sql_injection", "CWE-89");
      ("command_injection", "CWE-78");
      ("path_traversal", "CWE-22");
      ("ssrf", "CWE-918");
      ("hardcoded_secrets", "CWE-798");
      ("weak_crypto", "CWE-327");
      ("insecure_deserialization", "CWE-502");
      ("information_disclosure", "CWE-200") ] in
  get cwe_map category "CWE-Unknown".

Definition _get_cvss_score (severity : string) : float :=
  let score_map :=
    [ ("critical", lit 9);
      ("high", lit (75 # 10));
      ("medium", lit 5);
      ("low", lit (25 # 10)) ] in
  get score_map severity (lit 0).

(** A [for] loop whose body may raise: the state built so far survives the
    exception, which ends the loop. *)
Fixpoint for_each {A S : Type} (xs : list A) (body : A -> S -> S * option exn)
    (s : S) : S * option exn :=
  match xs with
  | [] => (s, None)
  | x :: xs' =>
      match body x s with
      | (s', None) => for_each xs' body s'
      | r => r
      end
  end.

(** The three nested loops of [scan_file], over the lines already read. *)
Definition scan_lines (self : SecurityAuditor) (path : Path)
    (lines : list text) (found : list Vulnerability)
  : list Vulnerability * option exn :=
  for_each (patterns self) (fun '(category, pats) =>
    for_each pats (fun '(pattern, description) =>
      for_each (enumerate lines 1) (fun '(line_num, line) found =>
        match re_search pattern line IGNORECASE with
        | Raise e => (found, Some e)
        | Return false => (found, None)
        | Return true =>
            let severity := _get_severity category in
            match relative_to path (target_path self) with
            | Raise e => (found, Some e)
            | Return rel =>
                let vuln :=
                  {| severity := severity;
                     category := category;
                     description := description;
                     file_path := path_str rel;
                     line_number := line_num;
                     code_snippet := strip line;
                     remediation := _get_remediation category;
                     cwe_id := _get_cwe_id category;
                     cvss_score := _get_cvss_score severity |} in
                (found ++ [vuln], None)%list
            end
        end))) found.

(** [scan_file]: an exception raised while the file is opened, read or
    scanned is caught (and printed); what was found until then is returned. *)
Definition scan_file (self : SecurityAuditor) (tree : node) (path : Path)
  : list Vulnerability :=
  match read_text (target_path self) tree path ignore with
  | Raise _ => []
  | Return content => fst (scan_lines self path (split_lines content) [])
  end.

Definition severity_weights : dict Z :=
  [("critical", 10); ("high", 7); ("medium", 4); ("low", 1)]%Z.

Definition sum_Z (l : list Z) : Z := fold_left Z.add l 0.

Definition calculate_risk_score (vulns : list Vulnerability) : py float :=
  match vulns with
  | [] => mret (lit 0)
  | _ =>
      let total_score := sum_Z (map (fun v => get severity_weights (severity v) 0) vulns) in
      let max_possible := Z.of_nat (length vulns) * 10 in
      if (0 <? max_possible)%Z then
        q ← int_truediv total_score max_possible;
        ten ← of_int 10;
        mret (py_round1 (fmul q ten))
      else mret (lit 0)
  end.

Definition _should_skip_file (path : Path) : bool :=
  let skip_patterns :=
    ["node_modules"; ".git"; "__pycache__"; ".venv"; "venv";
     "build"; "dist"; ".next"; "target"; "bin"; "obj"] in
  existsb (fun pattern => str_contains pattern (path_str path)) skip_patterns.

(** The loop of [scan_directory] over the entries that [rglob] yields. *)
Definition scan_entries (self : SecurityAuditor) (tree : node)
    (entries : list (Path * node)) (files_scanned : Z) (h : heap) : Z * heap :=
  fold_left (fun st e =>
    let '(files_scanned, h) := st in
    let '(path, n) := e in
    if is_file n
       && existsb (String.eqb (str_lower (suffix path))) (file_extensions self)
       && negb (_should_skip_file path)
    then
      let found := scan_file self tree path in
      (files_scanned + 1, extend h (self_vulnerabilities self) found)
    else (files_scanned, h)) entries (files_scanned, h).

(** [scan_directory]: [start_time] and [end_time] are the two readings of
    the clock.  The result holds the location of the auditor's own list. *)
Definition scan_directory (self : SecurityAuditor) (tree : node)
    (start_time end_time : Z) (h : heap) : py (AuditResult * heap) :=
  let '(files_scanned, h') :=
    scan_entries self tree (rglob (target_path self) tree) 0 h in
  score ← calculate_risk_score (deref h' (self_vulnerabilities self));
  mret ({| total_files_scanned := files_scanned;
           vulnerabilities := self_vulnerabilities self;
           risk_score := score;
           timestamp := start_time;
           scan_duration := end_time - start_time |}, h').

(** *** The output file of [main] and the format of [export_results] *)

(** [s.endswith(suffix)] *)
Fixpoint endswith (s suffix : string) : bool :=
  String.eqb s suffix ||
  match s with
  | EmptyString => false
  | String _ s' => endswith s' suffix
  end.

(** [s[:n]] *)
Fixpoint string_take (n : nat) (s : string) : string :=
  match n, s with
  | O, _ => EmptyString
  | S n', String c s' => String c (string_take n' s')
  | S _, EmptyString => EmptyString
  end.

(** [s.rsplit('.', 1)[0]]: what precedes the last dot, or all of [s]. *)
Definition rsplit_dot_head (s : string) : string :=
  match rfind_dot s with
  | Some i => string_take i s
  | None => s
  end.

(** The file name that [main] hands to [export_results], from the options
    [--json] and [--output]. *)
Definition output_file (json : bool) (output : string) : string :=
  if json && negb (endswith output ".json")
  then rsplit_dot_head output ++ ".json"
  else output.

(** The two formats of the report. *)
Inductive report_format : Type := Json | Text.

(** The branch that [export_results] takes. *)
Definition export_format (output_file : string) : report_format :=
  let output_path := Path_of_string output_file in
  if String.eqb (str_lower (suffix output_path)) ".json" then Json else Text.

(** ** [risk_calculator.py] *)

Record RiskMetrics : Type := mk_RiskMetrics {
  vulnerability_count : Z;
  severity_distribution : dict Z;
  rm_risk_score : float;
  business_impact_score : float;
  remediation_cost : dict Z;
  timeline_months : float
}.

(** A vulnerability as a dictionary.  The calculator reads the keys
    ['severity'] and ['category'], whose values are strings; the entries of
    another type that the runner also stores are left out. *)
Definition vuln_dict : Type := dict string.

(** The audit data: the two keys that the calculator reads, each of which
    may be missing. *)
Record AuditData : Type := mk_AuditData {
  ad_vulnerabilities : option (list vuln_dict);
  ad_risk_score : option float
}.

Definition remediation_costs : dict Z :=
  [("critical", 15000); ("high", 8000); ("medium", 3000); ("low", 1000)]%Z.

Definition industry_factors : dict float :=
  [("fintech", lit (18 # 10));
   ("healthcare", lit (17 # 10));
   ("ecommerce", lit (14 # 10));
   ("enterprise", lit (12 # 10));
   ("consumer", lit 1)].

Definition calculate_remediation_cost (severity_distribution : dict Z) : dict Z :=
  let '(costs, total_cost) :=
    fold_left (fun st item =>
      let '(costs, total_cost) := st in
      let '(severity, count) := item in
      let base_cost := get remediation_costs severity 1000%Z in
      let severity_cost := (base_cost * count)%Z in
      (dict_set costs severity severity_cost, (total_cost + severity_cost)%Z))
      severity_distribution ([], 0%Z) in
  dict_set costs "total" total_cost.

Definition high_impact_categories : dict float :=
  [("sql_injection", lit 9);
   ("command_injection", lit 9);
   ("xss", lit 7);
   ("ssrf", lit 6);
   ("hardcoded_secrets", lit 8);
   ("insecure_deserialization", lit (75 # 10));
   ("path_traversal", lit (65 # 10))].

Definition severity_multipliers : dict float :=
  [("critical", lit 1);
   ("high", lit (8 # 10));
   ("medium", lit (6 # 10));
   ("low", lit (3 # 10))].

(** The impact score of one vulnerability: the body of the loop of
    [calculate_business_impact_score]. *)
Definition impact_score (vuln : vuln_dict) : float :=
  let category := get vuln "category" "" in
  let severity := get vuln "severity" "low" in
  let base_impact := get high_impact_categories category (lit 3) in
  let severity_multiplier := get severity_multipliers severity (lit (3 # 10)) in
  fmul base_impact severity_multiplier.

(** [l.sort(reverse=True)] on floats: descending, comparing with [<] only,
    equal items staying in their order. *)
Fixpoint insert_desc (x : float) (l : list float) : list float :=
  match l with
  | [] => [x]
  | y :: l' => if flt x y then y :: insert_desc x l' else x :: l
  end.

Definition sort_reverse (l : list float) : list float :=
  fold_right insert_desc [] l.

(** [sum(l)] on floats: the additions from the left, starting at [0], each
    one rounded (the loop of CPython up to 3.11; later versions carry a
    compensation term, which can move the last bit of the sum). *)
Definition sum_float (l : list float) : float := fold_left fadd l (lit 0).

Definition calculate_business_impact_score (vulnerability_data : list vuln_dict)
  : py float :=
  match vulnerability_data with
  | [] => mret (lit 0)
  | _ =>
      let impact_scores := map impact_score vulnerability_data in
      match impact_scores with
      | [] => mret (lit 0)
      | _ =>
          let top_impacts := take 5 (sort_reverse impact_scores) in
          n ← of_int (Z.of_nat (length top_impacts));
          avg ← fdiv (sum_float top_impacts) n;
          mret (py_round1 avg)
      end
  end.

Definition timeline_days : dict Z :=
  [("critical", 30); ("high", 14); ("medium", 7); ("low", 2)]%Z.

Definition estimate_timeline (severity_distribution : dict Z) : py float :=
  let total_days :=
    fold_left (fun total_days item =>
      let '(severity, count) := item in
      let days_per_vuln := get timeline_days severity 7%Z in
      (total_days + days_per_vuln * count)%Z) severity_distribution 0%Z in
  parallelized_days ← int_truediv total_days 2;
  let buffered_days := fmul parallelized_days (lit (12 # 10)) in
  thirty ← of_int 30;
  months ← fdiv buffered_days thirty;
  mret (py_round1 months).

Record FinancialExposure : Type := mk_FinancialExposure {
  minimum : Z;
  expected : Z;
  maximum : Z
}.

Definition calculate_financial_exposure (risk_score business_impact : float)
  : py FinancialExposure :=
  ten_thousand ← of_int 10000;
  let base_exposure := fmul (fmul risk_score business_impact) ten_thousand in
  let minimum_exposure := fmul base_exposure (lit (5 # 10)) in
  let maximum_exposure := fmul base_exposure (lit (35 # 10)) in
  let expected_exposure := fmul base_exposure (lit (12 # 10)) in
  lo ← py_round minimum_exposure;
  mid ← py_round expected_exposure;
  hi ← py_round maximum_exposure;
  mret {| minimum := lo; expected := mid; maximum := hi |}.

(** The loop that counts the vulnerabilities by severity. *)
Definition count_severities (vulns : list vuln_dict) : dict Z :=
  fold_left (fun severity_distribution vuln =>
    let severity := get vuln "severity" "low" in
    dict_set severity_distribution severity
      (get severity_distribution severity 0 + 1)%Z) vulns [].

Definition generate_risk_assessment (audit_data : AuditData) (industry : string)
  : py RiskMetrics :=
  let vulns := default [] (ad_vulnerabilities audit_data) in
  let severity_distribution := count_severities vulns in
  let risk_score := default (lit 0) (ad_risk_score audit_data) in
  business_impact ← calculate_business_impact_score vulns;
  let remediation_costs := calculate_remediation_cost severity_distribution in
  timeline ← estimate_timeline severity_distribution;
  let industry_factor := get industry_factors (str_lower industry) (lit 1) in
  let adjusted_risk_score := py_min (lit 10) (fmul risk_score industry_factor) in
  mret {| vulnerability_count := Z.of_nat (length vulns);
          severity_distribution := severity_distribution;
          rm_risk_score := adjusted_risk_score;
          business_impact_score := business_impact;
          remediation_cost := remediation_costs;
          timeline_months := timeline |}.

(** The risk level and the recommendation for an adjusted risk score. *)
Definition risk_level_of (score : float) : string * string :=
  if fge score (lit 8) then
    ("CRITICAL",
     "HIGH RISK - Recommend against acquisition without major security remediation commitment")
  else if fge score (lit 6) then
    ("HIGH", "PROCEED WITH CAUTION - Significant security investment required")
  else if fge score (lit 4) then
    ("MEDIUM", "ACCEPTABLE WITH CONDITIONS - Security improvements needed")
  else
    ("LOW", "LOW RISK - Minor security enhancements recommended").

(** The executive summary; the numbers are kept as numbers, where the source
    formats them into strings. *)
Record ExecutiveSummary : Type := mk_ExecutiveSummary {
  risk_level : string;
  es_risk_score : float;
  recommendation : string;
  critical_vulnerabilities : Z;
  high_vulnerabilities : Z;
  total_vulnerabilities : Z;
  estimated_remediation_cost : Z;
  estimated_timeline : float;
  potential_financial_exposure : FinancialExposure;
  es_business_impact_score : float
}.

Definition generate_executive_summary (risk_metrics : RiskMetrics)
  : py ExecutiveSummary :=
  let '(level, advice) := risk_level_of (rm_risk_score risk_metrics) in
  financial_exposure ←
    calculate_financial_exposure (rm_risk_score risk_metrics)
                                 (business_impact_score risk_metrics);
  total ← getitem (remediation_cost risk_metrics) "total";
  mret {| risk_level := level;
          es_risk_score := rm_risk_score risk_metrics;
          recommendation := advice;
          critical_vulnerabilities :=
            get (severity_distribution risk_metrics) "critical" 0%Z;
          high_vulnerabilities :=
            get (severity_distribution risk_metrics) "high" 0%Z;
          total_vulnerabilities := vulnerability_count risk_metrics;
          estimated_remediation_cost := total;
          estimated_timeline := timeline_months risk_metrics;
          potential_financial_exposure := financial_exposure;
          es_business_impact_score := business_impact_score risk_metrics |}.

(** ** [audit_runner.py]: from the scan result to the audit data *)

Definition vuln_to_dict (v : Vulnerability) : vuln_dict :=
  [("severity", severity v);
   ("category", category v);
   ("description", description v);
   ("file_path", file_path v);
   ("remediation", remediation v);
   ("cwe_id", cwe_id v)].

Definition audit_data_of (audit_result : AuditResult) (h : heap) : AuditData :=
  {| ad_vulnerabilities :=
       Some (map vuln_to_dict (deref h (vulnerabilities audit_result)));
     ad_risk_score := Some (risk_score audit_result) |}.

(** *** Priority actions and the comprehensive results *)

(** [str(n)] on an int: its decimal digits. *)
Definition str_of_int (n : Z) : string := NilZero.string_of_int (Z.to_int n).

(** An entry of the list of priority actions.  The key ['categories'] is
    present in the first two kinds of action only; its value is a list made
    from a set, whose order Python leaves open: it is kept as the set. *)
Record Action : Type := mk_Action {
  priority : Z;
  action : string;
  categories : option (gset string);
  timeline : string
}.

Definition _generate_priority_actions (vulnerabilities : list Vulnerability)
  : list Action :=
  let actions := [] in
  let critical_vulns :=
    List.filter (fun v => String.eqb (severity v) "critical") vulnerabilities in
  let high_vulns :=
    List.filter (fun v => String.eqb (severity v) "high") vulnerabilities in
  let actions :=
    match critical_vulns with
    | [] => actions
    | _ =>
        (actions ++
         [ {| priority := 1;
              action := "Address " ++ str_of_int (Z.of_nat (length critical_vulns))
                        ++ " critical vulnerabilities immediately";
              categories := Some (list_to_set (map category critical_vulns));
              timeline := "1-2 weeks" |} ])%list
    end in
  let actions :=
    match high_vulns with
    | [] => actions
    | _ =>
        (actions ++
         [ {| priority := 2;
              action := "Remediate " ++ str_of_int (Z.of_nat (length high_vulns))
                        ++ " high-severity vulnerabilities";
              categories := Some (list_to_set (map category high_vulns));
              timeline := "2-4 weeks" |} ])%list
    end in
  (actions ++
   [ {| priority := 3;
        action := "Implement comprehensive input validation framework";
        categories := None;
        timeline := "4-6 weeks" |};
     {| priority := 4;
        action := "Establish security code review process";
        categories := None;
        timeline := "2-3 weeks" |};
     {| priority := 5;
        action := "Deploy automated security scanning in CI/CD pipeline";
        categories := None;
        timeline := "1-2 weeks" |} ])%list.

Record AuditMetadata : Type := mk_AuditMetadata {
  md_target_path : string;
  scan_timestamp : Z;
  scan_duration_seconds : Z;
  files_scanned : Z;
  industry_context : string
}.

Record VulnerabilitySummary : Type := mk_VulnerabilitySummary {
  vs_total_vulnerabilities : Z;
  severity_breakdown : dict Z;
  vs_risk_score : float;
  vs_business_impact_score : float
}.

Record RemediationRoadmap : Type := mk_RemediationRoadmap {
  estimated_cost : dict Z;
  estimated_timeline_months : float;
  priority_actions : list Action
}.

Record ComprehensiveResults : Type := mk_ComprehensiveResults {
  audit_metadata : AuditMetadata;
  vulnerability_summary : VulnerabilitySummary;
  executive_summary : ExecutiveSummary;
  detailed_vulnerabilities : list vuln_dict;
  remediation_roadmap : RemediationRoadmap
}.

(** [run_comprehensive_audit]: the value it returns.  [tree] is the file
    tree at the target, [start_time] and [end_time] the readings of the clock
    during the scan; the progress messages and the two report files written
    from the results are left out. *)
Definition run_comprehensive_audit (target industry : string) (tree : node)
    (start_time end_time : Z) (h : heap) : py (ComprehensiveResults * heap) :=
  let '(auditor, h0) := SecurityAuditor_init target h in
  '(audit_result, h1) ← scan_directory auditor tree start_time end_time h0;
  let audit_data := audit_data_of audit_result h1 in
  risk_metrics ← generate_risk_assessment audit_data industry;
  executive_summary ← generate_executive_summary risk_metrics;
  detailed ← match ad_vulnerabilities audit_data with
             | Some l => Return l
             | None => Raise KeyError
             end;
  mret ({| audit_metadata :=
             {| md_target_path := target;
                scan_timestamp := timestamp audit_result;
                scan_duration_seconds := scan_duration audit_result;
                files_scanned := total_files_scanned audit_result;
                industry_context := industry |};
           vulnerability_summary :=
             {| vs_total_vulnerabilities :=
                  Z.of_nat (length (deref h1 (vulnerabilities audit_result)));
                severity_breakdown := severity_distribution risk_metrics;
                vs_risk_score := risk_score audit_result;
                vs_business_impact_score := business_impact_score risk_metrics |};
           executive_summary := executive_summary;
           detailed_vulnerabilities := detailed;
           remediation_roadmap :=
             {| estimated_cost := remediation_cost risk_metrics;
                estimated_timeline_months := timeline_months risk_metrics;
                priority_actions :=
                  _generate_priority_actions
                    (deref h1 (vulnerabilities audit_result)) |} |}, h1).

(** ** Definitions that follow the wording of the specification *)

(** The severities of the data model. *)
Definition known_severity (s : string) : Prop :=
  In s ["critical"; "high"; "medium"; "low"].

(** Severity weights: critical 10, high 7, medium 4, low 1; a severity
    outside this list contributes nothing to the sum. *)
Definition spec_weight (s : string) : Z :=
  if String.eqb s "critical" then 10
  else if String.eqb s "high" then 7
  else if String.eqb s "medium" then 4
  else if String.eqb s "low" then 1
  else 0.

(** Risk score = round(sum(weight) / (count * 10) * 10, 1); 0.0 when there is
    no finding. *)
Definition spec_risk_score (vulns : list Vulnerability) : float :=
  match vulns with
  | [] => lit 0
  | _ =>
      let total := foldr Z.add 0 (map (fun v => spec_weight (severity v)) vulns) in
      let count := Z.of_nat (length vulns) in
      py_round1 (fmul (RN (inject_Z total / inject_Z (count * 10))) (lit 10))
  end.

(** Base impact by category: sql_injection 9.0, command_injection 9.0,
    hardcoded_secrets 8.0, insecure_deserialization 7.5, xss 7.0,
    path_traversal 6.5, ssrf 6.0, default 3.0. *)
Definition spec_base_impact (category : string) : float :=
  if String.eqb category "sql_injection" then lit 9
  else if String.eqb category "command_injection" then lit 9
  else if String.eqb category "hardcoded_secrets" then lit 8
  else if String.eqb category "insecure_deserialization" then lit (75 # 10)
  else if String.eqb category "xss" then lit 7
  else if String.eqb category "path_traversal" then lit (65 # 10)
  else if String.eqb category "ssrf" then lit 6
  else lit 3.

(** Severity multiplier: critical 1.0, high 0.8, medium 0.6, low 0.3,
    default 0.3. *)
Definition spec_severity_multiplier (severity : string) : float :=
  if String.eqb severity "critical" then lit 1
  else if String.eqb severity "high" then lit (8 # 10)
  else if String.eqb severity "medium" then lit (6 # 10)
  else if String.eqb severity "low" then lit (3 # 10)
  else lit (3 # 10).

(** Per finding: base impact times severity multiplier (a finding without a
    category has the default impact, one without a severity is low). *)
Definition spec_impact (vuln : vuln_dict) : float :=
  fmul (spec_base_impact (get vuln "category" ""))
       (spec_severity_multiplier (get vuln "severity" "low")).

(** Descending order on floats. *)
Definition descending : relation float := fun a b => fle b a = true.

(** The average of a list of floats, rounded to one decimal. *)
Definition spec_rounded_average (l : list float) : py float :=
  n ← of_int (Z.of_nat (length l));
  avg ← fdiv (sum_float l) n;
  mret (py_round1 avg).

(** A finite float in reduced form between two bounds. *)
Definition fin_between (lo hi : Q) (f : float) : Prop :=
  exists q, f = Fin q /\ (lo <= q)%Q /\ (q <= hi)%Q /\ Qred q = q.

(** The value-weighted sum of a dictionary of counts. *)
Fixpoint weighted_sum (f : string -> Z) (d : dict Z) : Z :=
  match d with
  | [] => 0
  | (k, c) :: d' => f k * c + weighted_sum f d'
  end.

(** The severity that the calculator reads from a vulnerability. *)
Definition severity_of (vuln : vuln_dict) : string := get vuln "severity" "low".

(** Remediation cost per finding: critical 15000, high 8000, medium 3000,
    low 1000, default 1000. *)
Definition spec_cost (severity : string) : Z :=
  if String.eqb severity "critical" then 15000
  else if String.eqb severity "high" then 8000
  else if String.eqb severity "medium" then 3000
  else if String.eqb severity "low" then 1000
  else 1000.

(** Days per finding: critical 30, high 14, medium 7, low 2, default 7. *)
Definition spec_days (severity : string) : Z :=
  if String.eqb severity "critical" then 30
  else if String.eqb severity "high" then 14
  else if String.eqb severity "medium" then 7
  else if String.eqb severity "low" then 2
  else 7.

(** Timeline: the summed days, divided by 2, times 1.2, divided by 30,
    rounded to one decimal. *)
Definition spec_timeline (total_days : Z) : py float :=
  halved ← int_truediv total_days 2;
  thirty ← of_int 30;
  months ← fdiv (fmul halved (lit (12 # 10))) thirty;
  mret (py_round1 months).

(** The sum of [f] over the severities of a finding list. *)
Definition total_over (f : string -> Z) (vulns : list vuln_dict) : Z :=
  foldr Z.add 0 (map (fun v => f (severity_of v)) vulns).

(** How many findings of a list have the severity [k]. *)
Definition count_of (k : string) (vulns : list vuln_dict) : Z :=
  total_over (fun s => if String.eqb s k then 1 else 0) vulns.

(** Two computations agree: both raise the same exception, or both return,
    and the values are related. *)
Definition py_rel {A : Type} (R : A -> A -> Prop) (x y : py A) : Prop :=
  match x, y with
  | Return a, Return b => R a b
  | Raise e, Raise e' => e = e'
  | _, _ => False
  end.

(** Two risk metrics are equal; dictionaries are compared as Python does,
    without regard to the order of insertion. *)
Definition metrics_eq (m1 m2 : RiskMetrics) : Prop :=
  vulnerability_count m1 = vulnerability_count m2
  /\ dict_eq (severity_distribution m1) (severity_distribution m2)
  /\ rm_risk_score m1 = rm_risk_score m2
  /\ business_impact_score m1 = business_impact_score m2
  /\ dict_eq (remediation_cost m1) (remediation_cost m2)
  /\ timeline_months m1 = timeline_months m2.

(** Equality of two strings without regard to the case of letters. *)
Definition eq_nocase (a b : string) : bool :=
  String.eqb (str_lower a) (str_lower b).

(** Industry multiplier: fintech 1.8, healthcare 1.7, ecommerce 1.4,
    enterprise 1.2, consumer 1.0, looked up without regard to case; 1.0 for
    an unknown industry. *)
Definition spec_industry_multiplier (industry : string) : float :=
  if eq_nocase industry "fintech" then lit (18 # 10)
  else if eq_nocase industry "healthcare" then lit (17 # 10)
  else if eq_nocase industry "ecommerce" then lit (14 # 10)
  else if eq_nocase industry "enterprise" then lit (12 # 10)
  else if eq_nocase industry "consumer" then lit 1
  else lit 1.

(** A Python list holds fewer than [2^63] items. *)
Definition list_size_ok {A : Type} (l : list A) : Prop :=
  Z.of_nat (length l) < 2 ^ 63.

(** The tokens that exclude a path from the scan. *)
Definition skip_tokens : list string :=
  ["node_modules"; ".git"; "__pycache__"; ".venv"; "venv";
   "build"; "dist"; ".next"; "target"; "bin"; "obj"].

(** An entry of the walk is scanned when it is a regular file, its extension
    is in the allow-list and its path string holds no skip token. *)
Definition eligible (self : SecurityAuditor) (e : Path * node) : bool :=
  is_file (snd e)
  && existsb (String.eqb (str_lower (suffix (fst e)))) (file_extensions self)
  && negb (_should_skip_file (fst e)).

(** A byte that cannot start a UTF-8 sequence. *)
Definition invalid_start (b : Byte.byte) : Prop :=
  (128 <= Byte.to_N b < 194)%N \/ (245 <= Byte.to_N b)%N.

(** ** Definitions for the further properties *)

(** The finding that [scan_file] builds for a rule of [category] with
    [description] that matches [line], the line number [line_num] of the
    file at [rel] below the target. *)
Definition finding_of (category description : string) (rel : Path)
    (line_num : Z) (line : text) : Vulnerability :=
  {| severity := _get_severity category;
     category := category;
     description := description;
     file_path := path_str rel;
     line_number := line_num;
     code_snippet := strip line;
     remediation := _get_remediation category;
     cwe_id := _get_cwe_id category;
     cvss_score := _get_cvss_score (_get_severity category) |}.

(** The rule compiles and matches somewhere in the line, letter case
    ignored. *)
Definition matches (pattern : string) (line : text) : bool :=
  match re_search pattern line IGNORECASE with
  | Return b => b
  | Raise _ => false
  end.

(** One finding for each category, each of its rules and each line that the
    rule matches, in this order. *)
Definition findings_in (pats : list (string * list (string * string)))
    (rel : Path) (lines : list text) : list Vulnerability :=
  flat_map (fun c =>
    flat_map (fun p =>
      flat_map (fun l =>
        if matches (fst p) (snd l)
        then [finding_of (fst c) (snd p) rel (fst l) (snd l)] else [])
        (enumerate lines 1)) (snd c)) pats.

(** [re] accepts the pattern; every pattern of the rules is accepted. *)
Definition compiles (pattern : string) : Prop :=
  exists r, Re.compile pattern = Return r.

Definition well_formed (pats : list (string * list (string * string))) : Prop :=
  Forall (fun c => Forall (fun p => compiles (fst p)) (snd c)) pats.

(** What holds of every finding of a file. *)
Definition finding_ok (self : SecurityAuditor) (rel : Path) (lines : list text)
    (v : Vulnerability) : Prop :=
  exists pats pattern line,
    (category v, pats) ∈ patterns self
    /\ (pattern, description v) ∈ pats
    /\ 1 <= line_number v
    /\ lines !! Z.to_nat (line_number v - 1) = Some line
    /\ re_search pattern line IGNORECASE = Return true
    /\ v = finding_of (category v) (description v) rel (line_number v) line.

(** The severities that the built-in catalog gives. *)
Definition catalog_severity (s : string) (score : float) : Prop :=
  (s = "critical" /\ score = lit 9)
  \/ (s = "high" /\ score = lit (75 # 10))
  \/ (s = "medium" /\ score = lit 5).

(** The auditor that [SecurityAuditor(target)] builds, and what a scan with
    it finds under [tree]: the findings of the eligible entries, in the
    order of the walk. *)
Definition new_auditor (target : string) : SecurityAuditor :=
  fst (SecurityAuditor_init target []).

Definition scanned_entries (target : string) (tree : node) : list (Path * node) :=
  List.filter (eligible (new_auditor target))
              (rglob (Path_of_string target) tree).

Definition scan_findings (target : string) (tree : node) : list Vulnerability :=
  flat_map (fun e => scan_file (new_auditor target) tree (fst e))
           (scanned_entries target tree).

(** How many findings have the severity [s]. *)
Definition count_severity (s : string) (vulns : list Vulnerability) : Z :=
  Z.of_nat (length (List.filter (fun v => String.eqb (severity v) s) vulns)).

(** [k] copies of a list, one after the other. *)
Fixpoint copies {A : Type} (k : nat) (l : list A) : list A :=
  match k with
  | O => []
  | S k' => (l ++ copies k' l)%list
  end.

(** The sum of the values of a dictionary, the key ['total'] left out. *)
Definition sum_except_total (d : dict Z) : Z :=
  foldr Z.add 0%Z
    (map snd (List.filter (fun kv => negb (String.eqb (fst kv) "total")) d)).

(** One finding weighs no more than another in the risk score. *)
Definition weighs_at_most (v w : Vulnerability) : Prop :=
  (spec_weight (severity v) <= spec_weight (severity w))%Z.

(** What follows the last slash of a file name. *)
Definition file_name (s : string) : string :=
  default EmptyString (last (split_on slash s)).

(** ** Scenarios *)

(** Scenario A: a [.js] file with the single line
    [query("SELECT * FROM users WHERE id=" + userId)]. *)
Definition scenario_A_line : string :=
  "query(" ++ dq ++ "SELECT * FROM users WHERE id=" ++ dq ++ " + userId)".

Definition scenario_A_tree : node :=
  Dir [("app.js", File (Return (list_byte_of_string scenario_A_line)))].

(** A line that the query pattern does match: the plus sign comes before the
    closing quote. *)
Definition plus_inside_line : string :=
  "query(" ++ dq ++ "SELECT * FROM users WHERE id=+" ++ dq ++ ", userId)".

Definition plus_inside_tree : node :=
  Dir [("app.js", File (Return (list_byte_of_string plus_inside_line)))].

(** A tree with one finding: a weak hash in a Python file. *)
Definition weak_hash_tree : node :=
  Dir [("a.py", File (Return (list_byte_of_string "h = md5(x)")))].

(** Two scans with the same auditor, one after the other. *)
Definition two_scans (target : string) (tree : node)
  : py (AuditResult * heap * AuditResult * heap) :=
  let '(auditor, h0) := SecurityAuditor_init target [] in
  '(r1, h1) ← scan_directory auditor tree 0 1 h0;
  '(r2, h2) ← scan_directory auditor tree 2 3 h1;
  mret (r1, h1, r2, h2).

(** A file with an invalid byte between two letters, and an unreadable file
    next to a readable one. *)
Definition invalid_byte_tree : node :=
  Dir [("a.py", File (Return [x61; xff; x62]))].

Definition unreadable_tree : node :=
  Dir [("secret.py", File (Raise PermissionError));
       ("a.py", File (Return (list_byte_of_string "h = md5(x)")))].

(** A finding whose severity is none of the four known ones, and a critical
    one. *)
Definition unknown_severity_finding : Vulnerability :=
  {| severity := "info"; category := "style"; description := "note";
     file_path := "a.py"; line_number := 1; code_snippet := [];
     remediation := "none"; cwe_id := "CWE-Unknown"; cvss_score := lit 0 |}.

Definition critical_finding : Vulnerability :=
  {| severity := "critical"; category := "sql_injection";
     description := "SQL query with string concatenation";
     file_path := "a.py"; line_number := 1; code_snippet := [];
     remediation := "Use parameterized queries or prepared statements.";
     cwe_id := "CWE-89"; cvss_score := lit 9 |}.

(** Scenario C: one critical, two high and one medium finding. *)
Definition vuln (sev cat : string) : vuln_dict :=
  [("severity", sev); ("category", cat)].

Definition scenario_C_findings : list vuln_dict :=
  [vuln "high" "xss"; vuln "critical" "sql_injection";
   vuln "medium" "weak_crypto"; vuln "high" "ssrf"].

(** The finding of [weak_hash_tree]: the weak hash of its first line. *)
Definition md5_finding : Vulnerability :=
  {| severity := "medium"; category := "weak_crypto";
     description := "Weak MD5 hashing";
     file_path := "a.py"; line_number := 1;
     code_snippet := text_of_string "h = md5(x)";
     remediation := "Use strong cryptographic algorithms (AES-256, SHA-256+).";
     cwe_id := "CWE-327"; cvss_score := lit 5 |}.

(** Metrics whose cost dictionary lacks the key ['total'], and metrics whose
    risk score is not a number. *)
Definition metrics_without_total : RiskMetrics :=
  {| vulnerability_count := 1;
     severity_distribution := [("high", 1%Z)];
     rm_risk_score := lit 7;
     business_impact_score := lit 6;
     remediation_cost := [("high", 8000%Z)];
     timeline_months := lit (3 # 10) |}.

Definition metrics_not_a_number : RiskMetrics :=
  {| vulnerability_count := 1;
     severity_distribution := [("high", 1%Z)];
     rm_risk_score := NaN;
     business_impact_score := lit 6;
     remediation_cost := [("high", 8000%Z); ("total", 8000%Z)];
     timeline_months := lit (3 # 10) |}.

(** * Properties *)

Local Open Scope list_scope.
Local Open Scope Z_scope.

(** ** Rounding facts *)

Section FloatFacts.
Local Open Scope Q_scope.

Lemma rne_bounds x : (Qfloor x <= rne x <= Qfloor x + 1)%Z.
Proof.
  unfold rne. destruct (Qcompare _ _); [destruct (Z.even _) | |]; lia.
Qed.

#[global] Instance rne_proper : Proper (Qeq ==> eq) rne.
Proof.
  intros x y Hxy. unfold rne.
  assert (Hf : Qfloor x = Qfloor y) by (now rewrite Hxy).
  rewrite Hf. now rewrite Hxy.
Qed.

Lemma rne_mono x y : x <= y -> (rne x <= rne y)%Z.
Proof.
  intros Hxy.
  pose proof (Qfloor_resp_le _ _ Hxy) as Hf.
  pose proof (rne_bounds x) as Hx. pose proof (rne_bounds y) as Hy.
  destruct (Z.eq_dec (Qfloor x) (Qfloor y)) as [Heq | Hne]; [| lia].
  unfold rne in *. rewrite <- Heq in *.
  destruct (Qcompare_spec (x - inject_Z (Qfloor x)) (1 # 2)) as [Ex | Ex | Ex];
    destruct (Qcompare_spec (y - inject_Z (Qfloor x)) (1 # 2)) as [Ey | Ey | Ey];
    try destruct (Z.even (Qfloor x)); try lia; exfalso; lra.
Qed.

Lemma rne_inject_Z n : rne (inject_Z n) = n.
Proof.
  unfold rne. rewrite Qfloor_Z.
  destruct (Qcompare_spec (inject_Z n - inject_Z n) (1 # 2)) as [E | E | E];
    try reflexivity; exfalso; lra.
Qed.

Lemma rne_le_Z x n : x <= inject_Z n -> (rne x <= n)%Z.
Proof. intros H. rewrite <- (rne_inject_Z n). now apply rne_mono. Qed.

Lemma rne_ge_Z x n : inject_Z n <= x -> (n <= rne x)%Z.
Proof. intros H. rewrite <- (rne_inject_Z n). now apply rne_mono. Qed.

Lemma two_neq_0 : ~ 2 == 0.
Proof. discriminate. Qed.

Lemma pow2_pos k : 0 < 2 ^ k.
Proof. now apply Qpower_0_lt. Qed.

Lemma pow2_add a b : 2 ^ (a + b) == 2 ^ a * 2 ^ b.
Proof. apply Qpower_plus, two_neq_0. Qed.

Lemma pow2_sub a b : 2 ^ (a - b) == 2 ^ a / 2 ^ b.
Proof. apply Qpower_minus, two_neq_0. Qed.

Lemma pow2_Z n : (0 <= n)%Z -> 2 ^ n == inject_Z (2 ^ n).
Proof. intros H. now rewrite (Zpower_Qpower 2 n H). Qed.

Lemma pow2_le a b : (a <= b)%Z -> 2 ^ a <= 2 ^ b.
Proof. intros H. apply Qpower_le_compat_l; [exact H | discriminate]. Qed.

Lemma pow2_lt_inv a b : 2 ^ a < 2 ^ b -> (a < b)%Z.
Proof. intros H. now apply (Qpower_lt_compat_l_inv 2). Qed.

Lemma floor_log2_spec x :
  0 < x -> 2 ^ floor_log2 x <= x /\ x < 2 ^ (floor_log2 x + 1).
Proof.
  destruct x as [p q]. intros Hx.
  assert (Hp : (0 < p)%Z) by (unfold Qlt in Hx; simpl in Hx; lia).
  unfold floor_log2. cbn [Qnum Qden].
  set (a := Z.log2 p). set (b := Z.log2 (Z.pos q)).
  destruct (Z.log2_spec p Hp) as [Ha1 Ha2]. fold a in Ha1, Ha2.
  destruct (Z.log2_spec (Z.pos q) eq_refl) as [Hb1 Hb2]. fold b in Hb1, Hb2.
  assert (Ha0 : (0 <= a)%Z) by apply Z.log2_nonneg.
  assert (Hb0 : (0 <= b)%Z) by apply Z.log2_nonneg.
  assert (HA : (0 < 2 ^ a)%Z) by (apply Z.pow_pos_nonneg; lia).
  assert (HB : (0 < 2 ^ b)%Z) by (apply Z.pow_pos_nonneg; lia).
  assert (Hup : p # q < 2 ^ (a - b + 1)).
  { replace (a - b + 1)%Z with (Z.succ a - b)%Z by lia.
    rewrite pow2_sub, (pow2_Z (Z.succ a)), (pow2_Z b) by lia.
    apply Qlt_shift_div_l.
    - unfold Qlt; simpl; lia.
    - unfold Qlt, Qmult, inject_Z; simpl. nia. }
  assert (Hlo : 2 ^ (a - b - 1) <= p # q).
  { replace (a - b - 1)%Z with (a - Z.succ b)%Z by lia.
    rewrite pow2_sub, (pow2_Z a), (pow2_Z (Z.succ b)) by lia.
    assert (HB' : (0 < 2 ^ Z.succ b)%Z) by (apply Z.pow_pos_nonneg; lia).
    apply Qle_shift_div_r.
    - unfold Qlt; simpl; lia.
    - unfold Qle, Qmult, inject_Z; simpl. nia. }
  destruct (Qle_bool (2 ^ (a - b)) (p # q)) eqn:E.
  - apply Qle_bool_iff in E. split; assumption.
  - split; [exact Hlo |].
    replace (a - b - 1 + 1)%Z with (a - b)%Z by lia.
    apply Qnot_le_lt. intros H. apply Qle_bool_iff in H. congruence.
Qed.

Lemma floor_log2_unique x k :
  2 ^ k <= x -> x < 2 ^ (k + 1) -> floor_log2 x = k.
Proof.
  intros H1 H2.
  assert (Hx : 0 < x) by (eapply Qlt_le_trans; [apply (pow2_pos k) | exact H1]).
  destruct (floor_log2_spec x Hx) as [G1 G2].
  assert (floor_log2 x < k + 1)%Z
    by (apply pow2_lt_inv; eapply Qle_lt_trans; eauto).
  assert (k < floor_log2 x + 1)%Z
    by (apply pow2_lt_inv; eapply Qle_lt_trans; eauto).
  lia.
Qed.

Lemma floor_log2_mono x y : 0 < x -> x <= y -> (floor_log2 x <= floor_log2 y)%Z.
Proof.
  intros Hx Hxy.
  destruct (floor_log2_spec x Hx) as [G1 _].
  destruct (floor_log2_spec y) as [_ G2]; [eapply Qlt_le_trans; eauto |].
  assert (floor_log2 x < floor_log2 y + 1)%Z; [| lia].
  apply pow2_lt_inv. eapply Qle_lt_trans; [exact G1 |].
  eapply Qle_lt_trans; eauto.
Qed.

Lemma floor_log2_proper_pos x y :
  0 < x -> x == y -> floor_log2 x = floor_log2 y.
Proof.
  intros Hx Hxy. destruct (floor_log2_spec x Hx) as [G1 G2].
  symmetry. apply floor_log2_unique; now rewrite <- Hxy.
Qed.

Lemma ulp_exp_pos x : 0 < x -> ulp_exp x = Z.max (floor_log2 x - 52) (-1074).
Proof.
  intros Hx. unfold ulp_exp. f_equal. f_equal.
  apply floor_log2_proper_pos.
  - rewrite Qabs_pos; [exact Hx | now apply Qlt_le_weak].
  - apply Qabs_pos. now apply Qlt_le_weak.
Qed.

Lemma ulp_exp_proper x y : ~ x == 0 -> x == y -> ulp_exp x = ulp_exp y.
Proof.
  intros Hx Hxy. unfold ulp_exp. f_equal. f_equal.
  apply floor_log2_proper_pos; [| now rewrite Hxy].
  destruct x as [p q]. unfold Qabs, Qlt, Qeq in *. simpl in *. lia.
Qed.

Lemma round53_eq x :
  ~ x == 0 ->
  round53 x == inject_Z (rne (x / 2 ^ ulp_exp x)) * 2 ^ ulp_exp x.
Proof.
  intros Hx. unfold round53.
  destruct (Qeq_bool x 0) eqn:E.
  - apply Qeq_bool_iff in E. contradiction.
  - apply Qred_correct.
Qed.

Lemma round53_0 x : x == 0 -> round53 x = 0.
Proof.
  intros Hx. unfold round53. apply Qeq_bool_iff in Hx. now rewrite Hx.
Qed.

Lemma round53_proper x y : x == y -> round53 x = round53 y.
Proof.
  intros Hxy. unfold round53.
  destruct (Qeq_bool x 0) eqn:Ex.
  - apply Qeq_bool_iff in Ex. rewrite Hxy in Ex. apply Qeq_bool_iff in Ex.
    now rewrite Ex.
  - assert (Hx : ~ x == 0) by now apply Qeq_bool_neq.
    destruct (Qeq_bool y 0) eqn:Ey.
    + apply Qeq_bool_iff in Ey. rewrite <- Hxy in Ey. contradiction.
    + rewrite <- (ulp_exp_proper x y Hx Hxy).
      apply Qred_complete.
      assert (Hr : rne (x / 2 ^ ulp_exp x) = rne (y / 2 ^ ulp_exp x))
        by (apply rne_proper, Qdiv_comp; [exact Hxy | reflexivity]).
      now rewrite Hr.
Qed.

Lemma round53_canon x : Qred (round53 x) = round53 x.
Proof.
  unfold round53. destruct (Qeq_bool x 0); [reflexivity |].
  apply Qred_complete, Qred_correct.
Qed.

Lemma round53_nonneg x : 0 <= x -> 0 <= round53 x.
Proof.
  intros Hx. destruct (Qeq_dec x 0) as [E | E].
  - rewrite (round53_0 x E). apply Qle_refl.
  - rewrite (round53_eq x E).
    apply Qmult_le_0_compat; [| apply Qlt_le_weak, pow2_pos].
    change 0 with (inject_Z 0). rewrite <- Zle_Qle.
    apply rne_ge_Z. apply Qle_shift_div_l; [apply pow2_pos |].
    now rewrite Qmult_0_l.
Qed.

Lemma round53_mono x y : 0 <= x -> x <= y -> round53 x <= round53 y.
Proof.
  intros Hx Hxy.
  destruct (Qeq_dec x 0) as [Ex | Ex].
  { rewrite (round53_0 x Ex). apply round53_nonneg. lra. }
  assert (Hx' : 0 < x) by lra.
  assert (Hy' : 0 < y) by lra.
  assert (Ey : ~ y == 0) by lra.
  rewrite (round53_eq x Ex), (round53_eq y Ey).
  rewrite (ulp_exp_pos x Hx'), (ulp_exp_pos y Hy').
  pose proof (floor_log2_mono x y Hx' Hxy) as Hk.
  set (kx := floor_log2 x) in *. set (ky := floor_log2 y) in *.
  set (ex := Z.max (kx - 52) (-1074)). set (ey := Z.max (ky - 52) (-1074)).
  destruct (Z.eq_dec ex ey) as [Heq | Hne].
  - rewrite <- Heq.
    apply Qmult_le_compat_r; [| apply Qlt_le_weak, pow2_pos].
    rewrite <- Zle_Qle. apply rne_mono.
    apply Qmult_le_compat_r; [exact Hxy |].
    apply Qlt_le_weak, Qinv_lt_0_compat, pow2_pos.
  - assert (Hey : ey = (ky - 52)%Z) by lia.
    assert (Hlt : (kx + 1 <= ky)%Z) by lia.
    assert (Hexy : (ex < ey)%Z) by lia.
    destruct (floor_log2_spec x Hx') as [_ Gx]. fold kx in Gx.
    destruct (floor_log2_spec y Hy') as [Gy _]. fold ky in Gy.
    apply Qle_trans with (2 ^ ky).
    + assert (Hd : 2 ^ ky == inject_Z (2 ^ (ky - ex)) * 2 ^ ex).
      { rewrite <- pow2_Z, <- pow2_add by lia. now replace (ky - ex + ex)%Z with ky by lia. }
      rewrite Hd.
      apply Qmult_le_compat_r; [| apply Qlt_le_weak, pow2_pos].
      rewrite <- Zle_Qle. apply rne_le_Z.
      rewrite <- (pow2_Z (ky - ex)) by lia. rewrite pow2_sub.
      apply Qmult_le_compat_r;
        [| apply Qlt_le_weak, Qinv_lt_0_compat, pow2_pos].
      apply Qle_trans with (2 ^ (kx + 1)); [now apply Qlt_le_weak |].
      now apply pow2_le.
    + assert (Hd : 2 ^ ky == inject_Z (2 ^ 52) * 2 ^ ey).
      { rewrite <- pow2_Z, <- pow2_add by lia. now replace (52 + ey)%Z with ky by lia. }
      rewrite Hd.
      apply Qmult_le_compat_r; [| apply Qlt_le_weak, pow2_pos].
      rewrite <- Zle_Qle. apply rne_ge_Z.
      rewrite <- (pow2_Z 52) by lia.
      replace 52%Z with (ky - ey)%Z by lia. rewrite pow2_sub.
      apply Qmult_le_compat_r;
        [exact Gy | apply Qlt_le_weak, Qinv_lt_0_compat, pow2_pos].
Qed.

Lemma RN_proper x y : x == y -> RN x = RN y.
Proof.
  intros Hxy. unfold RN. rewrite (round53_proper x y Hxy).
  assert (Hb : Qle_bool 0 x = Qle_bool 0 y).
  { destruct (Qle_bool 0 x) eqn:E1, (Qle_bool 0 y) eqn:E2; try reflexivity.
    - apply Qle_bool_iff in E1. rewrite Hxy in E1. apply Qle_bool_iff in E1.
      congruence.
    - apply Qle_bool_iff in E2. rewrite <- Hxy in E2. apply Qle_bool_iff in E2.
      congruence. }
  now rewrite Hb.
Qed.

(** Rounding keeps a value between the roundings of its bounds; below the
    largest finite float the result is finite. *)
Lemma RN_between x lo hi :
  0 <= lo -> lo <= x -> x <= hi -> round53 hi < 2 ^ 1024 ->
  exists r, RN x = Fin r /\ round53 lo <= r /\ r <= round53 hi.
Proof.
  intros Hlo Hx1 Hx2 Hhi. exists (round53 x).
  assert (H0 : 0 <= x) by lra.
  pose proof (round53_nonneg x H0) as Hr0.
  pose proof (round53_mono lo x Hlo Hx1) as Hr1.
  pose proof (round53_mono x hi H0 Hx2) as Hr2.
  split; [| split; assumption].
  unfold RN. cbv zeta.
  destruct (Qle_bool (2 ^ 1024) (Qabs (round53 x))) eqn:E; [| reflexivity].
  apply Qle_bool_iff in E. rewrite (Qabs_pos _ Hr0) in E. exfalso.
  apply (Qlt_irrefl (2 ^ 1024)).
  eapply Qle_lt_trans; [exact E |]. eapply Qle_lt_trans; eassumption.
Qed.

Lemma fle_Fin a b : fle (Fin a) (Fin b) = true <-> a <= b.
Proof. apply Qle_bool_iff. Qed.

Lemma flt_Fin a b : flt (Fin a) (Fin b) = true <-> a < b.
Proof.
  simpl. destruct (Qle_bool b a) eqn:E; simpl; split; intros H;
    try discriminate; try reflexivity.
  - apply Qle_bool_iff in E. lra.
  - apply Qnot_le_lt. intros Hle. apply Qle_bool_iff in Hle. congruence.
Qed.

Lemma of_int_10 : of_int 10 = Return (Fin 10).
Proof. reflexivity. Qed.

Lemma of_int_30 : of_int 30 = Return (Fin 30).
Proof. reflexivity. Qed.

(** [round(x, 1)] of a float between two multiples of one tenth. *)
Lemma py_round1_between q (a b : Z) :
  (0 <= a)%Z -> (b <= 100)%Z ->
  inject_Z a <= q * 10 -> q * 10 <= inject_Z b ->
  exists r, py_round1 (Fin q) = Fin r
            /\ round53 (inject_Z a / 10) <= r
            /\ r <= round53 (inject_Z b / 10).
Proof.
  intros Ha Hb H1 H2. unfold py_round1.
  pose proof (rne_ge_Z _ _ H1) as G1. pose proof (rne_le_Z _ _ H2) as G2.
  apply RN_between.
  - apply Qle_shift_div_l; [reflexivity |]. rewrite Qmult_0_l.
    change 0 with (inject_Z 0). now rewrite <- Zle_Qle.
  - apply Qmult_le_compat_r; [now rewrite <- Zle_Qle | discriminate].
  - apply Qmult_le_compat_r; [now rewrite <- Zle_Qle | discriminate].
  - eapply Qle_lt_trans with (round53 (inject_Z 100 / 10)); [| reflexivity].
    apply round53_mono.
    + apply Qle_shift_div_l; [reflexivity |]. rewrite Qmult_0_l.
      change 0 with (inject_Z 0). rewrite <- Zle_Qle. lia.
    + apply Qmult_le_compat_r; [rewrite <- Zle_Qle; lia | discriminate].
Qed.

Lemma py_round1_below q (b : Z) :
  0 <= q -> q * 10 <= inject_Z b -> round53 (inject_Z b / 10) < 2 ^ 1024 ->
  exists r, py_round1 (Fin q) = Fin r /\ 0 <= r
            /\ r <= round53 (inject_Z b / 10).
Proof.
  intros H0 H1 Hb. unfold py_round1.
  assert (G0 : (0 <= rne (q * 10))%Z) by (apply rne_ge_Z; change (inject_Z 0) with 0; lra).
  pose proof (rne_le_Z _ _ H1) as G1.
  destruct (RN_between (inject_Z (rne (q * 10)) / 10) 0 (inject_Z b / 10))
    as (r & Hr & Hr0 & Hr1).
  - apply Qle_refl.
  - apply Qle_shift_div_l; [reflexivity |]. rewrite Qmult_0_l.
    change 0 with (inject_Z 0). now rewrite <- Zle_Qle.
  - apply Qmult_le_compat_r; [now rewrite <- Zle_Qle | discriminate].
  - exact Hb.
  - exists r. change (round53 0) with 0 in Hr0. auto.
Qed.

Lemma RN_Fin x r : RN x = Fin r -> r = round53 x.
Proof.
  unfold RN. cbv zeta.
  destruct (Qle_bool _ _); [discriminate | congruence].
Qed.

Lemma RN_canon x r : RN x = Fin r -> Qred r = r.
Proof. intros H. rewrite (RN_Fin x r H). apply round53_canon. Qed.

(** The integers below [2^53] are floats. *)
Lemma round53_int m : (0 <= m < 2 ^ 53)%Z -> round53 (inject_Z m) == inject_Z m.
Proof.
  intros [H0 H53].
  destruct (Z.eq_dec m 0%Z) as [-> | Hm]; [reflexivity |].
  assert (Hx : 0 < inject_Z m)
    by (change 0 with (inject_Z 0); rewrite <- Zlt_Qlt; lia).
  rewrite round53_eq by lra. rewrite (ulp_exp_pos _ Hx).
  destruct (floor_log2_spec _ Hx) as [Hk _].
  set (k := floor_log2 (inject_Z m)) in *.
  assert (Hk52 : (k < 53)%Z).
  { apply pow2_lt_inv. eapply Qle_lt_trans; [exact Hk |].
    rewrite (pow2_Z 53) by lia. rewrite <- Zlt_Qlt. exact H53. }
  set (e := Z.max (k - 52) (-1074)).
  assert (He : (e <= 0)%Z) by lia.
  assert (Hinv : inject_Z m / 2 ^ e == inject_Z (m * 2 ^ (- e))).
  { rewrite inject_Z_mult, <- (pow2_Z (- e)) by lia.
    unfold Qdiv. rewrite <- Qpower_opp. reflexivity. }
  rewrite (rne_proper _ _ Hinv), rne_inject_Z.
  rewrite inject_Z_mult, <- (pow2_Z (- e)) by lia.
  rewrite <- Qmult_assoc, <- pow2_add.
  replace (- e + e)%Z with 0%Z by lia. change (2 ^ 0) with 1. ring.
Qed.

(** On the samples, the rounding defined here and the operations built on
    it agree with the binary64 operations of [SpecFloat]. *)
Example binary64_agrees_with_SpecFloat :
  forallb (fun x => forallb (fun y =>
    agrees_with_spec_float (fst x) (snd x) (fst y) (snd y))
    sample_fractions) sample_fractions = true.
Proof. vm_compute. reflexivity. Qed.

(** Values that Python prints: [0.1] is not one tenth; [9.0 * 0.8] is [7.2];
    [round(1.05, 1)] is [1.1] and [round(0.35, 1)] is [0.3], because the
    floats [1.05] and [0.35] lie above and below the decimals; the tie
    [round(0.25, 1)] goes to the even digit. *)
Example python_float_values :
  lit (1 # 10) = Fin (3602879701896397 # 36028797018963968)
  /\ fmul (lit 9) (lit (8 # 10)) = lit (72 # 10)
  /\ py_round1 (lit (105 # 100)) = lit (11 # 10)
  /\ py_round1 (lit (35 # 100)) = lit (3 # 10)
  /\ py_round1 (lit (25 # 100)) = lit (2 # 10).
Proof. repeat split; vm_compute; reflexivity. Qed.

End FloatFacts.

(** ** The risk scorer *)

Section RiskScore.
Local Open Scope Q_scope.

Lemma Return_inj {A : Type} (a b : A) : Return a = Return b -> a = b.
Proof. congruence. Qed.

Lemma bind_Return {A B : Type} (a : A) (f : A -> py B) : (Return a ≫= f) = f a.
Proof. reflexivity. Qed.

Lemma weight_spec s : get severity_weights s 0%Z = spec_weight s.
Proof.
  unfold get, severity_weights, spec_weight. cbn [dict_get].
  rewrite !(String.eqb_sym s).
  repeat (destruct (String.eqb _ s); [reflexivity |]). reflexivity.
Qed.

Lemma spec_weight_bounds s : (0 <= spec_weight s <= 10)%Z.
Proof.
  unfold spec_weight. repeat (destruct (String.eqb s _); [lia |]). lia.
Qed.

Lemma spec_weight_known s : known_severity s -> (1 <= spec_weight s)%Z.
Proof.
  unfold known_severity. cbn [In].
  intros [<- | [<- | [<- | [<- | []]]]]; vm_compute; discriminate.
Qed.

Lemma fold_left_Zadd l a : fold_left Z.add l a = (a + foldr Z.add 0%Z l)%Z.
Proof.
  revert a. induction l as [| x l IH]; intros a; cbn [fold_left foldr].
  - lia.
  - rewrite IH. lia.
Qed.

Lemma sum_Z_foldr l : sum_Z l = foldr Z.add 0%Z l.
Proof. unfold sum_Z. rewrite fold_left_Zadd. lia. Qed.

Lemma total_weight_bounds (vulns : list Vulnerability) :
  (0 <= foldr Z.add 0 (map (fun v => spec_weight (severity v)) vulns)
     <= 10 * Z.of_nat (length vulns))%Z.
Proof.
  induction vulns as [| v vs IH]; cbn [map foldr length].
  - lia.
  - pose proof (spec_weight_bounds (severity v)). lia.
Qed.

Lemma total_weight_known (vulns : list Vulnerability) :
  Forall (fun v => known_severity (severity v)) vulns ->
  (Z.of_nat (length vulns)
     <= foldr Z.add 0 (map (fun v => spec_weight (severity v)) vulns))%Z.
Proof.
  induction 1 as [| v vs Hv _ IH]; cbn [map foldr length].
  - lia.
  - pose proof (spec_weight_known _ Hv). lia.
Qed.

Lemma quotient_range (t n : Z) :
  (1 <= n)%Z -> (0 <= t <= 10 * n)%Z ->
  0 <= inject_Z t / inject_Z (n * 10) /\ inject_Z t / inject_Z (n * 10) <= 1.
Proof.
  intros Hn Ht.
  assert (Hpos : 0 < inject_Z (n * 10))
    by (change 0 with (inject_Z 0); rewrite <- Zlt_Qlt; lia).
  split.
  - apply Qle_shift_div_l; [exact Hpos |]. rewrite Qmult_0_l.
    change 0 with (inject_Z 0). rewrite <- Zle_Qle. lia.
  - apply Qle_shift_div_r; [exact Hpos |]. rewrite Qmult_1_l.
    rewrite <- Zle_Qle. lia.
Qed.

Lemma quotient_known (t n : Z) :
  (1 <= n)%Z -> (n <= t)%Z -> 1 # 10 <= inject_Z t / inject_Z (n * 10).
Proof.
  intros Hn Ht.
  assert (Hpos : 0 < inject_Z (n * 10))
    by (change 0 with (inject_Z 0); rewrite <- Zlt_Qlt; lia).
  apply Qle_shift_div_l; [exact Hpos |].
  unfold Qle, Qmult, inject_Z. simpl. lia.
Qed.

(** The three roundings of the score: quotient, product by ten, one
    decimal. *)
Lemma score_chain x :
  0 <= x -> x <= 1 ->
  exists q r, RN x = Fin q
    /\ py_round1 (fmul (Fin q) (Fin 10)) = Fin r
    /\ 0 <= r /\ r <= 10 /\ (1 # 10 <= x -> 1 <= r).
Proof.
  intros Hx0 Hx1.
  destruct (RN_between x 0 1) as (q & Hq & Hq0 & Hq1);
    [apply Qle_refl | exact Hx0 | exact Hx1 | reflexivity |].
  change (round53 0) with 0 in Hq0. change (round53 1) with 1 in Hq1.
  destruct (RN_between (q * 10) 0 10) as (p & Hp & Hp0 & Hp1);
    [apply Qle_refl | lra | lra | reflexivity |].
  change (round53 0) with 0 in Hp0. change (round53 10) with 10 in Hp1.
  destruct (py_round1_between p 0 100) as (r & Hr & Hr0 & Hr1);
    [lia | lia | change (inject_Z 0) with 0; lra
     | change (inject_Z 100) with 100; lra |].
  change (round53 (inject_Z 0 / 10)) with 0 in Hr0.
  change (round53 (inject_Z 100 / 10)) with 10 in Hr1.
  exists q, r. cbn [fmul]. rewrite Hp.
  repeat split; try assumption.
  intros Hk.
  destruct (RN_between x (1 # 10) 1) as (q' & Hq' & Hq0' & _);
    [discriminate | exact Hk | exact Hx1 | reflexivity |].
  rewrite Hq in Hq'. injection Hq' as <-.
  destruct (RN_between (q * 10) (round53 (1 # 10) * 10) 10)
    as (p' & Hp' & Hp0' & _);
    [discriminate | lra | lra | reflexivity |].
  rewrite Hp in Hp'. injection Hp' as <-.
  assert (E1 : round53 (round53 (1 # 10) * 10) = 1) by (vm_compute; reflexivity).
  rewrite E1 in Hp0'.
  destruct (py_round1_between p 10 100) as (r' & Hr' & Hr0' & _);
    [lia | lia | change (inject_Z 10) with 10; lra
     | change (inject_Z 100) with 100; lra |].
  rewrite Hr in Hr'. injection Hr' as <-.
  assert (E2 : round53 (inject_Z 10 / 10) = 1) by (vm_compute; reflexivity).
  now rewrite E2 in Hr0'.
Qed.

Lemma map_weight_spec (vulns : list Vulnerability) :
  map (fun v => get severity_weights (severity v) 0%Z) vulns
  = map (fun v => spec_weight (severity v)) vulns.
Proof. apply map_ext. intros v. apply weight_spec. Qed.

Lemma risk_score_facts (vulns : list Vulnerability) :
  exists r, calculate_risk_score vulns = Return (Fin r)
    /\ spec_risk_score vulns = Fin r
    /\ 0 <= r /\ r <= 10
    /\ (vulns = [] -> r = 0)
    /\ (Forall (fun v => known_severity (severity v)) vulns ->
        r == 0 -> vulns = []).
Proof.
  destruct vulns as [| v vs].
  { exists 0. repeat split; try reflexivity; discriminate. }
  set (t := foldr Z.add 0%Z (map (fun v => spec_weight (severity v)) (v :: vs))).
  set (n := Z.of_nat (length (v :: vs))).
  assert (Hn : (1 <= n)%Z) by (subst n; cbn [length]; lia).
  pose proof (total_weight_bounds (v :: vs)) as Ht. fold t n in Ht.
  destruct (quotient_range t n Hn Ht) as [Hx0 Hx1].
  destruct (score_chain _ Hx0 Hx1) as (q & r & Hq & Hr & Hr0 & Hr1 & Hk).
  exists r.
  assert (Hcode : calculate_risk_score (v :: vs) = Return (Fin r)).
  { unfold calculate_risk_score.
    rewrite sum_Z_foldr, map_weight_spec. fold t. fold n.
    replace (0 <? n * 10)%Z with true by (symmetry; apply Z.ltb_lt; lia).
    unfold int_truediv.
    replace (n * 10 =? 0)%Z with false by (symmetry; apply Z.eqb_neq; lia).
    rewrite Hq, bind_Return, of_int_10, bind_Return. now rewrite Hr. }
  assert (Hspec : spec_risk_score (v :: vs) = Fin r).
  { unfold spec_risk_score. cbv zeta. fold t. fold n. rewrite Hq.
    change (lit 10) with (Fin 10). exact Hr. }
  repeat split; try assumption.
  - discriminate.
  - intros Hknown Hz. exfalso.
    pose proof (total_weight_known (v :: vs) Hknown) as Hlow. fold t n in Hlow.
    pose proof (Hk (quotient_known t n Hn Hlow)). lra.
Qed.

(** C2, as amended: for every finding list the risk scorer returns (it never
    raises) the value of round(sum(weight) / (count * 10) * 10, 1) with the
    weights critical 10, high 7, medium 4, low 1 (any other severity weighs
    0), and 0.0 for the empty list; the score lies in [0, 10]; when every
    severity is one of the four known ones, the score is 0.0 only for the
    empty list. *)
Theorem calculate_risk_score_spec (vulns : list Vulnerability) :
  exists r, calculate_risk_score vulns = Return (Fin r)
    /\ spec_risk_score vulns = Fin r
    /\ 0 <= r /\ r <= 10
    /\ (vulns = [] -> r = 0)
    /\ (Forall (fun v => known_severity (severity v)) vulns ->
        r == 0 -> vulns = []).
Proof. exact (risk_score_facts vulns). Qed.

End RiskScore.

(** ** The business-impact score *)

Section BusinessImpact.
Local Open Scope Q_scope.

Lemma base_impact_spec c :
  get high_impact_categories c (lit 3) = spec_base_impact c.
Proof.
  unfold get, high_impact_categories, spec_base_impact. cbn [dict_get].
  rewrite !(String.eqb_sym c).
  destruct (String.eqb_spec "sql_injection" c) as [<- | _]; [reflexivity |].
  destruct (String.eqb_spec "command_injection" c) as [<- | _]; [reflexivity |].
  destruct (String.eqb_spec "xss" c) as [<- | _]; [reflexivity |].
  destruct (String.eqb_spec "ssrf" c) as [<- | _]; [reflexivity |].
  destruct (String.eqb_spec "hardcoded_secrets" c) as [<- | _]; [reflexivity |].
  destruct (String.eqb_spec "insecure_deserialization" c) as [<- | _];
    [reflexivity |].
  destruct (String.eqb_spec "path_traversal" c) as [<- | _]; reflexivity.
Qed.

Lemma severity_multiplier_spec sv :
  get severity_multipliers sv (lit (3 # 10)) = spec_severity_multiplier sv.
Proof.
  unfold get, severity_multipliers, spec_severity_multiplier. cbn [dict_get].
  rewrite !(String.eqb_sym sv).
  repeat (destruct (String.eqb _ sv); [reflexivity |]). reflexivity.
Qed.

Lemma impact_score_spec vuln : impact_score vuln = spec_impact vuln.
Proof.
  unfold impact_score, spec_impact. cbv zeta.
  now rewrite base_impact_spec, severity_multiplier_spec.
Qed.

Lemma spec_impact_range vuln : fin_between 0 9 (spec_impact vuln).
Proof.
  unfold spec_impact, spec_base_impact, spec_severity_multiplier, fin_between.
  repeat match goal with
         | |- context [String.eqb ?a ?b] => destruct (String.eqb a b)
         end;
    (eexists; split; [vm_compute; reflexivity |]);
    repeat split; discriminate.
Qed.

Lemma fin_between_finite lo hi f : fin_between lo hi f -> exists q, f = Fin q.
Proof. intros (q & -> & _). now exists q. Qed.

Lemma flt_false_descending x y :
  (exists p, x = Fin p) -> (exists q, y = Fin q) ->
  flt x y = false -> descending x y.
Proof.
  intros [p ->] [q ->]. unfold descending. cbn [flt fle].
  now destruct (Qle_bool q p).
Qed.

Lemma flt_true_descending x y : flt x y = true -> descending y x.
Proof.
  unfold descending. destruct x as [p | [] |], y as [q | [] |];
    cbn [flt fle]; try discriminate; try reflexivity.
  intros H. apply Qle_bool_iff.
  destruct (Qle_bool q p) eqn:E; [discriminate |].
  apply Qlt_le_weak, Qnot_le_lt. intros Hle.
  apply Qle_bool_iff in Hle. congruence.
Qed.

Lemma descending_trans x y z :
  (exists q, y = Fin q) -> descending x y -> descending y z -> descending x z.
Proof.
  intros [q ->]. unfold descending.
  destruct x as [p | [] |], z as [r | [] |]; cbn [fle];
    try discriminate; try reflexivity.
  rewrite !Qle_bool_iff. intros. lra.
Qed.

Lemma descending_antisym x y :
  fin_between 0 9 x -> fin_between 0 9 y ->
  descending x y -> descending y x -> x = y.
Proof.
  intros (p & -> & _ & _ & Hp) (q & -> & _ & _ & Hq). unfold descending.
  cbn [fle]. rewrite !Qle_bool_iff. intros H1 H2. f_equal.
  rewrite <- Hp, <- Hq. apply Qred_complete. lra.
Qed.

Lemma insert_desc_perm x l : insert_desc x l ≡ₚ x :: l.
Proof.
  induction l as [| y l IH]; cbn [insert_desc]; [reflexivity |].
  destruct (flt x y); [| reflexivity].
  rewrite IH. apply Permutation_swap.
Qed.

Lemma sort_reverse_perm l : sort_reverse l ≡ₚ l.
Proof.
  induction l as [| x l IH]; cbn [sort_reverse foldr]; [reflexivity |].
  fold (sort_reverse l). now rewrite insert_desc_perm, IH.
Qed.

Lemma insert_desc_sorted x l :
  (exists p, x = Fin p) -> Forall (fun y => exists q, y = Fin q) l ->
  StronglySorted descending l -> StronglySorted descending (insert_desc x l).
Proof.
  intros Hx Hfin Hs. induction Hs as [| y l Hs IH Hy]; cbn [insert_desc].
  - repeat constructor.
  - apply Forall_cons in Hfin as [Hyf Hlf].
    destruct (flt x y) eqn:E.
    + constructor; [now apply IH |].
      rewrite insert_desc_perm. constructor; [| exact Hy].
      now apply flt_true_descending.
    + pose proof (flt_false_descending x y Hx Hyf E) as Hxy.
      constructor; [now constructor |].
      constructor; [exact Hxy |].
      eapply Forall_impl; [exact Hy |]. intros z Hz.
      now apply (descending_trans x y z).
Qed.

Lemma sort_reverse_sorted l :
  Forall (fun y => exists q, y = Fin q) l ->
  StronglySorted descending (sort_reverse l).
Proof.
  induction 1 as [| x l Hx Hl IH]; cbn [sort_reverse foldr].
  - constructor.
  - fold (sort_reverse l). apply insert_desc_sorted; [exact Hx | | exact IH].
    now rewrite sort_reverse_perm.
Qed.

(** There is one way to put the impacts in descending order. *)
Lemma descending_unique l1 l2 :
  Forall (fin_between 0 9) l1 ->
  StronglySorted descending l1 -> StronglySorted descending l2 ->
  l1 ≡ₚ l2 -> l1 = l2.
Proof.
  intros Hf H1 H2 Hp. apply (StronglySorted_unique_strong descending);
    try assumption.
  rewrite Forall_forall in Hf. intros x1 x2 Hx1 Hx2.
  apply descending_antisym; apply Hf; [| rewrite Hp]; assumption.
Qed.

Lemma RN_between_int x m :
  (0 <= m < 2 ^ 53)%Z -> 0 <= x -> x <= inject_Z m ->
  exists r, RN x = Fin r /\ 0 <= r /\ r <= inject_Z m /\ Qred r = r.
Proof.
  intros Hm Hx0 Hx1.
  pose proof (round53_int m Hm) as Hint.
  destruct (RN_between x 0 (inject_Z m)) as (r & Hr & Hr0 & Hr1);
    [apply Qle_refl | exact Hx0 | exact Hx1 | |].
  - rewrite Hint. apply Qlt_le_trans with (inject_Z (2 ^ 53)).
    + rewrite <- Zlt_Qlt. lia.
    + rewrite <- (pow2_Z 53) by lia. apply pow2_le. lia.
  - exists r. change (round53 0) with 0 in Hr0. rewrite Hint in Hr1.
    repeat split; try assumption. eapply RN_canon; eassumption.
Qed.

Lemma sum_float_range l : forall (a : Z) s,
  (0 <= a)%Z -> (a + Z.of_nat (length l) <= 1000)%Z ->
  0 <= s -> s <= inject_Z (9 * a) ->
  Forall (fin_between 0 9) l ->
  exists s', fold_left fadd l (Fin s) = Fin s'
             /\ 0 <= s' /\ s' <= inject_Z (9 * (a + Z.of_nat (length l))).
Proof.
  induction l as [| x l IH]; intros a s Ha Hlen Hs0 Hs1 Hl.
  - exists s. cbn [fold_left length]. repeat split; try assumption.
    now replace (a + Z.of_nat 0)%Z with a by lia.
  - apply Forall_cons in Hl as [(q & -> & Hq0 & Hq1 & _) Hl].
    cbn [fold_left fadd]. cbn [length] in Hlen.
    destruct (RN_between_int (s + q) (9 * (a + 1))) as (r & Hr & Hr0 & Hr1 & _).
    + lia.
    + lra.
    + replace (9 * (a + 1))%Z with (9 * a + 9)%Z by lia.
      rewrite inject_Z_plus. change (inject_Z 9) with 9. lra.
    + rewrite Hr.
      destruct (IH (a + 1)%Z r) as (s' & Hs' & Hs0' & Hs1');
        [lia | lia | assumption | assumption | assumption |].
      exists s'. repeat split; try assumption.
      cbn [length].
      now replace (a + Z.of_nat (S (length l)))%Z
        with (a + 1 + Z.of_nat (length l))%Z by lia.
Qed.

Lemma rounded_average_range l :
  l <> [] -> (length l <= 5)%nat -> Forall (fin_between 0 9) l ->
  exists r, spec_rounded_average l = Return (Fin r) /\ 0 <= r /\ r <= 10.
Proof.
  intros Hne Hlen Hl. unfold spec_rounded_average.
  set (n := Z.of_nat (length l)).
  assert (Hn : (1 <= n <= 5)%Z).
  { subst n. destruct l; [contradiction | cbn [length] in *; lia]. }
  destruct (RN_between_int (inject_Z n) n) as (d & Hd & _ & _ & _);
    [lia | change 0 with (inject_Z 0); rewrite <- Zle_Qle; lia
     | apply Qle_refl |].
  assert (Hdn : d == inject_Z n).
  { rewrite (RN_Fin _ _ Hd). apply round53_int. lia. }
  assert (Hd1 : 1 <= d).
  { rewrite Hdn. change 1 with (inject_Z 1). rewrite <- Zle_Qle. lia. }
  unfold of_int. rewrite Hd, bind_Return.
  destruct (sum_float_range l 0 0) as (s & Hs & Hs0 & Hs1);
    [lia | lia | apply Qle_refl | apply Qle_refl | exact Hl |].
  unfold sum_float. change (lit 0) with (Fin 0). rewrite Hs.
  cbn [fdiv].
  replace (Qeq_bool d 0) with false
    by (symmetry; apply not_true_is_false; intros E;
        apply Qeq_bool_iff in E; lra).
  fold n in Hs1. replace (9 * (0 + n))%Z with (9 * n)%Z in Hs1 by lia.
  rewrite inject_Z_mult in Hs1. change (inject_Z 9) with 9 in Hs1.
  destruct (RN_between_int (s / d) 9) as (avg & Havg & Ha0 & Ha1 & _).
  - lia.
  - apply Qle_shift_div_l; lra.
  - apply Qle_shift_div_r; [lra |]. change (inject_Z 9) with 9.
    rewrite Hdn. exact Hs1.
  - rewrite Havg, bind_Return. change (inject_Z 9) with 9 in Ha1.
    destruct (py_round1_between avg 0 90) as (r & Hr & Hr0 & Hr1);
      [lia | lia | change (inject_Z 0) with 0; lra
       | change (inject_Z 90) with 90; lra |].
    exists r. split; [now rewrite Hr |].
    change (round53 (inject_Z 0 / 10)) with 0 in Hr0.
    assert (E : round53 (inject_Z 90 / 10) = 9) by (vm_compute; reflexivity).
    rewrite E in Hr1. split; lra.
Qed.

Lemma business_impact_code (v : vuln_dict) (vs : list vuln_dict) :
  calculate_business_impact_score (v :: vs)
  = spec_rounded_average (take 5 (sort_reverse (map spec_impact (v :: vs)))).
Proof.
  unfold calculate_business_impact_score, spec_rounded_average.
  rewrite (map_ext _ _ impact_score_spec). reflexivity.
Qed.

Lemma take_min_length {A : Type} (l : list A) :
  take (Nat.min 5 (length l)) l = take 5 l.
Proof.
  destruct (Nat.le_gt_cases (length l) 5) as [H | H].
  - rewrite Nat.min_r by exact H. now rewrite !take_ge by lia.
  - now rewrite Nat.min_l by lia.
Qed.

Lemma business_impact_facts (vd : list vuln_dict) :
  exists r, calculate_business_impact_score vd = Return (Fin r)
    /\ 0 <= r /\ r <= 10
    /\ (vd = [] -> r = 0)
    /\ (forall top rest, vd <> [] ->
          top ++ rest ≡ₚ map spec_impact vd ->
          StronglySorted descending (top ++ rest) ->
          length top = Nat.min 5 (length vd) ->
          spec_rounded_average top = Return (Fin r)).
Proof.
  destruct vd as [| v vs].
  { exists 0. repeat split; try reflexivity; try discriminate.
    intros top rest Hne. contradiction. }
  set (vd := v :: vs).
  set (sorted := sort_reverse (map spec_impact vd)).
  assert (Hall : Forall (fin_between 0 9) (map spec_impact vd)).
  { apply Forall_forall. intros x Hx. apply list_elem_of_fmap in Hx as (y & -> & _).
    apply spec_impact_range. }
  assert (Hperm : sorted ≡ₚ map spec_impact vd) by apply sort_reverse_perm.
  assert (Hsall : Forall (fin_between 0 9) sorted) by now rewrite Hperm.
  assert (Hsorted : StronglySorted descending sorted).
  { apply sort_reverse_sorted. eapply Forall_impl; [exact Hall |].
    intros x. apply fin_between_finite. }
  assert (Hlen : length sorted = length vd).
  { rewrite (Permutation_length Hperm). apply length_map. }
  destruct (rounded_average_range (take 5 sorted)) as (r & Hr & Hr0 & Hr1).
  - intros E. apply (f_equal length) in E. rewrite length_take, Hlen in E.
    subst vd. cbn [length] in E. lia.
  - rewrite length_take. lia.
  - now apply Forall_take.
  - exists r. pose proof (business_impact_code v vs) as Hc.
    fold vd in Hc. fold sorted in Hc. rewrite Hc.
    repeat split; try assumption; try discriminate.
    intros top rest _ Hp Hs Htop.
    assert (E : top ++ rest = sorted).
    { apply descending_unique; try assumption.
      - now rewrite Hp.
      - now rewrite Hp, Hperm. }
    rewrite <- Hr. f_equal.
    rewrite <- take_min_length, Hlen, <- Htop, <- E.
    symmetry. apply take_app_length.
Qed.

(** C3: for every finding list the business-impact score is returned (the
    function never raises); it is 0.0 for the empty list and lies in [0, 10];
    for a non-empty list it is the average, rounded to one decimal, of the
    first min(5, count) of the per-finding impacts (category base impact
    times severity multiplier, with the defaults 3.0 and 0.3) put in
    descending order. *)
Theorem calculate_business_impact_score_spec (vd : list vuln_dict) :
  exists r, calculate_business_impact_score vd = Return (Fin r)
    /\ 0 <= r /\ r <= 10
    /\ (vd = [] -> r = 0)
    /\ (forall top rest, vd <> [] ->
          top ++ rest ≡ₚ map spec_impact vd ->
          StronglySorted descending (top ++ rest) ->
          length top = Nat.min 5 (length vd) ->
          spec_rounded_average top = Return (Fin r)).
Proof. exact (business_impact_facts vd). Qed.

End BusinessImpact.

(** ** Dictionaries and counting *)

Section Dictionaries.

Lemma dict_get_set {V : Type} (d : dict V) k v k' :
  dict_get (dict_set d k v) k'
  = if String.eqb k k' then Some v else dict_get d k'.
Proof.
  induction d as [| [k0 v0] d IH]; cbn [dict_set dict_get].
  - reflexivity.
  - destruct (String.eqb_spec k0 k) as [-> | Hne]; cbn [dict_get].
    + destruct (String.eqb k k'); reflexivity.
    + rewrite IH. destruct (String.eqb_spec k0 k') as [-> | Hne'];
        [| reflexivity].
      destruct (String.eqb_spec k k') as [-> | _]; [contradiction | reflexivity].
Qed.

Lemma dict_get_None {V : Type} (d : dict V) k :
  k ∉ map fst d -> dict_get d k = None.
Proof.
  induction d as [| [k0 v0] d IH]; cbn [map fst dict_get]; [reflexivity |].
  intros Hk. apply not_elem_of_cons in Hk as [Hne Hk].
  destruct (String.eqb_spec k0 k) as [-> | _]; [contradiction | now apply IH].
Qed.

Lemma dict_set_keys {V : Type} (d : dict V) k v k' :
  k' ∈ map fst (dict_set d k v) -> k' = k \/ k' ∈ map fst d.
Proof.
  induction d as [| [k0 v0] d IH]; cbn [dict_set map fst].
  - intros H. apply list_elem_of_singleton in H. now left.
  - destruct (String.eqb_spec k0 k) as [-> | Hne]; cbn [map fst].
    + intros H. now right.
    + intros H. apply elem_of_cons in H as [-> | H].
      * right. left.
      * destruct (IH H) as [-> | H']; [now left | right; now right].
Qed.

Lemma dict_set_NoDup {V : Type} (d : dict V) k v :
  NoDup (map fst d) -> NoDup (map fst (dict_set d k v)).
Proof.
  induction d as [| [k0 v0] d IH]; cbn [dict_set map fst]; intros Hnd.
  - apply NoDup_singleton.
  - apply NoDup_cons in Hnd as [Hk0 Hnd].
    destruct (String.eqb_spec k0 k) as [-> | Hne]; cbn [map fst].
    + now apply NoDup_cons.
    + apply NoDup_cons. split; [| now apply IH].
      intros Hin. apply dict_set_keys in Hin as [-> | Hin]; contradiction.
Qed.

Lemma weighted_sum_incr f d k :
  weighted_sum f (dict_set d k (get d k 0 + 1)) = weighted_sum f d + f k.
Proof.
  unfold get. induction d as [| [k0 c0] d IH];
    cbn [dict_set dict_get weighted_sum].
  - lia.
  - destruct (String.eqb_spec k0 k) as [-> | Hne]; cbn [weighted_sum].
    + lia.
    + rewrite IH. lia.
Qed.

Lemma fold_count_get (vulns : list vuln_dict) : forall (d : dict Z) k,
  dict_get
    (fold_left (fun sd vuln =>
       let severity := get vuln "severity" "low" in
       dict_set sd severity (get sd severity 0 + 1)) vulns d) k
  = if count_of k vulns =? 0 then dict_get d k
    else Some (get d k 0 + count_of k vulns).
Proof.
  unfold count_of, total_over.
  induction vulns as [| v vs IH]; intros d k; cbn [fold_left map foldr].
  - reflexivity.
  - rewrite IH. unfold get at 2 4. rewrite !dict_get_set. fold (severity_of v).
    set (c := foldr Z.add 0
                (map (fun v => if String.eqb (severity_of v) k then 1 else 0) vs)).
    assert (Hc : 0 <= c).
    { subst c. clear. induction vs as [| x xs IH]; cbn [map foldr]; [lia |].
      destruct (String.eqb _ _); lia. }
    destruct (String.eqb_spec (severity_of v) k) as [E | _].
    + rewrite E.
      replace (1 + c =? 0) with false by (symmetry; apply Z.eqb_neq; lia).
      unfold get. destruct (Z.eqb_spec c 0) as [Hz | Hnz]; f_equal; lia.
    + rewrite !Z.add_0_l. reflexivity.
Qed.

(** The distribution holds, for each severity present, its count. *)
Lemma count_severities_get vulns k :
  dict_get (count_severities vulns) k
  = if count_of k vulns =? 0 then None else Some (count_of k vulns).
Proof.
  unfold count_severities. rewrite fold_count_get. cbn [dict_get get].
  destruct (count_of k vulns =? 0); reflexivity.
Qed.

Lemma count_severities_NoDup vulns : NoDup (map fst (count_severities vulns)).
Proof.
  unfold count_severities.
  assert (G : forall d : dict Z, NoDup (map fst d) ->
    NoDup (map fst (fold_left (fun sd vuln =>
       let severity := get vuln "severity" "low" in
       dict_set sd severity (get sd severity 0 + 1)) vulns d))).
  { induction vulns as [| v vs IH]; intros d Hd; cbn [fold_left].
    - exact Hd.
    - apply IH. now apply dict_set_NoDup. }
  apply G. constructor.
Qed.

Lemma count_severities_weighted f vulns :
  weighted_sum f (count_severities vulns) = total_over f vulns.
Proof.
  unfold count_severities, total_over.
  assert (G : forall d : dict Z,
    weighted_sum f (fold_left (fun sd vuln =>
       let severity := get vuln "severity" "low" in
       dict_set sd severity (get sd severity 0 + 1)) vulns d)
    = weighted_sum f d + foldr Z.add 0 (map (fun v => f (severity_of v)) vulns)).
  { induction vulns as [| v vs IH]; intros d; cbn [fold_left map foldr].
    - lia.
    - rewrite IH, weighted_sum_incr. unfold severity_of. lia. }
  rewrite G. cbn [weighted_sum]. lia.
Qed.

Lemma total_over_perm f (l l' : list vuln_dict) :
  l ≡ₚ l' -> total_over f l = total_over f l'.
Proof.
  unfold total_over. induction 1; cbn [map foldr]; lia.
Qed.

Lemma cost_spec k : get remediation_costs k 1000 = spec_cost k.
Proof.
  unfold get, remediation_costs, spec_cost. cbn [dict_get].
  rewrite !(String.eqb_sym k).
  repeat (destruct (String.eqb _ k); [reflexivity |]). reflexivity.
Qed.

Lemma days_spec k : get timeline_days k 7 = spec_days k.
Proof.
  unfold get, timeline_days, spec_days. cbn [dict_get].
  rewrite !(String.eqb_sym k).
  repeat (destruct (String.eqb _ k); [reflexivity |]). reflexivity.
Qed.

Lemma remediation_fold (sd : dict Z) : forall costs0 t0,
  NoDup (map fst sd) ->
  exists costs,
    fold_left (fun st item =>
      let '(costs, total_cost) := st in
      let '(severity, count) := item in
      (dict_set costs severity (get remediation_costs severity 1000 * count),
       total_cost + get remediation_costs severity 1000 * count))
      sd (costs0, t0)
    = (costs, t0 + weighted_sum spec_cost sd)
    /\ forall k, dict_get costs k
                 = match dict_get sd k with
                   | Some c => Some (spec_cost k * c)
                   | None => dict_get costs0 k
                   end.
Proof.
  induction sd as [| [k0 c0] sd IH]; intros costs0 t0 Hnd;
    cbn [fold_left weighted_sum map fst].
  - exists costs0. split; [f_equal; lia | reflexivity].
  - cbn [map fst] in Hnd. apply NoDup_cons in Hnd as [Hk0 Hnd].
    destruct (IH (dict_set costs0 k0 (get remediation_costs k0 1000 * c0))
                 (t0 + get remediation_costs k0 1000 * c0) Hnd)
      as (costs & Hfold & Hget).
    exists costs. rewrite Hfold, cost_spec. split; [f_equal; lia |].
    intros k. rewrite Hget. cbn [dict_get].
    destruct (String.eqb_spec k0 k) as [<- | Hne].
    + rewrite (dict_get_None sd k0 Hk0), dict_get_set, String.eqb_refl.
      now rewrite cost_spec.
    + destruct (dict_get sd k); [reflexivity |].
      rewrite dict_get_set.
      destruct (String.eqb_spec k0 k); [contradiction | reflexivity].
Qed.

(** The cost dictionary: the per-severity costs and their total. *)
Lemma calculate_remediation_cost_get (sd : dict Z) k :
  NoDup (map fst sd) ->
  dict_get (calculate_remediation_cost sd) k
  = if String.eqb "total" k then Some (weighted_sum spec_cost sd)
    else match dict_get sd k with
         | Some c => Some (spec_cost k * c)
         | None => None
         end.
Proof.
  intros Hnd. unfold calculate_remediation_cost. cbv zeta.
  destruct (remediation_fold sd [] 0 Hnd) as (costs & Hfold & Hget).
  match goal with
  | |- context [fold_left ?f sd ?a] =>
      replace (fold_left f sd a) with (costs, 0 + weighted_sum spec_cost sd)
        by (symmetry; exact Hfold)
  end.
  rewrite dict_get_set, Z.add_0_l.
  destruct (String.eqb "total" k); [reflexivity |].
  rewrite Hget. destruct (dict_get sd k); reflexivity.
Qed.

Lemma timeline_fold (sd : dict Z) : forall t0,
  fold_left (fun total_days item =>
    let '(severity, count) := item in
    total_days + get timeline_days severity 7 * count) sd t0
  = t0 + weighted_sum spec_days sd.
Proof.
  induction sd as [| [k0 c0] sd IH]; intros t0; cbn [fold_left weighted_sum].
  - lia.
  - rewrite IH, days_spec. lia.
Qed.

Lemma estimate_timeline_spec (sd : dict Z) :
  estimate_timeline sd = spec_timeline (weighted_sum spec_days sd).
Proof.
  unfold estimate_timeline, spec_timeline. cbv zeta.
  match goal with
  | |- context [fold_left ?f sd ?a] =>
      replace (fold_left f sd a) with (0 + weighted_sum spec_days sd)
        by (symmetry; apply timeline_fold)
  end.
  rewrite Z.add_0_l. reflexivity.
Qed.

End Dictionaries.

(** ** Order independence *)

Section OrderIndependence.

Lemma sum_Z_perm (l l' : list Z) : l ≡ₚ l' -> sum_Z l = sum_Z l'.
Proof.
  intros H. rewrite !sum_Z_foldr. induction H; cbn [foldr]; lia.
Qed.

Lemma calculate_risk_score_perm (l l' : list Vulnerability) :
  l ≡ₚ l' -> calculate_risk_score l' = calculate_risk_score l.
Proof.
  intros H.
  pose (F := fun (t : Z) (n : nat) =>
    match n with
    | O => Return (lit 0)
    | S _ =>
        if 0 <? Z.of_nat n * 10 then
          q ← int_truediv t (Z.of_nat n * 10);
          ten ← of_int 10;
          mret (py_round1 (fmul q ten))
        else mret (lit 0)
    end).
  assert (E : forall vulns, calculate_risk_score vulns
    = F (sum_Z (map (fun v => get severity_weights (severity v) 0) vulns))
        (length vulns)) by (intros [| v vs]; reflexivity).
  rewrite !E. f_equal.
  - apply sum_Z_perm. now apply Permutation_map.
  - symmetry. now apply Permutation_length.
Qed.

Lemma business_impact_perm (vd vd' : list vuln_dict) :
  vd ≡ₚ vd' ->
  calculate_business_impact_score vd' = calculate_business_impact_score vd.
Proof.
  intros H. destruct vd as [| v vs], vd' as [| v' vs'].
  - reflexivity.
  - now apply Permutation_nil_cons in H.
  - symmetry in H. now apply Permutation_nil_cons in H.
  - rewrite !business_impact_code. do 2 f_equal.
    assert (Hm : map spec_impact (v :: vs) ≡ₚ map spec_impact (v' :: vs'))
      by now apply Permutation_map.
    assert (Hall : forall l : list vuln_dict,
               Forall (fin_between 0 9) (map spec_impact l)).
    { intros l. apply Forall_forall. intros x Hx.
      apply list_elem_of_fmap in Hx as (y & -> & _). apply spec_impact_range. }
    assert (Hfin : forall l : list vuln_dict,
               Forall (fun y => exists q, y = Fin q) (map spec_impact l)).
    { intros l. eapply Forall_impl; [apply Hall |]. intros x.
      apply fin_between_finite. }
    apply descending_unique.
    + rewrite sort_reverse_perm. apply Hall.
    + apply sort_reverse_sorted, Hfin.
    + apply sort_reverse_sorted, Hfin.
    + now rewrite !sort_reverse_perm.
Qed.

Lemma count_severities_perm (vd vd' : list vuln_dict) :
  vd ≡ₚ vd' -> dict_eq (count_severities vd') (count_severities vd).
Proof.
  intros H k. rewrite !count_severities_get.
  unfold count_of. now rewrite (total_over_perm _ vd vd' H).
Qed.

Lemma remediation_cost_perm (vd vd' : list vuln_dict) :
  vd ≡ₚ vd' ->
  dict_eq (calculate_remediation_cost (count_severities vd'))
          (calculate_remediation_cost (count_severities vd)).
Proof.
  intros H k.
  rewrite !calculate_remediation_cost_get by apply count_severities_NoDup.
  rewrite !count_severities_weighted, (total_over_perm _ vd vd' H).
  now rewrite (count_severities_perm vd vd' H k).
Qed.

Lemma estimate_timeline_perm (vd vd' : list vuln_dict) :
  vd ≡ₚ vd' ->
  estimate_timeline (count_severities vd') = estimate_timeline (count_severities vd).
Proof.
  intros H. rewrite !estimate_timeline_spec, !count_severities_weighted.
  now rewrite (total_over_perm _ vd vd' H).
Qed.

(** C9: the risk score of a permuted finding list is the risk score of the
    list; and the risk assessment computed from a permuted list agrees with
    the one computed from the list: the same count, severity distribution,
    adjusted risk score, business-impact score, remediation costs and
    timeline (dictionaries being equal when they hold the same items). *)
Theorem scoring_order_independent :
  (forall l l' : list Vulnerability,
     l ≡ₚ l' -> calculate_risk_score l' = calculate_risk_score l)
  /\ (forall (vd vd' : list vuln_dict) (base : option float) (industry : string),
        vd ≡ₚ vd' ->
        py_rel metrics_eq
          (generate_risk_assessment
             {| ad_vulnerabilities := Some vd'; ad_risk_score := base |} industry)
          (generate_risk_assessment
             {| ad_vulnerabilities := Some vd; ad_risk_score := base |} industry)).
Proof.
  split; [exact calculate_risk_score_perm |].
  intros vd vd' base industry H.
  unfold generate_risk_assessment.
  cbn [ad_vulnerabilities ad_risk_score from_option id].
  rewrite (business_impact_perm vd vd' H), (estimate_timeline_perm vd vd' H).
  destruct (calculate_business_impact_score vd) as [bi | e];
    [| reflexivity].
  rewrite !bind_Return.
  destruct (estimate_timeline (count_severities vd)) as [tl | e];
    [| reflexivity].
  rewrite !bind_Return. unfold mret, py_ret. cbn [py_rel].
  unfold metrics_eq.
  cbn [vulnerability_count severity_distribution rm_risk_score
       business_impact_score remediation_cost timeline_months].
  repeat split.
  - f_equal. symmetry. now apply Permutation_length.
  - now apply count_severities_perm.
  - now apply remediation_cost_perm.
Qed.

End OrderIndependence.

(** ** The risk assessment *)

Section RiskAssessment.
Local Open Scope Q_scope.

Lemma industry_factor_spec industry :
  get industry_factors (str_lower industry) (lit 1)
  = spec_industry_multiplier industry.
Proof.
  unfold get, industry_factors, spec_industry_multiplier, eq_nocase.
  cbn [dict_get].
  change (str_lower "fintech") with "fintech"%string.
  change (str_lower "healthcare") with "healthcare"%string.
  change (str_lower "ecommerce") with "ecommerce"%string.
  change (str_lower "enterprise") with "enterprise"%string.
  change (str_lower "consumer") with "consumer"%string.
  rewrite !(String.eqb_sym (str_lower industry)).
  repeat (destruct (String.eqb _ (str_lower industry)); [reflexivity |]).
  reflexivity.
Qed.

Lemma industry_multiplier_range industry :
  exists m, spec_industry_multiplier industry = Fin m /\ 1 <= m /\ m <= 2.
Proof.
  unfold spec_industry_multiplier.
  repeat (destruct (eq_nocase industry _);
          [eexists; split; [vm_compute; reflexivity | split; discriminate] |]).
  eexists; split; [vm_compute; reflexivity | split; discriminate].
Qed.

Lemma spec_days_bounds s : (0 <= spec_days s <= 30)%Z.
Proof.
  unfold spec_days. repeat (destruct (String.eqb s _); [lia |]). lia.
Qed.

Lemma total_days_bounds (vd : list vuln_dict) :
  (0 <= total_over spec_days vd <= 30 * Z.of_nat (length vd))%Z.
Proof.
  unfold total_over. induction vd as [| v vs IH]; cbn [map foldr length].
  - lia.
  - pose proof (spec_days_bounds (severity_of v)). lia.
Qed.

(** The timeline is computed without overflow for any realistic number of
    days. *)
Lemma spec_timeline_returns (t : Z) :
  (0 <= t <= 2 ^ 70)%Z -> exists r, spec_timeline t = Return (Fin r) /\ 0 <= r.
Proof.
  intros Ht. unfold spec_timeline, int_truediv.
  replace (2 =? 0)%Z with false by reflexivity.
  assert (Hb : forall k : Z, (k = 70 \/ k = 72)%Z ->
                 round53 (inject_Z (2 ^ k)) < 2 ^ 1024).
  { intros k [-> | ->]; vm_compute; reflexivity. }
  assert (Ht0 : 0 <= inject_Z t)
    by (change 0 with (inject_Z 0); rewrite <- Zle_Qle; lia).
  assert (Ht1 : inject_Z t <= inject_Z (2 ^ 70)) by (rewrite <- Zle_Qle; lia).
  destruct (RN_between (inject_Z t / inject_Z 2) 0 (inject_Z (2 ^ 70)))
    as (h & Hh & Hh0 & Hh1).
  - apply Qle_refl.
  - apply Qle_shift_div_l; [reflexivity | lra].
  - apply Qle_shift_div_r; [reflexivity |].
    change (inject_Z 2) with 2. lra.
  - apply Hb. now left.
  - rewrite Hh, bind_Return, of_int_30, bind_Return.
    change (round53 0) with 0 in Hh0.
    assert (E70 : round53 (inject_Z (2 ^ 70)) = inject_Z (2 ^ 70))
      by (vm_compute; reflexivity).
    rewrite E70 in Hh1.
    assert (Hc : exists c, lit (12 # 10) = Fin c /\ 0 <= c /\ c <= 2)
      by (eexists; split; [vm_compute; reflexivity | split; discriminate]).
    destruct Hc as (c & -> & Hc0 & Hc1). cbn [fmul].
    assert (E72 : round53 (inject_Z (2 ^ 72)) = inject_Z (2 ^ 72))
      by (vm_compute; reflexivity).
    assert (H7072 : inject_Z (2 ^ 70) * 2 <= inject_Z (2 ^ 72))
      by (vm_compute; discriminate).
    destruct (RN_between (h * c) 0 (inject_Z (2 ^ 72)))
      as (p & Hp & Hp0 & Hp1).
    + apply Qle_refl.
    + now apply Qmult_le_0_compat.
    + apply Qle_trans with (inject_Z (2 ^ 70) * 2); [| exact H7072].
      apply Qle_trans with (2 * h).
      * rewrite (Qmult_comm h c). now apply Qmult_le_compat_r.
      * rewrite Qmult_comm. apply Qmult_le_compat_r; [exact Hh1 | discriminate].
    + apply Hb. now right.
    + rewrite Hp. cbn [fdiv].
      replace (Qeq_bool 30 0) with false by reflexivity.
      change (round53 0) with 0 in Hp0. rewrite E72 in Hp1.
      destruct (RN_between (p / 30) 0 (inject_Z (2 ^ 72)))
        as (m & Hm & Hm0 & Hm1).
      * apply Qle_refl.
      * apply Qle_shift_div_l; [reflexivity | lra].
      * apply Qle_shift_div_r; [reflexivity |].
        lra.
      * apply Hb. now right.
      * rewrite Hm, bind_Return. change (round53 0) with 0 in Hm0.
        rewrite E72 in Hm1.
        destruct (py_round1_below m (10 * 2 ^ 72)) as (r & Hr & Hr0 & _).
        -- exact Hm0.
        -- rewrite inject_Z_mult. change (inject_Z 10) with 10. lra.
        -- vm_compute. reflexivity.
        -- exists r. split; [now rewrite Hr | exact Hr0].
Qed.

Lemma estimate_timeline_returns (vd : list vuln_dict) :
  list_size_ok vd ->
  exists tl, estimate_timeline (count_severities vd) = Return (Fin tl) /\ 0 <= tl.
Proof.
  intros Hsize. rewrite estimate_timeline_spec, count_severities_weighted.
  apply spec_timeline_returns.
  pose proof (total_days_bounds vd). unfold list_size_ok in Hsize. lia.
Qed.

(** The risk assessment returns for every list of realistic size. *)
Lemma generate_risk_assessment_returns (ad : AuditData) (industry : string) :
  let vulns := default [] (ad_vulnerabilities ad) in
  list_size_ok vulns ->
  exists bi tl,
    calculate_business_impact_score vulns = Return (Fin bi)
    /\ estimate_timeline (count_severities vulns) = Return (Fin tl)
    /\ generate_risk_assessment ad industry
       = Return {| vulnerability_count := Z.of_nat (length vulns);
                   severity_distribution := count_severities vulns;
                   rm_risk_score :=
                     py_min (lit 10)
                       (fmul (default (lit 0) (ad_risk_score ad))
                             (spec_industry_multiplier industry));
                   business_impact_score := Fin bi;
                   remediation_cost :=
                     calculate_remediation_cost (count_severities vulns);
                   timeline_months := Fin tl |}.
Proof.
  intros vulns Hsize.
  destruct (business_impact_facts vulns) as (bi & Hbi & _).
  destruct (estimate_timeline_returns vulns Hsize) as (tl & Htl & _).
  exists bi, tl. repeat split; try assumption.
  unfold generate_risk_assessment. fold vulns.
  rewrite Hbi, bind_Return, Htl, bind_Return, industry_factor_spec.
  reflexivity.
Qed.

Lemma eq_nocase_lower a b : eq_nocase a b = true -> str_lower a = str_lower b.
Proof. unfold eq_nocase. apply String.eqb_eq. Qed.

Lemma generate_risk_assessment_nocase (ad : AuditData) (i1 i2 : string) :
  eq_nocase i1 i2 = true ->
  generate_risk_assessment ad i1 = generate_risk_assessment ad i2.
Proof.
  intros H. unfold generate_risk_assessment.
  now rewrite (eq_nocase_lower _ _ H).
Qed.

(** C4: for every base risk score in [0, 10] and every industry string the
    risk assessment returns, and its adjusted risk score is
    min(10.0, base * multiplier), the multiplier being that of the industry
    compared without regard to case (fintech 1.8, healthcare 1.7, ecommerce
    1.4, enterprise 1.2, consumer 1.0, otherwise 1.0); the adjusted score is
    a finite number between 0 and 10, and an industry name that differs only
    in the case of its letters gives the same assessment. *)
Theorem adjusted_risk_score_spec (ad : AuditData) (b : Q) (industry : string) :
  ad_risk_score ad = Some (Fin b) -> 0 <= b -> b <= 10 ->
  list_size_ok (default [] (ad_vulnerabilities ad)) ->
  exists rm a,
    generate_risk_assessment ad industry = Return rm
    /\ rm_risk_score rm
       = py_min (lit 10) (fmul (Fin b) (spec_industry_multiplier industry))
    /\ rm_risk_score rm = Fin a /\ 0 <= a /\ a <= 10
    /\ (forall industry', eq_nocase industry' industry = true ->
          generate_risk_assessment ad industry' = Return rm).
Proof.
  intros Hbase Hb0 Hb1 Hsize.
  destruct (generate_risk_assessment_returns ad industry Hsize)
    as (bi & tl & _ & _ & Hgen).
  rewrite Hbase in Hgen. cbn [from_option id] in Hgen.
  destruct (industry_multiplier_range industry) as (m & Hm & Hm0 & Hm1).
  assert (Hprod : exists x, fmul (Fin b) (spec_industry_multiplier industry) = Fin x
                            /\ 0 <= x).
  { rewrite Hm. cbn [fmul].
    destruct (RN_between (b * m) 0 20) as (x & Hx & Hx0 & _);
      [apply Qle_refl | apply Qmult_le_0_compat; lra | | reflexivity |].
    - apply Qle_trans with (10 * m).
      + apply Qmult_le_compat_r; lra.
      + lra.
    - exists x. split; [exact Hx | exact Hx0]. }
  destruct Hprod as (x & Hx & Hx0).
  assert (Hadj : exists a, py_min (lit 10) (Fin x) = Fin a /\ 0 <= a /\ a <= 10).
  { change (lit 10) with (Fin 10). unfold py_min.
    destruct (flt (Fin x) (Fin 10)) eqn:E.
    - apply flt_Fin in E. exists x. repeat split; lra.
    - exists 10. repeat split; discriminate. }
  destruct Hadj as (a & Ha & Ha0 & Ha1).
  eexists. exists a. split; [exact Hgen |].
  cbn [rm_risk_score].
  split; [reflexivity |]. split; [rewrite Hx; exact Ha |].
  split; [exact Ha0 |]. split; [exact Ha1 |].
  intros industry' Hcase.
  rewrite (generate_risk_assessment_nocase ad _ _ Hcase). exact Hgen.
Qed.

End RiskAssessment.

(** ** The executive summary *)

Section ExecutiveSummary.
Local Open Scope Q_scope.

Lemma fmul_bounded a b A B (M : Z) :
  0 <= a -> a <= A -> 0 <= b -> b <= B -> A * B <= inject_Z M ->
  (0 <= M < 2 ^ 53)%Z ->
  exists r, fmul (Fin a) (Fin b) = Fin r /\ 0 <= r /\ r <= inject_Z M.
Proof.
  intros Ha0 Ha1 Hb0 Hb1 HM HM53. cbn [fmul].
  destruct (RN_between_int (a * b) M HM53) as (r & Hr & Hr0 & Hr1 & _).
  - now apply Qmult_le_0_compat.
  - apply Qle_trans with (A * B); [| exact HM].
    apply Qle_trans with (A * b).
    + apply Qmult_le_compat_r; assumption.
    + rewrite (Qmult_comm A b), (Qmult_comm A B).
      apply Qmult_le_compat_r; [assumption | lra].
  - exists r. auto.
Qed.

Lemma of_int_10000 : of_int 10000 = Return (Fin 10000).
Proof. vm_compute. reflexivity. Qed.

Lemma calculate_financial_exposure_returns s i :
  0 <= s -> s <= 10 -> 0 <= i -> i <= 10 ->
  exists fe, calculate_financial_exposure (Fin s) (Fin i) = Return fe.
Proof.
  intros Hs0 Hs1 Hi0 Hi1. unfold calculate_financial_exposure.
  rewrite of_int_10000, bind_Return.
  destruct (fmul_bounded s i 10 10 100) as (x & -> & Hx0 & Hx1);
    try assumption; [discriminate | lia |].
  destruct (fmul_bounded x 10000 100 10000 1000000) as (y & -> & Hy0 & Hy1);
    try assumption; try discriminate; [lia |].
  assert (Hc : forall k, k = 5 # 10 \/ k = 35 # 10 \/ k = 12 # 10 ->
                 exists c, lit k = Fin c /\ 0 <= c /\ c <= 4).
  { intros k [-> | [-> | ->]]; eexists;
      (split; [vm_compute; reflexivity | split; discriminate]). }
  destruct (Hc (5 # 10)) as (c1 & -> & ? & ?); [auto |].
  destruct (Hc (35 # 10)) as (c2 & -> & ? & ?); [auto |].
  destruct (Hc (12 # 10)) as (c3 & -> & ? & ?); [auto |].
  destruct (fmul_bounded y c1 1000000 4 4000000) as (z1 & -> & _);
    try assumption; try discriminate; [lia |].
  destruct (fmul_bounded y c2 1000000 4 4000000) as (z2 & -> & _);
    try assumption; try discriminate; [lia |].
  destruct (fmul_bounded y c3 1000000 4 4000000) as (z3 & -> & _);
    try assumption; try discriminate; [lia |].
  cbn [py_round]. rewrite !bind_Return. eexists. reflexivity.
Qed.

Lemma risk_level_of_chain score :
  fst (risk_level_of score)
  = if fge score (lit 8) then "CRITICAL"%string
    else if fge score (lit 6) then "HIGH"%string
    else if fge score (lit 4) then "MEDIUM"%string
    else "LOW"%string.
Proof.
  unfold risk_level_of.
  destruct (fge score (lit 8)); [reflexivity |].
  destruct (fge score (lit 6)); [reflexivity |].
  destruct (fge score (lit 4)); reflexivity.
Qed.

(** C5: the risk level of the executive summary is that of the thresholds
    checked highest first: at least 8.0 CRITICAL, else at least 6.0 HIGH,
    else at least 4.0 MEDIUM, else LOW (a score that is not a number compares
    false and so is LOW); the six boundary values; and the summary is
    returned whenever both scores lie in [0, 10] and the costs hold their
    total. *)
Theorem risk_level_thresholds :
  (forall rm es,
     generate_executive_summary rm = Return es ->
     risk_level es
     = if fge (rm_risk_score rm) (lit 8) then "CRITICAL"%string
       else if fge (rm_risk_score rm) (lit 6) then "HIGH"%string
       else if fge (rm_risk_score rm) (lit 4) then "MEDIUM"%string
       else "LOW"%string)
  /\ (forall q, fst (risk_level_of (Fin q))
                = if Qle_bool 8 q then "CRITICAL"%string
                  else if Qle_bool 6 q then "HIGH"%string
                  else if Qle_bool 4 q then "MEDIUM"%string
                  else "LOW"%string)
  /\ fst (risk_level_of (lit 8)) = "CRITICAL"%string
  /\ fst (risk_level_of (lit (799 # 100))) = "HIGH"%string
  /\ fst (risk_level_of (lit 6)) = "HIGH"%string
  /\ fst (risk_level_of (lit (599 # 100))) = "MEDIUM"%string
  /\ fst (risk_level_of (lit 4)) = "MEDIUM"%string
  /\ fst (risk_level_of (lit (399 # 100))) = "LOW"%string
  /\ (forall rm s i t,
        rm_risk_score rm = Fin s -> 0 <= s -> s <= 10 ->
        business_impact_score rm = Fin i -> 0 <= i -> i <= 10 ->
        dict_get (remediation_cost rm) "total" = Some t ->
        exists es, generate_executive_summary rm = Return es).
Proof.
  split; [| split; [| do 6 (split; [vm_compute; reflexivity |])]].
  - intros rm es. unfold generate_executive_summary.
    rewrite <- risk_level_of_chain.
    destruct (risk_level_of (rm_risk_score rm)) as [level advice].
    destruct (calculate_financial_exposure _ _) as [fe | e]; [| discriminate].
    rewrite bind_Return.
    destruct (getitem _ _) as [total | e]; [| discriminate].
    rewrite bind_Return. intros [= <-]. reflexivity.
  - intros q. apply risk_level_of_chain.
  - intros rm s i t Hs Hs0 Hs1 Hi Hi0 Hi1 Ht.
    unfold generate_executive_summary. rewrite Hs, Hi.
    destruct (risk_level_of (Fin s)) as [level advice].
    destruct (calculate_financial_exposure_returns s i) as (fe & ->);
      try assumption.
    rewrite bind_Return. unfold getitem. rewrite Ht, bind_Return.
    eexists. reflexivity.
Qed.

End ExecutiveSummary.

(** ** Scenario C *)

Section ScenarioC.

Lemma total_over_map f (vd : list vuln_dict) :
  total_over f vd = foldr Z.add 0 (map f (map severity_of vd)).
Proof. unfold total_over. now rewrite map_map. Qed.

Lemma foldr_add_perm (f : string -> Z) (l l' : list string) :
  l ≡ₚ l' -> foldr Z.add 0 (map f l) = foldr Z.add 0 (map f l').
Proof. induction 1; cbn [map foldr]; lia. Qed.

(** C6: for findings whose severities are, in any order, one critical, two
    high and one medium, and the industry fintech, the risk assessment
    returns; the severity distribution is critical 1, high 2, medium 1; the
    total remediation cost is 15000 + 16000 + 3000 = 34000; and the timeline
    is round(((30 + 28 + 7) / 2) * 1.2 / 30, 1), which is 1.3 months. *)
Theorem scenario_C (vd : list vuln_dict) (base : option float) :
  map severity_of vd ≡ₚ ["critical"; "high"; "high"; "medium"]%string ->
  exists rm,
    generate_risk_assessment
      {| ad_vulnerabilities := Some vd; ad_risk_score := base |} "fintech"
    = Return rm
    /\ dict_eq (severity_distribution rm)
               [("critical", 1); ("high", 2); ("medium", 1)]%string
    /\ dict_get (remediation_cost rm) "total" = Some (15000 + 16000 + 3000)
    /\ 15000 + 16000 + 3000 = 34000
    /\ Return (timeline_months rm) = spec_timeline (30 + 28 + 7)
    /\ timeline_months rm = lit (13 # 10).
Proof.
  intros Hperm.
  assert (Hlen : length vd = 4%nat).
  { rewrite <- (length_map severity_of), (Permutation_length Hperm).
    reflexivity. }
  assert (Htot : forall f, total_over f vd
                 = f "critical"%string + (f "high"%string
                    + (f "high"%string + (f "medium"%string + 0)))).
  { intros f. rewrite total_over_map, (foldr_add_perm f _ _ Hperm).
    reflexivity. }
  destruct (generate_risk_assessment_returns
              {| ad_vulnerabilities := Some vd; ad_risk_score := base |}
              "fintech") as (bi & tl & _ & Htl & Hgen).
  { cbn [ad_vulnerabilities from_option id]. unfold list_size_ok.
    rewrite Hlen. reflexivity. }
  cbn [ad_vulnerabilities from_option id] in Htl, Hgen.
  eexists. split; [exact Hgen |].
  cbn [severity_distribution remediation_cost timeline_months].
  rewrite estimate_timeline_spec, count_severities_weighted, Htot in Htl.
  split; [| split; [| split; [reflexivity | split]]].
  - intros k. rewrite count_severities_get. unfold count_of. rewrite Htot.
    cbn [dict_get]. rewrite !(String.eqb_sym _ k).
    destruct (String.eqb_spec k "critical") as [-> | _]; [reflexivity |].
    destruct (String.eqb_spec k "high") as [-> | _]; [reflexivity |].
    destruct (String.eqb_spec k "medium") as [-> | _]; reflexivity.
  - rewrite calculate_remediation_cost_get by apply count_severities_NoDup.
    rewrite String.eqb_refl, count_severities_weighted, Htot. reflexivity.
  - rewrite <- Htl. reflexivity.
  - assert (E : spec_timeline (spec_days "critical" + (spec_days "high"
                  + (spec_days "high" + (spec_days "medium" + 0))))
                = Return (lit (13 # 10))) by (vm_compute; reflexivity).
    rewrite E in Htl. now apply Return_inj.
Qed.

End ScenarioC.

(** ** The file walker *)

Section Walker.

Local Open Scope string_scope.

Lemma node_ind' (P : node -> Prop) :
  (forall data, P (File data)) ->
  (forall es, Forall (fun e => P (snd e)) es -> P (Dir es)) ->
  forall n, P n.
Proof.
  intros HF HD. fix IH 1. intros [data | es].
  - apply HF.
  - apply HD. induction es as [| [name child] es IHes]; constructor.
    + apply IH.
    + exact IHes.
Qed.

Lemma append_cons (c : ascii) (s t : string) :
  String c s ++ t = String c (s ++ t).
Proof. reflexivity. Qed.

Lemma append_empty_r (s : string) : s ++ "" = s.
Proof.
  induction s as [| c s IH]; [reflexivity | now rewrite append_cons, IH].
Qed.

Lemma append_assoc (a b c : string) : (a ++ b) ++ c = a ++ (b ++ c).
Proof.
  induction a as [| x a IH]; [reflexivity | now rewrite !append_cons, IH].
Qed.

Lemma concat_app_prefix (a b : list string) :
  a <> [] ->
  exists s, String.concat "/" (a ++ b)%list = String.concat "/" a ++ s.
Proof.
  induction a as [| x a IH]; [contradiction |]. intros _.
  destruct a as [| y a].
  - destruct b as [| z b].
    + exists "". cbn [app String.concat]. now rewrite append_empty_r.
    + exists ("/" ++ String.concat "/" (z :: b)). reflexivity.
  - destruct IH as [s Hs]; [discriminate |].
    exists s. change (String.concat "/" ((x :: y :: a) ++ b)%list)
      with (x ++ "/" ++ String.concat "/" ((y :: a) ++ b)%list).
    rewrite Hs.
    change (String.concat "/" (x :: y :: a))
      with (x ++ "/" ++ String.concat "/" (y :: a)).
    now rewrite !append_assoc.
Qed.

Lemma path_str_app_prefix (root rel : Path) :
  root <> [] -> exists s, path_str (root ++ rel)%list = path_str root ++ s.
Proof.
  destruct root as [| r rest]; [contradiction |]. intros _.
  cbn [app path_str]. destruct (is_root r).
  - destruct rest as [| x rest].
    + exists (String.concat "/" rel). cbn [app String.concat].
      now rewrite append_empty_r.
    + destruct (concat_app_prefix (x :: rest) rel) as [s Hs]; [discriminate |].
      exists s. rewrite Hs. now rewrite append_assoc.
  - apply (concat_app_prefix (r :: rest) rel). discriminate.
Qed.

Lemma is_prefix_app (p s t : string) :
  is_prefix p s = true -> is_prefix p (s ++ t) = true.
Proof.
  revert s. induction p as [| a p IH]; intros s; [reflexivity |].
  destruct s as [| b s]; [discriminate |].
  rewrite append_cons. cbn [is_prefix].
  intros H. apply andb_true_iff in H as [H1 H2].
  now rewrite H1, (IH s H2).
Qed.

Lemma str_contains_app (p s t : string) :
  str_contains p s = true -> str_contains p (s ++ t) = true.
Proof.
  induction s as [| b s IH].
  - cbn [str_contains]. rewrite orb_false_r. intros H.
    destruct p; [| discriminate]. destruct t; reflexivity.
  - rewrite append_cons. cbn [str_contains].
    intros H. apply orb_true_iff in H as [H | H].
    + pose proof (is_prefix_app p (String b s) t H) as Hp.
      rewrite append_cons in Hp. now rewrite Hp.
    + rewrite (IH H). apply orb_true_r.
Qed.

(** A path below a root that is skipped is skipped as well: the tokens are
    looked for in the whole path string, which starts with that of the root. *)
Lemma should_skip_below (root rel : Path) :
  _should_skip_file root = true -> _should_skip_file (root ++ rel)%list = true.
Proof.
  destruct root as [| r rest]; [discriminate |].
  destruct (path_str_app_prefix (r :: rest) rel) as [s Hs]; [discriminate |].
  unfold _should_skip_file. rewrite Hs.
  rewrite !existsb_exists. intros (tok & Hin & Htok).
  exists tok. split; [exact Hin | now apply str_contains_app].
Qed.

Lemma iterate_directories_prefix (n : node) : forall p,
  Forall (fun d => exists rel, fst d = (p ++ rel)%list) (iterate_directories p n).
Proof.
  induction n as [data | es IH] using node_ind'; intros p;
    cbn [iterate_directories]; [constructor |].
  constructor; [exists []; cbn [fst]; now rewrite app_nil_r |].
  apply Forall_forall. intros d Hd. apply list_elem_of_In, in_flat_map in Hd.
  destruct Hd as ([name child] & Hin & Hd).
  rewrite Forall_forall in IH.
  specialize (IH (name, child) (proj2 (list_elem_of_In _ _) Hin) (joinpath p name)).
  rewrite Forall_forall in IH. cbn [snd] in IH.
  destruct (IH d (proj2 (list_elem_of_In _ _) Hd)) as [rel Hrel].
  exists ([name] ++ rel)%list. rewrite Hrel. unfold joinpath.
  now rewrite <- app_assoc.
Qed.

Lemma rglob_prefix (root : Path) (tree : node) :
  Forall (fun e => exists rel, fst e = (root ++ rel)%list) (rglob root tree).
Proof.
  unfold rglob. apply Forall_forall. intros e He.
  apply list_elem_of_In, in_flat_map in He. destruct He as ([dir es] & Hd & He).
  pose proof (iterate_directories_prefix tree root) as Hp.
  rewrite Forall_forall in Hp.
  destruct (Hp _ (proj2 (list_elem_of_In _ _) Hd)) as [rel Hrel].
  cbn [fst] in Hrel. apply in_map_iff in He as ([name child] & <- & _).
  exists (rel ++ [name])%list. cbn [fst]. unfold joinpath.
  now rewrite Hrel, <- app_assoc.
Qed.

Lemma scan_entries_all_skipped self tree entries n h :
  Forall (fun e => _should_skip_file (fst e) = true) entries ->
  scan_entries self tree entries n h = (n, h).
Proof.
  unfold scan_entries. induction 1 as [| [path nd] entries Hskip _ IH];
    cbn [fold_left]; [reflexivity |].
  cbn [fst] in Hskip. rewrite Hskip, andb_false_r. exact IH.
Qed.

End Walker.

(** ** Reading files *)

Section Reading.

Lemma on_error_ignore (k : py text) : on_error ignore k = k.
Proof. reflexivity. Qed.

Lemma emit_Return c t : emit c (Return t) = Return (Z.of_N c :: t).
Proof. reflexivity. Qed.

(** With [errors='ignore'] the decoder returns for every byte sequence. *)
Lemma utf8_decode_ignore_total (bs : list Byte.byte) :
  exists t, utf8_decode ignore bs = Return t.
Proof.
  remember (length bs) as n eqn:Hn.
  revert bs Hn. induction n as [n IH] using lt_wf_ind. intros bs Hn.
  assert (Hrec : forall bs', (length bs' < length bs)%nat ->
                   exists t, utf8_decode ignore bs' = Return t).
  { intros bs' Hlt. apply (IH (length bs')); [lia | reflexivity]. }
  clear IH Hn.
  destruct bs as [| b0 r0]; [exists []; reflexivity |].
  assert (H0 : exists t, utf8_decode ignore r0 = Return t)
    by (apply Hrec; cbn [length]; lia).
  assert (H1 : forall b1 r1, r0 = b1 :: r1 ->
                 exists t, utf8_decode ignore r1 = Return t).
  { intros b1 r1 ->. apply Hrec. cbn [length]. lia. }
  assert (H2 : forall b1 b2 r2, r0 = b1 :: b2 :: r2 ->
                 exists t, utf8_decode ignore r2 = Return t).
  { intros b1 b2 r2 ->. apply Hrec. cbn [length]. lia. }
  assert (H3 : forall b1 b2 b3 r3, r0 = b1 :: b2 :: b3 :: r3 ->
                 exists t, utf8_decode ignore r3 = Return t).
  { intros b1 b2 b3 r3 ->. apply Hrec. cbn [length]. lia. }
  clear Hrec. destruct H0 as [t0 E0].
  cbn [utf8_decode]. cbv zeta. rewrite !on_error_ignore, E0.
  destruct (_ <? 128)%N; [rewrite emit_Return; eauto |].
  destruct (_ <? 194)%N; [eauto |].
  destruct r0 as [| b1 r1].
  { repeat (destruct (_ <? _)%N; [exists []; reflexivity |]). eauto. }
  destruct (H1 b1 r1 eq_refl) as [t1 E1].
  destruct (_ <? 224)%N.
  { destruct (negb _); [eauto |]. rewrite E1, emit_Return. eauto. }
  destruct r1 as [| b2 r2].
  { repeat (destruct (_ <? 240)%N || destruct (_ <? 245)%N ||
            destruct (negb _ || _)); eauto; exists []; reflexivity. }
  destruct (H2 b1 b2 r2 eq_refl) as [t2 E2].
  destruct (_ <? 240)%N.
  { destruct (negb _ || _); [eauto |].
    destruct (negb _); [rewrite on_error_ignore, E1; eauto |].
    rewrite E2, emit_Return. eauto. }
  destruct (_ <? 245)%N; [| eauto].
  destruct (negb _ || _); [eauto |].
  destruct (negb (is_continuation (Byte.to_N b2)));
    [rewrite on_error_ignore, E1; eauto |].
  destruct r2 as [| b3 r3]; [exists []; reflexivity |].
  destruct (H3 b1 b2 b3 r3 eq_refl) as [t3 E3].
  destruct (negb _); [rewrite on_error_ignore, E2; eauto |].
  rewrite E3, emit_Return. eauto.
Qed.

(** An invalid start byte is dropped by [ignore] and replaced by U+FFFD by
    [replace]. *)
Lemma utf8_decode_invalid_start (errors : errors_mode) b bs :
  invalid_start b ->
  utf8_decode errors (b :: bs) = on_error errors (utf8_decode errors bs).
Proof.
  intros Hb. cbn [utf8_decode]. cbv zeta. unfold invalid_start in Hb.
  destruct (N.ltb_spec (Byte.to_N b) 128); [lia |].
  destruct (N.ltb_spec (Byte.to_N b) 194); [reflexivity |].
  destruct (N.ltb_spec (Byte.to_N b) 224); [lia |].
  destruct (N.ltb_spec (Byte.to_N b) 240); [lia |].
  destruct (N.ltb_spec (Byte.to_N b) 245); [lia | reflexivity].
Qed.

(** An ASCII byte is decoded to itself. *)
Lemma utf8_decode_ascii (errors : errors_mode) b bs :
  (Byte.to_N b < 128)%N ->
  utf8_decode errors (b :: bs) = emit (Byte.to_N b) (utf8_decode errors bs).
Proof.
  intros Hb. cbn [utf8_decode]. cbv zeta.
  destruct (N.ltb_spec (Byte.to_N b) 128); [reflexivity | lia].
Qed.

(** What [open] or [read] raises for a file is raised by [read_text]. *)
Lemma read_text_failure root tree path rel e errors :
  relative_to path root = Return rel ->
  descend tree rel = Return (File (Raise e)) ->
  read_text root tree path errors = Raise e.
Proof. intros H1 H2. unfold read_text. now rewrite H1, H2. Qed.

(** A file that cannot be read yields no finding, and no exception. *)
Lemma scan_file_unreadable self tree path e :
  read_text (target_path self) tree path ignore = Raise e ->
  scan_file self tree path = [].
Proof. intros H. unfold scan_file. now rewrite H. Qed.

Lemma deref_extend (h : heap) (l : loc) items :
  (l < length h)%nat -> deref (extend h l items) l = deref h l ++ items.
Proof.
  intros Hl. unfold extend, deref.
  now rewrite list_lookup_insert_eq by exact Hl.
Qed.

Lemma deref_extend_other (h : heap) (l l' : loc) items :
  l <> l' -> deref (extend h l items) l' = deref h l'.
Proof.
  intros Hl. unfold extend, deref.
  now rewrite list_lookup_insert_ne by exact Hl.
Qed.

Lemma length_extend (h : heap) (l : loc) items :
  length (extend h l items) = length h.
Proof. unfold extend. apply length_insert. Qed.

(** The walk: every eligible entry is scanned, in order, and what is found
    is appended to the auditor's list; nothing else changes. *)
Lemma scan_entries_spec self tree entries : forall n h,
  (self_vulnerabilities self < length h)%nat ->
  let scanned := List.filter (eligible self) entries in
  exists h',
    scan_entries self tree entries n h
    = (n + Z.of_nat (length scanned), h')
    /\ length h' = length h
    /\ deref h' (self_vulnerabilities self)
       = deref h (self_vulnerabilities self)
         ++ flat_map (fun e => scan_file self tree (fst e)) scanned
    /\ forall l', l' <> self_vulnerabilities self -> deref h' l' = deref h l'.
Proof.
  unfold scan_entries.
  induction entries as [| [path nd] entries IH]; intros n h Hl;
    cbn [fold_left List.filter].
  - exists h. cbn [length flat_map]. rewrite Z.add_0_r, app_nil_r. auto.
  - destruct (eligible self (path, nd)) eqn:E;
      unfold eligible in E; cbn [fst snd] in E; rewrite E.
    + destruct (IH (n + 1) (extend h (self_vulnerabilities self)
                               (scan_file self tree path)))
        as (h' & Hscan & Hlen & Hd & Ho).
      { now rewrite length_extend. }
      exists h'. rewrite Hscan. cbn [length flat_map].
      rewrite Hlen, length_extend, Hd, deref_extend by exact Hl.
      repeat split; [f_equal; lia | now rewrite <- app_assoc |].
      intros l' Hl'. rewrite (Ho l' Hl'). now apply deref_extend_other.
    + apply IH. exact Hl.
Qed.

End Reading.

(** ** The scan of a directory *)

Section ScanDirectory.

Lemma calculate_risk_score_returns (vulns : list Vulnerability) :
  exists s, calculate_risk_score vulns = Return s.
Proof. destruct (risk_score_facts vulns) as (r & H & _). eauto. Qed.

(** [scan_directory] returns; it scans the eligible entries in walk order and
    appends their findings to the auditor's list, which the result names. *)
Lemma scan_directory_spec self tree t0 t1 (h : heap) :
  (self_vulnerabilities self < length h)%nat ->
  let scanned := List.filter (eligible self) (rglob (target_path self) tree) in
  exists r h',
    scan_directory self tree t0 t1 h = Return (r, h')
    /\ total_files_scanned r = Z.of_nat (length scanned)
    /\ vulnerabilities r = self_vulnerabilities self
    /\ length h' = length h
    /\ deref h' (vulnerabilities r)
       = deref h (self_vulnerabilities self)
         ++ flat_map (fun e => scan_file self tree (fst e)) scanned
    /\ calculate_risk_score (deref h' (vulnerabilities r)) = Return (risk_score r)
    /\ forall l', l' <> self_vulnerabilities self -> deref h' l' = deref h l'.
Proof.
  intros Hl scanned. unfold scan_directory.
  destruct (scan_entries_spec self tree (rglob (target_path self) tree) 0 h Hl)
    as (h' & Hscan & Hlen & Hd & Ho).
  rewrite Hscan.
  destruct (calculate_risk_score_returns (deref h' (self_vulnerabilities self)))
    as [s Hs].
  rewrite Hs, bind_Return. eexists. exists h'. split; [reflexivity |].
  cbn [total_files_scanned vulnerabilities risk_score].
  repeat split; try assumption.
Qed.

End ScanDirectory.

(** ** The claims about the scanner *)

Section Scanner.

Lemma should_skip_spec (p : Path) :
  _should_skip_file p = true
  <-> exists tok, In tok skip_tokens /\ str_contains tok (path_str p) = true.
Proof. unfold _should_skip_file. apply existsb_exists. Qed.

(** C1, at the input of scenario A: the catalog finds nothing in the line
    [query("SELECT * FROM users WHERE id=" + userId)]; the pattern for a
    database query with concatenation does not match it, and the scan of the
    directory returns one scanned file, no finding and the risk score 0.0. *)
Theorem scenario_A_yields_no_finding :
  let '(auditor, h) := SecurityAuditor_init "project" [] in
  scan_file auditor scenario_A_tree ["project"; "app.js"]%string = []
  /\ re_search ("query\s*\(\s*[" ++ dq ++ "\'][^" ++ dq ++ "\']*\+")%string
               (text_of_string scenario_A_line) IGNORECASE = Return false
  /\ exists r h',
       scan_directory auditor scenario_A_tree 0 1 h = Return (r, h')
       /\ total_files_scanned r = 1
       /\ deref h' (vulnerabilities r) = []
       /\ risk_score r = lit 0.
Proof.
  cbv beta iota zeta delta [SecurityAuditor_init new_list].
  split; [vm_compute; reflexivity |].
  split; [vm_compute; reflexivity |].
  do 2 eexists. split; [vm_compute; reflexivity |].
  repeat split.
Qed.

(** The same pattern on a line where the plus sign precedes the closing
    quote: one finding, with the attributes of the category. *)
Example plus_inside_quotes_is_found :
  let '(auditor, h) := SecurityAuditor_init "project" [] in
  scan_file auditor plus_inside_tree ["project"; "app.js"]%string
  = [ {| severity := "critical"; category := "sql_injection";
         description := "Database query with concatenation";
         file_path := "app.js"; line_number := 1;
         code_snippet := text_of_string plus_inside_line;
         remediation := "Use parameterized queries or prepared statements.";
         cwe_id := "CWE-89"; cvss_score := lit 9 |} ].
Proof. vm_compute. reflexivity. Qed.

(** A scan appends what it finds to the auditor's list, which the results of
    earlier scans name as well. *)
Lemma scan_appends_to_shared_list self tree t0 t1 (h : heap) :
  (self_vulnerabilities self < length h)%nat ->
  exists r h',
    scan_directory self tree t0 t1 h = Return (r, h')
    /\ deref h' (self_vulnerabilities self)
       = deref h (self_vulnerabilities self)
         ++ flat_map (fun e => scan_file self tree (fst e))
              (List.filter (eligible self) (rglob (target_path self) tree)).
Proof.
  intros Hl.
  destruct (scan_directory_spec self tree t0 t1 h Hl)
    as (r & h' & Hr & _ & Hv & _ & Hd & _).
  exists r, h'. split; [exact Hr |]. rewrite Hv in Hd. exact Hd.
Qed.

(** C8, at a failing input: after a second scan with the same auditor the
    finding sequence of the first result holds two findings where it held
    one, because both results name the auditor's own list; the risk score
    stored in the first result stays 4.0. *)
Theorem second_scan_changes_first_result :
  exists r1 h1 r2 h2,
    two_scans "project" weak_hash_tree = Return (r1, h1, r2, h2)
    /\ length (deref h1 (vulnerabilities r1)) = 1%nat
    /\ length (deref h2 (vulnerabilities r1)) = 2%nat
    /\ vulnerabilities r2 = vulnerabilities r1
    /\ risk_score r1 = lit 4.
Proof.
  do 4 eexists. split; [vm_compute; reflexivity |]. repeat split.
Qed.

(** C10: when the path string of the scan root holds a skip token, a fresh
    auditor scans no file: the result has no scanned file, an empty finding
    list and the risk score 0.0, whatever the tree holds. *)
Theorem skip_token_in_root_scans_nothing
    (target : string) (tree : node) (t0 t1 : Z) (h : heap) (tok : string) :
  In tok skip_tokens ->
  str_contains tok (path_str (Path_of_string target)) = true ->
  let '(auditor, h1) := SecurityAuditor_init target h in
  exists r,
    scan_directory auditor tree t0 t1 h1 = Return (r, h1)
    /\ total_files_scanned r = 0
    /\ deref h1 (vulnerabilities r) = []
    /\ risk_score r = lit 0.
Proof.
  intros Hin Htok.
  assert (Hskip : _should_skip_file (Path_of_string target) = true)
    by (apply should_skip_spec; eauto).
  cbv beta iota zeta delta [SecurityAuditor_init new_list].
  unfold scan_directory. cbn [target_path self_vulnerabilities].
  rewrite scan_entries_all_skipped.
  - assert (Hd : deref (h ++ [[]]) (length h) = [])
      by (unfold deref; now rewrite list_lookup_middle).
    rewrite Hd. eexists. split; [reflexivity |].
    cbn [total_files_scanned vulnerabilities risk_score]. auto.
  - eapply Forall_impl; [apply rglob_prefix |].
    intros [path nd] [rel Hrel]. cbn [fst] in *. rewrite Hrel.
    now apply should_skip_below.
Qed.

(** C7, as amended: decoding with [errors='ignore'] never raises, and a byte
    that cannot start a sequence is dropped; a file that cannot be opened or
    read yields no finding; and the scan of the directory returns all the
    same, with the findings of every eligible entry in walk order (the
    unreadable file being counted among the scanned ones). *)
Theorem read_failures_and_decoding :
  (forall bs, exists t, utf8_decode ignore bs = Return t)
  /\ (forall b bs, invalid_start b ->
        utf8_decode ignore (b :: bs) = utf8_decode ignore bs)
  /\ (forall self tree path e,
        read_text (target_path self) tree path ignore = Raise e ->
        scan_file self tree path = [])
  /\ (forall self tree t0 t1 (h : heap),
        (self_vulnerabilities self < length h)%nat ->
        exists r h',
          scan_directory self tree t0 t1 h = Return (r, h')
          /\ total_files_scanned r
             = Z.of_nat (length (List.filter (eligible self)
                                   (rglob (target_path self) tree)))
          /\ deref h' (vulnerabilities r)
             = deref h (self_vulnerabilities self)
               ++ flat_map (fun e => scan_file self tree (fst e))
                    (List.filter (eligible self) (rglob (target_path self) tree))).
Proof.
  split; [exact utf8_decode_ignore_total |].
  split; [intros b bs Hb; now rewrite utf8_decode_invalid_start |].
  split; [exact scan_file_unreadable |].
  intros self tree t0 t1 h Hl.
  destruct (scan_directory_spec self tree t0 t1 h Hl)
    as (r & h' & Hr & Hn & _ & _ & Hd & _).
  exists r, h'. auto.
Qed.

End Scanner.

(** ** Instances and counterexamples *)

Section Instances.
Local Open Scope Q_scope.

(** A finding of unknown severity weighs nothing: the risk score of a
    non-empty list is 0.0. *)
Lemma risk_score_zero_for_unknown_severity :
  calculate_risk_score [unknown_severity_finding] = Return (lit 0)
  /\ [unknown_severity_finding] <> [].
Proof. split; [vm_compute; reflexivity | discriminate]. Qed.

(** One critical finding: the score is defined and is not zero. *)
Lemma calculate_risk_score_spec_witness :
  exists r, calculate_risk_score [critical_finding] = Return (Fin r)
            /\ (r == 0 -> [critical_finding] = []).
Proof.
  destruct (calculate_risk_score_spec [critical_finding])
    as (r & H & _ & _ & _ & _ & Hk).
  exists r. split; [exact H |]. apply Hk.
  constructor; [left; reflexivity | constructor].
Defined.

(** A critical SQL injection and a high XSS finding: the score is the
    rounded average of the two impacts. *)
Lemma calculate_business_impact_score_spec_witness :
  exists r,
    calculate_business_impact_score
      [vuln "critical" "sql_injection"; vuln "high" "xss"] = Return (Fin r)
    /\ spec_rounded_average
         (map spec_impact [vuln "critical" "sql_injection"; vuln "high" "xss"])
       = Return (Fin r).
Proof.
  destruct (calculate_business_impact_score_spec
              [vuln "critical" "sql_injection"; vuln "high" "xss"])
    as (r & H & _ & _ & _ & Htop).
  exists r. split; [exact H |].
  apply (Htop _ []).
  - discriminate.
  - now rewrite app_nil_r.
  - rewrite app_nil_r. cbn [map].
    constructor; [constructor; [constructor | constructor] |].
    constructor; [vm_compute; reflexivity | constructor].
  - reflexivity.
Defined.

(** Base score 9.0 in the industry written [FinTech]: the multiplier of
    [fintech] applies and the adjusted score is capped at 10.0. *)
Lemma adjusted_risk_score_spec_witness :
  exists rm a,
    generate_risk_assessment
      {| ad_vulnerabilities := Some scenario_C_findings;
         ad_risk_score := Some (Fin 9) |} "FinTech" = Return rm
    /\ rm_risk_score rm
       = py_min (lit 10) (fmul (Fin 9) (spec_industry_multiplier "FinTech"))
    /\ rm_risk_score rm = Fin a /\ 0 <= a /\ a <= 10
    /\ (forall industry', eq_nocase industry' "FinTech" = true ->
          generate_risk_assessment
            {| ad_vulnerabilities := Some scenario_C_findings;
               ad_risk_score := Some (Fin 9) |} industry' = Return rm).
Proof.
  apply (adjusted_risk_score_spec _ 9 "FinTech").
  - reflexivity.
  - discriminate.
  - discriminate.
  - vm_compute. reflexivity.
Defined.

(** A summary is returned for the metrics of one critical finding. *)
Lemma risk_level_thresholds_witness :
  exists es,
    generate_executive_summary
      {| vulnerability_count := 1;
         severity_distribution := [("critical", 1%Z)]%string;
         rm_risk_score := Fin 9;
         business_impact_score := Fin 9;
         remediation_cost := [("critical", 15000%Z); ("total", 15000%Z)]%string;
         timeline_months := Fin (6 # 10) |} = Return es.
Proof.
  destruct risk_level_thresholds as (_ & _ & _ & _ & _ & _ & _ & _ & Hret).
  apply (Hret _ 9 9 15000%Z); try reflexivity; discriminate.
Defined.

(** The findings of scenario C in the order high, critical, medium, high. *)
Lemma scenario_C_witness :
  exists rm,
    generate_risk_assessment
      {| ad_vulnerabilities := Some scenario_C_findings; ad_risk_score := None |}
      "fintech" = Return rm
    /\ dict_eq (severity_distribution rm)
               [("critical", 1%Z); ("high", 2%Z); ("medium", 1%Z)]%string
    /\ dict_get (remediation_cost rm) "total" = Some (15000 + 16000 + 3000)%Z
    /\ (15000 + 16000 + 3000 = 34000)%Z
    /\ Return (timeline_months rm) = spec_timeline (30 + 28 + 7)
    /\ timeline_months rm = lit (13 # 10).
Proof.
  apply (scenario_C scenario_C_findings None).
  change (map severity_of scenario_C_findings)
    with ["high"; "critical"; "medium"; "high"]%string.
  etrans; [apply Permutation_swap |].
  do 2 apply Permutation_skip. apply Permutation_swap.
Defined.

(** Two findings swapped: same risk score, same assessment. *)
Lemma scoring_order_independent_witness :
  calculate_risk_score [unknown_severity_finding; critical_finding]
  = calculate_risk_score [critical_finding; unknown_severity_finding]
  /\ py_rel metrics_eq
       (generate_risk_assessment
          {| ad_vulnerabilities := Some [vuln "high" "xss"; vuln "low" "ssrf"];
             ad_risk_score := Some (lit 4) |} "consumer")
       (generate_risk_assessment
          {| ad_vulnerabilities := Some [vuln "low" "ssrf"; vuln "high" "xss"];
             ad_risk_score := Some (lit 4) |} "consumer").
Proof.
  destruct scoring_order_independent as [H1 H2].
  split; [apply H1 | apply H2]; apply Permutation_swap.
Defined.

(** The root [my-target-build-notes] holds the token [target]: the file of
    scenario A below it is not scanned. *)
Lemma skip_token_in_root_scans_nothing_witness :
  let '(auditor, h1) := SecurityAuditor_init "my-target-build-notes" [] in
  exists r,
    scan_directory auditor scenario_A_tree 0 1 h1 = Return (r, h1)
    /\ total_files_scanned r = 0%Z
    /\ deref h1 (vulnerabilities r) = []
    /\ risk_score r = lit 0.
Proof.
  apply (skip_token_in_root_scans_nothing
           "my-target-build-notes" scenario_A_tree 0 1 [] "target").
  - do 8 right. left. reflexivity.
  - vm_compute. reflexivity.
Defined.

(** The code drops an invalid byte where the claim has it replaced: the file
    with the bytes 61 FF 62 is read as the two letters, and not as the two
    letters around U+FFFD. *)
Lemma invalid_byte_is_dropped_not_replaced :
  read_text ["project"]%string invalid_byte_tree ["project"; "a.py"]%string ignore
  = Return [97; 98]%Z
  /\ read_text ["project"]%string invalid_byte_tree ["project"; "a.py"]%string
       replace
     = Return [97; 65533; 98]%Z.
Proof. split; vm_compute; reflexivity. Qed.

(** A tree with a file that cannot be read and a file with a finding: both
    are counted, the finding of the second is reported. *)
Lemma read_failures_and_decoding_witness :
  utf8_decode ignore [xff; x61] = utf8_decode ignore [x61]
  /\ scan_file (fst (SecurityAuditor_init "project" [])) unreadable_tree
       ["project"; "secret.py"]%string = []
  /\ exists r h',
       scan_directory (fst (SecurityAuditor_init "project" [])) unreadable_tree
         0 1 (snd (SecurityAuditor_init "project" [])) = Return (r, h')
       /\ total_files_scanned r = 2%Z
       /\ length (deref h' (vulnerabilities r)) = 1%nat.
Proof.
  destruct read_failures_and_decoding as (_ & Hdrop & Hfail & Hwalk).
  split; [apply Hdrop; right; vm_compute; discriminate |].
  split; [apply (Hfail _ _ _ PermissionError); vm_compute; reflexivity |].
  destruct (Hwalk (fst (SecurityAuditor_init "project" [])) unreadable_tree
              0%Z 1%Z (snd (SecurityAuditor_init "project" [])))
    as (r & h' & Hr & Hn & Hd).
  - vm_compute. lia.
  - exists r, h'. split; [exact Hr |]. split.
    + rewrite Hn. vm_compute. reflexivity.
    + rewrite Hd. vm_compute. reflexivity.
Defined.

End Instances.

(** * Further properties *)

(** ** The findings of a file *)

Section ScanFile.
Lemma for_each_app {A S} (xs ys : list A) (body : A -> S -> S * option exn) s :
  for_each (xs ++ ys) body s
  = match for_each xs body s with
    | (s', None) => for_each ys body s'
    | r => r
    end.
Proof.
  revert s. induction xs as [| x xs IH]; intros s; cbn [app for_each].
  - reflexivity.
  - destruct (body x s) as [s' [e |]]; [reflexivity | apply IH].
Qed.

Lemma for_each_flat_map {A B} (xs : list A)
    (body : A -> list B -> list B * option exn) (f : A -> list B) :
  (forall x found, x ∈ xs -> body x found = (found ++ f x, None)) ->
  forall found, for_each xs body found = (found ++ flat_map f xs, None).
Proof.
  induction xs as [| x xs IH]; intros Hb found; cbn [for_each flat_map].
  - now rewrite app_nil_r.
  - rewrite Hb by left. rewrite IH by (intros; apply Hb; now right).
    now rewrite app_assoc.
Qed.

Lemma scan_lines_spec self path rel lines found :
  well_formed (patterns self) ->
  relative_to path (target_path self) = Return rel ->
  scan_lines self path lines found
  = (found ++ findings_in (patterns self) rel lines, None).
Proof.
  intros Hwf Hrel. unfold scan_lines, findings_in.
  apply for_each_flat_map. intros [category pats] found1 Hc.
  unfold well_formed in Hwf. rewrite Forall_forall in Hwf.
  pose proof (Hwf _ Hc) as Hp. cbn [snd fst] in *. rewrite Forall_forall in Hp.
  apply for_each_flat_map. intros [pattern description] found2 Hpd.
  destruct (Hp _ Hpd) as [r Hr]. cbn [fst snd] in *.
  apply for_each_flat_map. intros [line_num line] found3 _.
  cbn [fst snd]. unfold matches.
  destruct (re_search pattern line IGNORECASE) as [[|] | e] eqn:E.
  - rewrite Hrel. reflexivity.
  - now rewrite app_nil_r.
  - unfold re_search in E. rewrite Hr in E. discriminate.
Qed.

Lemma catalog_well_formed : well_formed catalog.
Proof.
  unfold well_formed, catalog.
  repeat (apply Forall_cons; split); try apply Forall_nil;
    cbn [fst snd]; eexists; vm_compute; reflexivity.
Qed.

Lemma read_text_relative root tree path errors content :
  read_text root tree path errors = Return content ->
  exists rel, relative_to path root = Return rel.
Proof.
  unfold read_text. destruct (relative_to path root) as [rel | e]; [eauto | discriminate].
Qed.

Lemma init_patterns target (h : heap) :
  patterns (fst (SecurityAuditor_init target h)) = catalog.
Proof. reflexivity. Qed.

Lemma init_target_path target (h : heap) :
  target_path (fst (SecurityAuditor_init target h)) = Path_of_string target.
Proof. reflexivity. Qed.

Lemma for_each_invariant {A S} (P : S -> Prop) (xs : list A)
    (body : A -> S -> S * option exn) :
  (forall x s, x ∈ xs -> P s -> P (fst (body x s))) ->
  forall s, P s -> P (fst (for_each xs body s)).
Proof.
  induction xs as [| x xs IH]; intros Hb s Hs; cbn [for_each].
  - exact Hs.
  - pose proof (Hb x s ltac:(left) Hs) as H1.
    destruct (body x s) as [s' [e |]]; cbn [fst] in *.
    + exact H1.
    + apply IH; [| exact H1]. intros y s0 Hy. apply Hb. now right.
Qed.

Lemma enumerate_lookup {A} (xs : list A) : forall start n x,
  (n, x) ∈ enumerate xs start ->
  start <= n /\ xs !! Z.to_nat (n - start) = Some x.
Proof.
  induction xs as [| y xs IH]; intros start n x H; cbn [enumerate] in H.
  - inversion H.
  - apply elem_of_cons in H as [[= -> ->] | H].
    + split; [lia |]. now rewrite Z.sub_diag.
    + apply IH in H as [H1 H2]. split; [lia |].
      replace (Z.to_nat (n - start)) with (S (Z.to_nat (n - (start + 1)))) by lia.
      exact H2.
Qed.

Lemma scan_lines_sound self path lines found rel :
  relative_to path (target_path self) = Return rel ->
  Forall (finding_ok self rel lines) found ->
  Forall (finding_ok self rel lines) (fst (scan_lines self path lines found)).
Proof.
  intros Hrel. unfold scan_lines.
  apply (for_each_invariant (Forall (finding_ok self rel lines))).
  intros [cat pats] found1 Hc.
  apply (for_each_invariant (Forall (finding_ok self rel lines))).
  intros [pattern desc] found2 Hp.
  apply (for_each_invariant (Forall (finding_ok self rel lines))).
  intros [line_num line] found3 Hl Hf.
  destruct (re_search pattern line IGNORECASE) as [[|] | e] eqn:E;
    cbn [fst]; try exact Hf.
  rewrite Hrel. cbn [fst]. apply Forall_app. split; [exact Hf |].
  apply Forall_singleton.
  apply enumerate_lookup in Hl as [Hn Hlk].
  exists pats, pattern, line. cbn [category description line_number].
  repeat split; try assumption.
Qed.

Lemma scan_file_sound self tree path v :
  v ∈ scan_file self tree path ->
  exists content rel,
    read_text (target_path self) tree path ignore = Return content
    /\ relative_to path (target_path self) = Return rel
    /\ finding_ok self rel (split_lines content) v.
Proof.
  unfold scan_file.
  destruct (read_text (target_path self) tree path ignore) as [content | e] eqn:Hread;
    [| intros H; inversion H].
  destruct (read_text_relative _ _ _ _ _ Hread) as [rel Hrel].
  intros Hv. exists content, rel. repeat split; try assumption.
  pose proof (scan_lines_sound self path (split_lines content) [] rel Hrel
                (Forall_nil_2 _)) as H.
  rewrite Forall_forall in H. now apply H.
Qed.

Lemma catalog_categories c pats :
  (c, pats) ∈ catalog ->
  In c ["xss"; "sql_injection"; "command_injection"; "path_traversal"; "ssrf";
        "hardcoded_secrets"; "weak_crypto"; "insecure_deserialization";
        "information_disclosure"].
Proof.
  intros H. apply (list_elem_of_fmap_2 fst) in H. cbn [fst] in H.
  apply list_elem_of_In in H. exact H.
Qed.

Lemma scan_file_classified target (h : heap) tree path v :
  v ∈ scan_file (fst (SecurityAuditor_init target h)) tree path ->
  catalog_severity (severity v) (cvss_score v)
  /\ cwe_id v <> "CWE-Unknown"
  /\ remediation v <> "Review and secure the identified code.".
Proof.
  intros Hv. apply scan_file_sound in Hv
    as (content & rel & _ & _ & pats & pattern & line & Hc & _ & _ & _ & _ & E).
  rewrite init_patterns in Hc. apply catalog_categories in Hc.
  rewrite E. cbn [severity cvss_score cwe_id remediation finding_of].
  unfold catalog_severity.
  cbn [In] in Hc.
  repeat (destruct Hc as [<- | Hc];
          [split; [| split; discriminate];
           first [left; split; reflexivity
                 | right; left; split; reflexivity
                 | right; right; split; reflexivity] |]).
  destruct Hc.
Qed.

End ScanFile.

(** ** The score of a scan *)

Section ScanScore.
Local Open Scope Q_scope.

Lemma score_chain_from_medium x :
  4 # 10 <= x -> x <= 1 ->
  exists q r, RN x = Fin q
    /\ py_round1 (fmul (Fin q) (Fin 10)) = Fin r
    /\ 4 <= r /\ r <= 10.
Proof.
  intros Hx0 Hx1.
  destruct (RN_between x (4 # 10) 1) as (q & Hq & Hq0 & Hq1);
    [discriminate | exact Hx0 | exact Hx1 | reflexivity |].
  change (round53 1) with 1 in Hq1.
  assert (Hq00 : 0 <= round53 (4 # 10)) by (vm_compute; discriminate).
  destruct (RN_between (q * 10) (round53 (4 # 10) * 10) 10)
    as (p & Hp & Hp0 & Hp1); [lra | lra | lra | reflexivity |].
  assert (E1 : round53 (round53 (4 # 10) * 10) = 4) by (vm_compute; reflexivity).
  rewrite E1 in Hp0. change (round53 10) with 10 in Hp1.
  destruct (py_round1_between p 40 100) as (r & Hr & Hr0 & Hr1);
    [lia | lia | change (inject_Z 40) with 40; lra
     | change (inject_Z 100) with 100; lra |].
  assert (E2 : round53 (inject_Z 40 / 10) = 4) by (vm_compute; reflexivity).
  assert (E3 : round53 (inject_Z 100 / 10) = 10) by (vm_compute; reflexivity).
  rewrite E2 in Hr0. rewrite E3 in Hr1.
  exists q, r. cbn [fmul]. rewrite Hp. auto.
Qed.

Lemma total_weight_from_medium (vulns : list Vulnerability) :
  Forall (fun v => (4 <= spec_weight (severity v))%Z) vulns ->
  (4 * Z.of_nat (length vulns)
     <= foldr Z.add 0%Z (map (fun v => spec_weight (severity v)) vulns))%Z.
Proof.
  induction 1 as [| v vs Hv _ IH]; cbn [map foldr length]; lia.
Qed.

Lemma risk_score_from_medium (vulns : list Vulnerability) :
  vulns <> [] ->
  Forall (fun v => (4 <= spec_weight (severity v))%Z) vulns ->
  exists r, calculate_risk_score vulns = Return (Fin r) /\ 4 <= r /\ r <= 10.
Proof.
  intros Hne Hw. destruct vulns as [| v vs]; [contradiction |].
  set (t := foldr Z.add 0%Z (map (fun v => spec_weight (severity v)) (v :: vs))).
  set (n := Z.of_nat (length (v :: vs))).
  assert (Hn : (1 <= n)%Z) by (subst n; cbn [length]; lia).
  pose proof (total_weight_bounds (v :: vs)) as Ht. fold t n in Ht.
  pose proof (total_weight_from_medium (v :: vs) Hw) as Hl. fold t n in Hl.
  destruct (quotient_range t n Hn Ht) as [_ Hx1].
  assert (Hx0 : 4 # 10 <= inject_Z t / inject_Z (n * 10)).
  { assert (Hpos : 0 < inject_Z (n * 10))
      by (change 0 with (inject_Z 0); rewrite <- Zlt_Qlt; lia).
    apply Qle_shift_div_l; [exact Hpos |].
    unfold Qle, Qmult, inject_Z. simpl. lia. }
  destruct (score_chain_from_medium _ Hx0 Hx1) as (q & r & Hq & Hr & Hr0 & Hr1).
  exists r. split; [| split; assumption].
  unfold calculate_risk_score.
  rewrite sum_Z_foldr, map_weight_spec. fold t. fold n.
  replace (0 <? n * 10)%Z with true by (symmetry; apply Z.ltb_lt; lia).
  unfold int_truediv.
  replace (n * 10 =? 0)%Z with false by (symmetry; apply Z.eqb_neq; lia).
  rewrite Hq, bind_Return, of_int_10, bind_Return. now rewrite Hr.
Qed.

Lemma catalog_severity_weight s score :
  catalog_severity s score -> (4 <= spec_weight s)%Z.
Proof.
  intros [[-> _] | [[-> _] | [-> _]]]; vm_compute; discriminate.
Qed.

End ScanScore.

(** ** The calculators *)

Section Calculators.
Local Open Scope Q_scope.

Lemma copies_length {A} k (l : list A) : length (copies k l) = (k * length l)%nat.
Proof. induction k as [| k IH]; cbn [copies]; [reflexivity |]. rewrite length_app, IH. lia. Qed.

Lemma copies_weight k (l : list Vulnerability) :
  foldr Z.add 0%Z (map (fun v => spec_weight (severity v)) (copies k l))
  = (Z.of_nat k * foldr Z.add 0%Z (map (fun v => spec_weight (severity v)) l))%Z.
Proof.
  induction k as [| k IH]; cbn [copies]; [reflexivity |].
  rewrite map_app, foldr_app.
  assert (G : forall (a : list Z) z, foldr Z.add z a = (foldr Z.add 0 a + z)%Z).
  { induction a as [| x a IHa]; intros z; cbn [foldr]; [lia |]. rewrite IHa. lia. }
  rewrite G, IH. lia.
Qed.

Lemma calculate_risk_score_nonempty (l : list Vulnerability) :
  l <> [] ->
  calculate_risk_score l
  = (q ← int_truediv (foldr Z.add 0%Z (map (fun v => spec_weight (severity v)) l))
                     (Z.of_nat (length l) * 10);
     mret (py_round1 (fmul q (Fin 10)))).
Proof.
  intros Hne. destruct l as [| v vs]; [contradiction |].
  unfold calculate_risk_score. rewrite sum_Z_foldr, map_weight_spec.
  replace (0 <? Z.of_nat (length (v :: vs)) * 10)%Z with true
    by (symmetry; apply Z.ltb_lt; cbn [length]; lia).
  destruct (int_truediv _ _) as [q | e]; [| reflexivity].
  now rewrite bind_Return, of_int_10, bind_Return.
Qed.

Lemma copies_nonempty {A} k (l : list A) :
  k <> 0%nat -> l <> [] -> copies k l <> [].
Proof.
  intros Hk Hl E. apply (f_equal length) in E. rewrite copies_length in E.
  destruct l; [contradiction |]. destruct k; [contradiction |].
  cbn [length] in E. lia.
Qed.

Lemma risk_score_copies (k : nat) (l : list Vulnerability) :
  k <> 0%nat -> calculate_risk_score (copies k l) = calculate_risk_score l.
Proof.
  intros Hk. destruct (decide (l = [])) as [-> | Hl].
  { assert (E : copies k (@nil Vulnerability) = []).
    { clear Hk. induction k as [| k IH]; cbn [copies app]; auto. }
    now rewrite E. }
  rewrite (calculate_risk_score_nonempty _ (copies_nonempty k l Hk Hl)).
  rewrite (calculate_risk_score_nonempty _ Hl).
  rewrite copies_weight, copies_length.
  set (t := foldr Z.add 0%Z (map (fun v => spec_weight (severity v)) l)).
  set (n := Z.of_nat (length l)).
  assert (Hn : (1 <= n)%Z) by (subst n; destruct l; [contradiction | cbn [length]; lia]).
  replace (Z.of_nat (k * length l)) with (Z.of_nat k * n)%Z by (subst n; lia).
  set (c := Z.of_nat k). assert (Hc1 : (1 <= c)%Z) by (subst c; lia).
  unfold int_truediv.
  replace (n * 10 =? 0)%Z with false by (symmetry; apply Z.eqb_neq; lia).
  replace (c * n * 10 =? 0)%Z with false by (symmetry; apply Z.eqb_neq; nia).
  assert (E : inject_Z (c * t) / inject_Z (c * n * 10) == inject_Z t / inject_Z (n * 10)).
  { rewrite !inject_Z_mult. field. split.
    - change 0 with (inject_Z 0). rewrite inject_Z_injective. lia.
    - change 0 with (inject_Z 0). rewrite inject_Z_injective. lia. }
  now rewrite (RN_proper _ _ E).
Qed.

(** What [generate_risk_assessment] returns, when it returns. *)
Lemma generate_risk_assessment_inv (ad : AuditData) industry rm :
  generate_risk_assessment ad industry = Return rm ->
  let vulns := default [] (ad_vulnerabilities ad) in
  vulnerability_count rm = Z.of_nat (length vulns)
  /\ severity_distribution rm = count_severities vulns
  /\ remediation_cost rm = calculate_remediation_cost (count_severities vulns)
  /\ calculate_business_impact_score vulns = Return (business_impact_score rm)
  /\ estimate_timeline (count_severities vulns) = Return (timeline_months rm)
  /\ rm_risk_score rm
     = py_min (lit 10) (fmul (default (lit 0) (ad_risk_score ad))
                             (spec_industry_multiplier industry)).
Proof.
  intros H vulns. unfold generate_risk_assessment in H. fold vulns in H.
  destruct (calculate_business_impact_score vulns) as [bi | e]; [| discriminate].
  rewrite bind_Return in H.
  destruct (estimate_timeline (count_severities vulns)) as [tl | e]; [| discriminate].
  rewrite bind_Return, industry_factor_spec in H.
  apply Return_inj in H. subst rm.
  cbn [vulnerability_count severity_distribution remediation_cost
       business_impact_score timeline_months rm_risk_score].
  repeat split.
Qed.

Lemma count_of_nonneg k (vd : list vuln_dict) : (0 <= count_of k vd)%Z.
Proof.
  unfold count_of, total_over.
  induction vd as [| v vs IH]; cbn [map foldr]; [lia |].
  destruct (String.eqb _ _); lia.
Qed.

Lemma severity_distribution_facts (vulns : list vuln_dict) :
  NoDup (map fst (count_severities vulns))
  /\ weighted_sum (fun _ => 1%Z) (count_severities vulns) = Z.of_nat (length vulns)
  /\ (forall k, dict_get (count_severities vulns) k
                = if (count_of k vulns =? 0)%Z then None
                  else Some (count_of k vulns))
  /\ (forall k c, dict_get (count_severities vulns) k = Some c -> (1 <= c)%Z).
Proof.
  split; [apply count_severities_NoDup |].
  split.
  { rewrite count_severities_weighted. unfold total_over.
    induction vulns as [| v vs IH]; cbn [map foldr length]; lia. }
  split; [apply count_severities_get |].
  intros k c. rewrite count_severities_get.
  pose proof (count_of_nonneg k vulns).
  destruct (Z.eqb_spec (count_of k vulns) 0); [discriminate |].
  intros [= <-]. lia.
Qed.

Lemma dict_set_fresh {V} (d : dict V) k v :
  k ∉ map fst d -> dict_set d k v = d ++ [(k, v)].
Proof.
  induction d as [| [k0 v0] d IH]; cbn [dict_set map fst app]; intros Hk.
  - reflexivity.
  - apply not_elem_of_cons in Hk as [Hne Hk].
    destruct (String.eqb_spec k0 k); [congruence |]. now rewrite IH.
Qed.

Lemma remediation_fold_exact (sd : dict Z) : forall costs0 t0,
  NoDup (map fst sd) ->
  (forall k, k ∈ map fst sd -> k ∉ map fst costs0) ->
  fold_left (fun st item =>
      let '(costs, total_cost) := st in
      let '(severity, count) := item in
      (dict_set costs severity (get remediation_costs severity 1000 * count)%Z,
       (total_cost + get remediation_costs severity 1000 * count)%Z))
      sd (costs0, t0)
  = (costs0 ++ map (fun kc => (fst kc, (spec_cost (fst kc) * snd kc)%Z)) sd,
     (t0 + weighted_sum spec_cost sd)%Z).
Proof.
  induction sd as [| [k0 c0] sd IH]; intros costs0 t0 Hnd Hfresh;
    cbn [fold_left weighted_sum map fst snd].
  - rewrite app_nil_r. f_equal. lia.
  - cbn [map fst] in Hnd. apply NoDup_cons in Hnd as [Hk0 Hnd].
    rewrite dict_set_fresh by (apply Hfresh; cbn [map fst]; left).
    rewrite IH.
    + rewrite cost_spec, <- app_assoc. cbn [app]. f_equal. lia.
    + exact Hnd.
    + intros k Hk. rewrite map_app. cbn [map fst].
      intros Hin. apply elem_of_app in Hin as [Hin | Hin].
      * apply (Hfresh k); [cbn [map fst]; now right | exact Hin].
      * apply list_elem_of_singleton in Hin. subst k. contradiction.
Qed.

(** Rounding keeps the order of two values. *)
Lemma RN_mono x y hi :
  0 <= x -> x <= y -> y <= hi -> round53 hi < 2 ^ 1024 ->
  exists a b, RN x = Fin a /\ RN y = Fin b
              /\ 0 <= a /\ a <= b /\ b <= round53 hi.
Proof.
  intros Hx Hxy Hy Hhi.
  destruct (RN_between x 0 hi) as (a & Ha & Ha0 & _);
    [apply Qle_refl | exact Hx | lra | exact Hhi |].
  change (round53 0) with 0 in Ha0.
  destruct (RN_between y x hi) as (b & Hb & Hb0 & Hb1);
    [exact Hx | exact Hxy | exact Hy | exact Hhi |].
  exists a, b. rewrite <- (RN_Fin x a Ha) in Hb0. auto.
Qed.

Lemma py_round1_mono a b (B : Z) :
  0 <= a -> a <= b -> b * 10 <= inject_Z B ->
  round53 (inject_Z B / 10) < 2 ^ 1024 ->
  exists ra rb, py_round1 (Fin a) = Fin ra /\ py_round1 (Fin b) = Fin rb
                /\ 0 <= ra /\ ra <= rb.
Proof.
  intros Ha Hab Hb HB. unfold py_round1.
  assert (G0 : (0 <= rne (a * 10))%Z)
    by (apply rne_ge_Z; change (inject_Z 0) with 0; lra).
  assert (G1 : (rne (a * 10) <= rne (b * 10))%Z) by (apply rne_mono; lra).
  pose proof (rne_le_Z _ _ Hb) as G2.
  destruct (RN_mono (inject_Z (rne (a * 10)) / 10) (inject_Z (rne (b * 10)) / 10)
                    (inject_Z B / 10)) as (ra & rb & Hra & Hrb & H0 & H1 & _).
  - apply Qle_shift_div_l; [reflexivity |]. rewrite Qmult_0_l.
    change 0 with (inject_Z 0). now rewrite <- Zle_Qle.
  - apply Qmult_le_compat_r; [now rewrite <- Zle_Qle | discriminate].
  - apply Qmult_le_compat_r; [now rewrite <- Zle_Qle | discriminate].
  - exact HB.
  - exists ra, rb. auto.
Qed.

(** More days never give a shorter timeline. *)
Lemma spec_timeline_mono (t t' : Z) :
  (0 <= t)%Z -> (t <= t')%Z -> (t' <= 2 ^ 70)%Z ->
  exists r r', spec_timeline t = Return (Fin r)
               /\ spec_timeline t' = Return (Fin r') /\ 0 <= r /\ r <= r'.
Proof.
  intros Ht0 Htt Ht1. unfold spec_timeline, int_truediv.
  replace (2 =? 0)%Z with false by reflexivity.
  assert (Hb : forall k : Z, (k = 70 \/ k = 72)%Z ->
                 round53 (inject_Z (2 ^ k)) < 2 ^ 1024).
  { intros k [-> | ->]; vm_compute; reflexivity. }
  assert (E70 : round53 (inject_Z (2 ^ 70)) = inject_Z (2 ^ 70))
    by (vm_compute; reflexivity).
  assert (E72 : round53 (inject_Z (2 ^ 72)) = inject_Z (2 ^ 72))
    by (vm_compute; reflexivity).
  assert (Q0 : 0 <= inject_Z t)
    by (change 0 with (inject_Z 0); rewrite <- Zle_Qle; lia).
  assert (Q1 : inject_Z t <= inject_Z t') by (rewrite <- Zle_Qle; lia).
  assert (Q2 : inject_Z t' <= inject_Z (2 ^ 70)) by (rewrite <- Zle_Qle; lia).
  destruct (RN_mono (inject_Z t / inject_Z 2) (inject_Z t' / inject_Z 2)
                    (inject_Z (2 ^ 70))) as (h & h' & Hh & Hh' & Hh0 & Hh1 & Hh2).
  - apply Qle_shift_div_l; [reflexivity | lra].
  - apply Qmult_le_compat_r; [exact Q1 | discriminate].
  - apply Qle_shift_div_r; [reflexivity |]. change (inject_Z 2) with 2. lra.
  - apply Hb. now left.
  - rewrite Hh, Hh', !bind_Return, of_int_30, !bind_Return. rewrite E70 in Hh2.
    assert (Hc : exists c, lit (12 # 10) = Fin c /\ 0 <= c /\ c <= 2)
      by (eexists; split; [vm_compute; reflexivity | split; discriminate]).
    destruct Hc as (c & -> & Hc0 & Hc1). cbn [fmul].
    assert (H7072 : inject_Z (2 ^ 70) * 2 <= inject_Z (2 ^ 72))
      by (vm_compute; discriminate).
    destruct (RN_mono (h * c) (h' * c) (inject_Z (2 ^ 72)))
      as (p & p' & Hp & Hp' & Hp0 & Hp1 & Hp2).
    + now apply Qmult_le_0_compat.
    + apply Qmult_le_compat_r; assumption.
    + apply Qle_trans with (inject_Z (2 ^ 70) * 2); [| exact H7072].
      apply Qle_trans with (2 * h').
      * rewrite (Qmult_comm h' c). apply Qmult_le_compat_r; [exact Hc1 | lra].
      * rewrite Qmult_comm. apply Qmult_le_compat_r; [exact Hh2 | discriminate].
    + apply Hb. now right.
    + rewrite Hp, Hp'. cbn [fdiv].
      replace (Qeq_bool 30 0) with false by reflexivity. rewrite E72 in Hp2.
      destruct (RN_mono (p / 30) (p' / 30) (inject_Z (2 ^ 72)))
        as (m & m' & Hm & Hm' & Hm0 & Hm1 & Hm2).
      * apply Qle_shift_div_l; [reflexivity | lra].
      * apply Qmult_le_compat_r; [exact Hp1 | discriminate].
      * apply Qle_shift_div_r; [reflexivity |]. lra.
      * apply Hb. now right.
      * rewrite Hm, Hm', !bind_Return. rewrite E72 in Hm2.
        destruct (py_round1_mono m m' (10 * 2 ^ 72)) as (r & r' & Hr & Hr' & Hr0 & Hr1).
        -- exact Hm0.
        -- exact Hm1.
        -- rewrite inject_Z_mult. change (inject_Z 10) with 10. lra.
        -- vm_compute. reflexivity.
        -- exists r, r'. rewrite Hr, Hr'. auto.
Qed.

Lemma total_over_app f (a b : list vuln_dict) :
  total_over f (a ++ b) = (total_over f a + total_over f b)%Z.
Proof.
  unfold total_over. induction a as [| x a IH]; cbn [app map foldr]; lia.
Qed.

(** Every per-finding impact is at least 7/8: the least one is that of the
    default category with the default multiplier, 3.0 * 0.3. *)
Lemma spec_impact_lower vuln : fin_between (7 # 8) 9 (spec_impact vuln).
Proof.
  unfold spec_impact, spec_base_impact, spec_severity_multiplier, fin_between.
  repeat match goal with
         | |- context [String.eqb ?a ?b] => destruct (String.eqb a b)
         end;
    (eexists; split; [vm_compute; reflexivity |]);
    repeat split; discriminate.
Qed.

Lemma fin_between_weaken lo lo' hi f :
  lo' <= lo -> fin_between lo hi f -> fin_between lo' hi f.
Proof. intros H (q & -> & H0 & H1 & Hr). exists q. repeat split; try assumption. lra. Qed.

Lemma sum_float_lower l : forall (a : Z) s,
  (0 <= a)%Z -> (a + Z.of_nat (length l) <= 5)%Z ->
  inject_Z (7 * a) / 8 <= s -> s <= inject_Z (9 * a) ->
  Forall (fin_between (7 # 8) 9) l ->
  exists s', fold_left fadd l (Fin s) = Fin s'
             /\ inject_Z (7 * (a + Z.of_nat (length l))) / 8 <= s'.
Proof.
  induction l as [| x l IH]; intros a s Ha Hlen Hs0 Hs1 Hl.
  - exists s. cbn [fold_left length]. split; [reflexivity |].
    now replace (a + Z.of_nat 0)%Z with a by lia.
  - apply Forall_cons in Hl as [(q & -> & Hq0 & Hq1 & _) Hl].
    cbn [fold_left fadd]. cbn [length] in Hlen.
    assert (Hlo0 : 0 <= inject_Z (7 * a) / 8).
    { apply Qle_shift_div_l; [reflexivity |]. rewrite Qmult_0_l.
      change 0 with (inject_Z 0). rewrite <- Zle_Qle. lia. }
    assert (Hexact : round53 (inject_Z (7 * (a + 1)) / 8) == inject_Z (7 * (a + 1)) / 8).
    { assert (Hcases : (a = 0 \/ a = 1 \/ a = 2 \/ a = 3 \/ a = 4)%Z) by lia.
      destruct Hcases as [-> | [-> | [-> | [-> | ->]]]]; vm_compute; reflexivity. }
    destruct (RN_between (s + q) (inject_Z (7 * (a + 1)) / 8) (inject_Z (9 * (a + 1))))
      as (r & Hr & Hr0 & Hr1).
    + apply Qle_shift_div_l; [reflexivity |]. rewrite Qmult_0_l.
      change 0 with (inject_Z 0). rewrite <- Zle_Qle. lia.
    + replace (7 * (a + 1))%Z with (7 * a + 7)%Z by lia.
      rewrite inject_Z_plus. change (inject_Z 7) with 7.
      unfold Qdiv in *. rewrite Qmult_plus_distr_l.
      change (7 * / 8) with (7 # 8). lra.
    + replace (9 * (a + 1))%Z with (9 * a + 9)%Z by lia.
      rewrite inject_Z_plus. change (inject_Z 9) with 9. lra.
    + rewrite round53_int by lia.
      apply Qlt_le_trans with (inject_Z (2 ^ 53)); [rewrite <- Zlt_Qlt; lia |].
      rewrite <- (pow2_Z 53) by lia. apply pow2_le. lia.
    + rewrite Hr. rewrite Hexact in Hr0. rewrite round53_int in Hr1 by lia.
      destruct (IH (a + 1)%Z r) as (s' & Hs' & Hs0');
        [lia | lia | assumption | assumption | assumption |].
      exists s'. split; [exact Hs' |]. cbn [length].
      now replace (a + Z.of_nat (S (length l)))%Z
        with (a + 1 + Z.of_nat (length l))%Z by lia.
Qed.

Lemma rounded_average_lower l :
  l <> [] -> (length l <= 5)%nat -> Forall (fin_between (7 # 8) 9) l ->
  exists r, spec_rounded_average l = Return (Fin r)
            /\ round53 (9 # 10) <= r /\ r <= 9.
Proof.
  intros Hne Hlen Hl. unfold spec_rounded_average.
  set (n := Z.of_nat (length l)).
  assert (Hn : (1 <= n <= 5)%Z).
  { subst n. destruct l; [contradiction | cbn [length] in *; lia]. }
  destruct (RN_between_int (inject_Z n) n) as (d & Hd & _ & _ & _);
    [lia | change 0 with (inject_Z 0); rewrite <- Zle_Qle; lia
     | apply Qle_refl |].
  assert (Hdn : d == inject_Z n).
  { rewrite (RN_Fin _ _ Hd). apply round53_int. lia. }
  assert (Hd1 : 1 <= d).
  { rewrite Hdn. change 1 with (inject_Z 1). rewrite <- Zle_Qle. lia. }
  unfold of_int. rewrite Hd, bind_Return.
  assert (Hl' : Forall (fin_between 0 9) l).
  { eapply Forall_impl; [exact Hl |]. intros x. apply fin_between_weaken. discriminate. }
  destruct (sum_float_range l 0 0) as (s & Hs & Hs0 & Hs1);
    [lia | lia | apply Qle_refl | apply Qle_refl | exact Hl' |].
  destruct (sum_float_lower l 0 0) as (s' & Hs' & Hlow);
    [lia | lia | vm_compute; discriminate | apply Qle_refl | exact Hl |].
  rewrite Hs in Hs'. injection Hs' as <-.
  unfold sum_float. change (lit 0) with (Fin 0). rewrite Hs.
  cbn [fdiv].
  replace (Qeq_bool d 0) with false
    by (symmetry; apply not_true_is_false; intros E;
        apply Qeq_bool_iff in E; lra).
  fold n in Hs1, Hlow.
  replace (9 * (0 + n))%Z with (9 * n)%Z in Hs1 by lia.
  replace (7 * (0 + n))%Z with (7 * n)%Z in Hlow by lia.
  rewrite inject_Z_mult in Hs1, Hlow.
  change (inject_Z 9) with 9 in Hs1. change (inject_Z 7) with 7 in Hlow.
  assert (Hn0 : 0 < inject_Z n) by lra.
  destruct (RN_between (s / d) (7 # 8) 9) as (avg & Havg & Ha0 & Ha1).
  - discriminate.
  - apply Qle_shift_div_l; [lra |]. rewrite Hdn.
    assert (E : 7 * inject_Z n / 8 == (7 # 8) * inject_Z n) by field.
    rewrite E in Hlow. exact Hlow.
  - apply Qle_shift_div_r; [lra |]. rewrite Hdn. exact Hs1.
  - reflexivity.
  - rewrite Havg, bind_Return.
    assert (E78 : round53 (7 # 8) = 7 # 8) by (vm_compute; reflexivity).
    assert (E9 : round53 9 = 9) by (vm_compute; reflexivity).
    rewrite E78 in Ha0. rewrite E9 in Ha1.
    unfold py_round1.
    assert (G0 : (9 <= rne (avg * 10))%Z).
    { change 9%Z with (rne (35 # 4)). apply rne_mono. lra. }
    assert (G1 : (rne (avg * 10) <= 90)%Z).
    { apply rne_le_Z. change (inject_Z 90) with 90. lra. }
    destruct (RN_between (inject_Z (rne (avg * 10)) / 10) (9 # 10) 9)
      as (r & Hr & Hr0 & Hr1).
    + discriminate.
    + apply Qle_shift_div_l; [reflexivity |].
      apply Qle_trans with (inject_Z 9); [vm_compute; discriminate |].
      now rewrite <- Zle_Qle.
    + apply Qle_shift_div_r; [reflexivity |].
      apply Qle_trans with (inject_Z 90); [| vm_compute; discriminate].
      now rewrite <- Zle_Qle.
    + reflexivity.
    + exists r. rewrite E9 in Hr1. split; [now rewrite Hr | split; assumption].
Qed.

Lemma business_impact_bounds (vd : list vuln_dict) :
  vd <> [] ->
  exists r, calculate_business_impact_score vd = Return (Fin r)
            /\ round53 (9 # 10) <= r /\ r <= 9.
Proof.
  intros Hne. destruct vd as [| v vs]; [contradiction |].
  rewrite business_impact_code.
  set (vd := v :: vs).
  set (sorted := sort_reverse (map spec_impact vd)).
  assert (Hall : Forall (fin_between (7 # 8) 9) (map spec_impact vd)).
  { apply Forall_forall. intros x Hx. apply list_elem_of_fmap in Hx as (y & -> & _).
    apply spec_impact_lower. }
  assert (Hperm : sorted ≡ₚ map spec_impact vd) by apply sort_reverse_perm.
  assert (Hsall : Forall (fin_between (7 # 8) 9) sorted) by now rewrite Hperm.
  assert (Hlen : length sorted = length vd).
  { rewrite (Permutation_length Hperm). apply length_map. }
  apply rounded_average_lower.
  - intros E. apply (f_equal length) in E. rewrite length_take, Hlen in E.
    subst vd. cbn [length] in E. lia.
  - rewrite length_take. lia.
  - now apply Forall_take.
Qed.

(** The industry factor never lowers a score, and the factor 1.0 leaves it
    as it is. *)
Lemma adjustment_never_lowers (b : Q) industry :
  RN b = Fin b -> 0 <= b -> b <= 10 ->
  exists a,
    py_min (lit 10) (fmul (Fin b) (spec_industry_multiplier industry)) = Fin a
    /\ b <= a /\ a <= 10
    /\ (spec_industry_multiplier industry = lit 1 -> a = b).
Proof.
  intros Hfl Hb0 Hb1.
  pose proof (RN_Fin _ _ Hfl) as Hbr.
  destruct (industry_multiplier_range industry) as (m & Hm & Hm0 & Hm1).
  rewrite Hm. cbn [fmul].
  assert (Hbm : b * m <= 20).
  { apply Qle_trans with (10 * m); [apply Qmult_le_compat_r; lra | lra]. }
  destruct (RN_between (b * m) b 20) as (x & Hx & Hx0 & _);
    [exact Hb0 | | exact Hbm | reflexivity |].
  { apply Qle_trans with (b * 1); [lra |].
    rewrite !(Qmult_comm b). apply Qmult_le_compat_r; lra. }
  rewrite <- Hbr in Hx0.
  rewrite Hx. change (lit 10) with (Fin 10). unfold py_min.
  destruct (flt (Fin x) (Fin 10)) eqn:E.
  - apply flt_Fin in E. exists x. repeat split; try lra.
    intros H1. change (lit 1) with (Fin 1) in H1. injection H1 as ->.
    assert (E1 : b * 1 == b) by ring.
    rewrite (RN_proper _ _ E1), Hfl in Hx. now injection Hx.
  - exists 10. repeat split; try lra; try discriminate.
    intros H1. change (lit 1) with (Fin 1) in H1. injection H1 as ->.
    assert (E1 : b * 1 == b) by ring.
    rewrite (RN_proper _ _ E1), Hfl in Hx. injection Hx as <-.
    assert (Hge : 10 <= b).
    { apply Qnot_lt_le. intros Hlt. apply flt_Fin in Hlt. congruence. }
    assert (E10 : b == 10) by lra.
    rewrite Hbr, (round53_proper _ _ E10). reflexivity.
Qed.

(** Where [generate_executive_summary] raises. *)
Lemma executive_summary_not_a_number rm :
  rm_risk_score rm = NaN \/ business_impact_score rm = NaN ->
  generate_executive_summary rm = Raise ValueError.
Proof.
  intros H. unfold generate_executive_summary.
  destruct (risk_level_of (rm_risk_score rm)) as [level advice].
  assert (Hfe : calculate_financial_exposure (rm_risk_score rm)
                  (business_impact_score rm) = Raise ValueError).
  { unfold calculate_financial_exposure. rewrite of_int_10000, bind_Return.
    assert (Hn : fmul (rm_risk_score rm) (business_impact_score rm) = NaN).
    { destruct H as [-> | ->]; [reflexivity |].
      destruct (rm_risk_score rm) as [q | s |]; reflexivity. }
    rewrite Hn. reflexivity. }
  now rewrite Hfe.
Qed.

Lemma executive_summary_without_total rm s i :
  rm_risk_score rm = Fin s -> 0 <= s -> s <= 10 ->
  business_impact_score rm = Fin i -> 0 <= i -> i <= 10 ->
  dict_get (remediation_cost rm) "total" = None ->
  generate_executive_summary rm = Raise KeyError.
Proof.
  intros Hs Hs0 Hs1 Hi Hi0 Hi1 Ht. unfold generate_executive_summary.
  rewrite Hs, Hi. destruct (risk_level_of (Fin s)) as [level advice].
  destruct (calculate_financial_exposure_returns s i) as (fe & ->);
    try assumption.
  rewrite bind_Return. unfold getitem. now rewrite Ht.
Qed.

End Calculators.

(** ** Floats are fixed by rounding *)

Section RoundingFloats.
Local Open Scope Q_scope.

(** A number with at most 53 bits above the least exponent is a float. *)
Lemma round53_dyadic (n e : Z) :
  (0 < n < 2 ^ 53)%Z -> (-1074 <= e)%Z ->
  round53 (inject_Z n * 2 ^ e) == inject_Z n * 2 ^ e.
Proof.
  intros [Hn0 Hn1] He.
  set (y := inject_Z n * 2 ^ e).
  assert (Hn : 0 < inject_Z n)
    by (change 0 with (inject_Z 0); rewrite <- Zlt_Qlt; lia).
  assert (Hy : 0 < y) by (apply Qmult_lt_0_compat; [exact Hn | apply pow2_pos]).
  rewrite round53_eq by lra. rewrite (ulp_exp_pos _ Hy).
  destruct (floor_log2_spec _ Hy) as [Hk _].
  set (k := floor_log2 y) in *.
  assert (Hk53 : (k < 53 + e)%Z).
  { apply pow2_lt_inv. eapply Qle_lt_trans; [exact Hk |].
    unfold y. rewrite pow2_add, (pow2_Z 53) by lia.
    apply Qmult_lt_compat_r; [apply pow2_pos |]. now rewrite <- Zlt_Qlt. }
  set (e' := Z.max (k - 52) (-1074)).
  assert (He' : (e' <= e)%Z) by lia.
  assert (Hinv : y / 2 ^ e' == inject_Z (n * 2 ^ (e - e'))).
  { rewrite inject_Z_mult, <- (pow2_Z (e - e')) by lia.
    unfold y. rewrite pow2_sub.
    field; repeat split; apply Qnot_eq_sym, Qlt_not_eq, pow2_pos. }
  rewrite (rne_proper _ _ Hinv), rne_inject_Z.
  rewrite inject_Z_mult, <- (pow2_Z (e - e')) by lia.
  unfold y. rewrite pow2_sub.
  field; repeat split; apply Qnot_eq_sym, Qlt_not_eq, pow2_pos.
Qed.

Lemma canonical_eq x y : Qred x = x -> Qred y = y -> x == y -> x = y.
Proof. intros Hx Hy E. rewrite <- Hx, <- Hy. now apply Qred_complete. Qed.

(** Rounding a float gives the float. *)
Lemma round53_idem x : 0 <= x -> round53 (round53 x) = round53 x.
Proof.
  intros Hx0. destruct (Qeq_dec x 0) as [E | E].
  { rewrite (round53_0 x E). reflexivity. }
  assert (Hx : 0 < x) by (destruct (Qlt_le_dec 0 x); [assumption | exfalso; apply E; lra]).
  pose proof (round53_eq x E) as Hr. rewrite (ulp_exp_pos _ Hx) in Hr.
  destruct (floor_log2_spec _ Hx) as [_ Hk].
  set (k := floor_log2 x) in *.
  set (e := Z.max (k - 52) (-1074)) in *.
  set (n := rne (x / 2 ^ e)) in *.
  assert (Hn0 : (0 <= n)%Z).
  { apply rne_ge_Z. change (inject_Z 0) with 0.
    apply Qle_shift_div_l; [apply pow2_pos | lra]. }
  assert (Hn1 : (n <= 2 ^ 53)%Z).
  { apply rne_le_Z. rewrite <- (pow2_Z 53) by lia.
    apply Qle_shift_div_r; [apply pow2_pos |]. rewrite <- pow2_add.
    apply Qlt_le_weak. eapply Qlt_le_trans; [exact Hk |]. apply pow2_le. lia. }
  assert (Hgoal : round53 (round53 x) == round53 x).
  { destruct (Z.eq_dec n 0%Z) as [Hz | Hnz].
    - rewrite Hz in Hr. assert (Hr0 : round53 x == 0) by (rewrite Hr; ring).
      rewrite (round53_0 _ Hr0). now rewrite Hr0.
    - rewrite (round53_proper _ _ Hr).
      destruct (Z.eq_dec n (2 ^ 53)%Z) as [Hmax | Hlt].
      + assert (E2 : inject_Z n * 2 ^ e == inject_Z (2 ^ 52) * 2 ^ (e + 1)).
        { rewrite Hmax, pow2_add. change (2 ^ 1) with 2.
          rewrite <- !(pow2_Z) by lia.
          replace 53%Z with (52 + 1)%Z by lia. rewrite pow2_add.
          change (2 ^ 1) with 2. ring. }
        rewrite (round53_proper _ _ E2), round53_dyadic by lia.
        now rewrite Hr, E2.
      + rewrite round53_dyadic by lia. now rewrite Hr. }
  apply canonical_eq; [apply round53_canon | apply round53_canon | exact Hgoal].
Qed.

Lemma RN_idem x r : 0 <= x -> RN x = Fin r -> RN r = Fin r.
Proof.
  intros Hx H. pose proof (RN_Fin _ _ H) as Hr. subst r.
  unfold RN in *. cbv zeta in *. rewrite (round53_idem x Hx).
  destruct (Qle_bool (2 ^ 1024) (Qabs (round53 x))); [discriminate | reflexivity].
Qed.

End RoundingFloats.

(** ** The audit of a tree *)

Section Pipeline.
Local Open Scope Q_scope.

Lemma scan_file_new_auditor target (h : heap) tree path :
  scan_file (fst (SecurityAuditor_init target h)) tree path
  = scan_file (new_auditor target) tree path.
Proof. reflexivity. Qed.

Lemma eligible_new_auditor target (h : heap) e :
  eligible (fst (SecurityAuditor_init target h)) e = eligible (new_auditor target) e.
Proof. reflexivity. Qed.

(** The scan of a new auditor. *)
Lemma fresh_scan_spec target tree t0 t1 (h : heap) :
  exists score,
    calculate_risk_score (scan_findings target tree) = Return score
    /\ scan_directory (fst (SecurityAuditor_init target h)) tree t0 t1
         (snd (SecurityAuditor_init target h))
       = Return ({| total_files_scanned :=
                      Z.of_nat (length (scanned_entries target tree));
                    vulnerabilities := length h;
                    risk_score := score;
                    timestamp := t0;
                    scan_duration := (t1 - t0)%Z |},
                 <[length h := scan_findings target tree]> (h ++ [[]])).
Proof.
  destruct (calculate_risk_score_returns (scan_findings target tree)) as [score Hs].
  exists score. split; [exact Hs |].
  unfold scan_directory.
  cbv beta iota zeta delta [SecurityAuditor_init new_list].
  cbn [fst snd target_path self_vulnerabilities].
  destruct (scan_entries_spec
              {| target_path := Path_of_string target;
                 self_vulnerabilities := length h;
                 file_extensions := file_extensions (new_auditor target);
                 patterns := catalog |} tree
              (rglob (Path_of_string target) tree) 0 (h ++ [[]]))
    as (h' & Hscan & Hlen & Hd & Ho).
  { cbn [self_vulnerabilities]. rewrite length_app. cbn [length]. lia. }
  cbn [self_vulnerabilities target_path] in *.
  assert (Hd0 : deref (h ++ [[]]) (length h) = [])
    by (unfold deref; now rewrite list_lookup_middle).
  rewrite Hd0 in Hd. cbn [app] in Hd.
  change (file_extensions (new_auditor target))
    with [".js"; ".jsx"; ".ts"; ".tsx"; ".py"; ".java"; ".cs"; ".php";
          ".rb"; ".go"; ".rs"; ".cpp"; ".c"; ".h"; ".sql"; ".json"; ".yaml";
          ".yml"]%string in Hscan.
  rewrite Hscan.
  assert (Hh : h' = <[length h := scan_findings target tree]> (h ++ [[]])).
  { apply list_eq. intros i.
    destruct (decide (i = length h)) as [-> | Hi].
    - rewrite list_lookup_insert_eq by (rewrite length_app; cbn [length]; lia).
      unfold deref in Hd.
      destruct (h' !! length h) as [x |] eqn:E.
      + cbn in Hd. now rewrite Hd.
      + apply lookup_ge_None in E. rewrite Hlen, length_app in E.
        cbn [length] in E. lia.
    - rewrite list_lookup_insert_ne by auto.
      pose proof (Ho i Hi) as Hoi. unfold deref in Hoi.
      destruct (h' !! i) as [x |] eqn:E1, ((h ++ [[]]) !! i) as [y |] eqn:E2;
        cbn in Hoi; try congruence.
      + apply lookup_ge_None in E2. apply lookup_lt_Some in E1. lia.
      + apply lookup_ge_None in E1. apply lookup_lt_Some in E2. lia. }
  rewrite Hd. fold (scan_findings target tree) in *.
  change (flat_map _ _) with (scan_findings target tree).
  rewrite Hs, bind_Return. rewrite Hh. reflexivity.
Qed.

(** The score of the findings of a scan: every one of them weighs at least
    as a medium one. *)
Lemma scan_findings_score target tree :
  exists q, calculate_risk_score (scan_findings target tree) = Return (Fin q)
    /\ (scan_findings target tree = [] -> q = 0)
    /\ (scan_findings target tree <> [] -> 4 <= q /\ q <= 10)
    /\ 0 <= q /\ q <= 10.
Proof.
  destruct (scan_findings target tree) as [| v vs] eqn:E.
  - exists 0. repeat split; try reflexivity; try discriminate; contradiction.
  - destruct (risk_score_from_medium (v :: vs)) as (q & Hq & Hq0 & Hq1).
    + discriminate.
    + rewrite <- E. apply Forall_forall. intros x Hx.
      apply list_elem_of_In, in_flat_map in Hx as ([p nd] & _ & Hx).
      apply list_elem_of_In in Hx. cbn [fst] in Hx.
      destruct (scan_file_classified target [] tree p x Hx) as [Hc _].
      eapply catalog_severity_weight; exact Hc.
    + exists q. repeat split; try discriminate; try lra; auto.
Qed.

Lemma adjusted_score_range (b : Q) industry :
  0 <= b -> b <= 10 ->
  exists a, py_min (lit 10) (fmul (Fin b) (spec_industry_multiplier industry)) = Fin a
            /\ 0 <= a /\ a <= 10 /\ (4 <= b -> 4 <= a) /\ (b == 0 -> a = 0).
Proof.
  intros Hb0 Hb1.
  destruct (industry_multiplier_range industry) as (m & -> & Hm0 & Hm1).
  cbn [fmul].
  assert (Hbm : b * m <= 20).
  { apply Qle_trans with (10 * m); [apply Qmult_le_compat_r; lra | lra]. }
  destruct (RN_between (b * m) 0 20) as (x & Hx & Hx0 & _);
    [apply Qle_refl | apply Qmult_le_0_compat; lra | exact Hbm | reflexivity |].
  change (round53 0) with 0 in Hx0.
  assert (Hx4 : 4 <= b -> 4 <= x).
  { intros H4. destruct (RN_between (b * m) 4 20) as (x' & Hx' & Hx0' & _);
      [discriminate | | exact Hbm | reflexivity |].
    - apply Qle_trans with (b * 1); [lra |].
      rewrite !(Qmult_comm b). apply Qmult_le_compat_r; lra.
    - rewrite Hx in Hx'. injection Hx' as <-.
      now change (round53 4) with 4 in Hx0'. }
  assert (Hxz : b == 0 -> x = 0).
  { intros Hz. assert (E : b * m == 0) by (rewrite Hz; ring).
    rewrite (RN_proper _ _ E) in Hx. now injection Hx as <-. }
  rewrite Hx. change (lit 10) with (Fin 10). unfold py_min.
  destruct (flt (Fin x) (Fin 10)) eqn:E.
  - apply flt_Fin in E. exists x. repeat split; try lra; auto.
  - exists 10. repeat split; try discriminate.
    intros Hz. exfalso. apply Hxz in Hz. subst x. discriminate E.
Qed.

Lemma severity_of_vuln_to_dict v : severity_of (vuln_to_dict v) = severity v.
Proof. reflexivity. Qed.

Lemma total_key_present (vd : list vuln_dict) :
  dict_get (calculate_remediation_cost (count_severities vd)) "total"
  = Some (total_over spec_cost vd).
Proof.
  rewrite calculate_remediation_cost_get by apply count_severities_NoDup.
  rewrite String.eqb_refl. now rewrite count_severities_weighted.
Qed.

(** The results of the audit of a tree, field by field. *)
Lemma run_comprehensive_audit_spec target industry tree t0 t1 (h : heap) :
  let found := scan_findings target tree in
  let vd := map vuln_to_dict found in
  list_size_ok found ->
  exists q bi tl a fe,
    calculate_risk_score found = Return (Fin q)
    /\ (found = [] -> q = 0) /\ (found <> [] -> 4 <= q /\ q <= 10)
    /\ calculate_business_impact_score vd = Return (Fin bi)
    /\ estimate_timeline (count_severities vd) = Return (Fin tl)
    /\ py_min (lit 10) (fmul (Fin q) (spec_industry_multiplier industry)) = Fin a
    /\ (4 <= q -> 4 <= a) /\ (q == 0 -> a = 0)
    /\ calculate_financial_exposure (Fin a) (Fin bi) = Return fe
    /\ run_comprehensive_audit target industry tree t0 t1 h
       = Return
           ({| audit_metadata :=
                 {| md_target_path := target;
                    scan_timestamp := t0;
                    scan_duration_seconds := (t1 - t0)%Z;
                    files_scanned := Z.of_nat (length (scanned_entries target tree));
                    industry_context := industry |};
               vulnerability_summary :=
                 {| vs_total_vulnerabilities := Z.of_nat (length found);
                    severity_breakdown := count_severities vd;
                    vs_risk_score := Fin q;
                    vs_business_impact_score := Fin bi |};
               executive_summary :=
                 {| risk_level := fst (risk_level_of (Fin a));
                    es_risk_score := Fin a;
                    recommendation := snd (risk_level_of (Fin a));
                    critical_vulnerabilities := get (count_severities vd) "critical" 0%Z;
                    high_vulnerabilities := get (count_severities vd) "high" 0%Z;
                    total_vulnerabilities := Z.of_nat (length vd);
                    estimated_remediation_cost := total_over spec_cost vd;
                    estimated_timeline := Fin tl;
                    potential_financial_exposure := fe;
                    es_business_impact_score := Fin bi |};
               detailed_vulnerabilities := vd;
               remediation_roadmap :=
                 {| estimated_cost := calculate_remediation_cost (count_severities vd);
                    estimated_timeline_months := Fin tl;
                    priority_actions := _generate_priority_actions found |} |},
            <[length h := found]> (h ++ [[]])).
Proof.
  intros found vd Hsize.
  destruct (fresh_scan_spec target tree t0 t1 h) as (score & Hscore & Hscan).
  fold found in Hscore, Hscan.
  destruct (scan_findings_score target tree)
    as (q & Hq & Hqe & Hqn & Hq0 & Hq1).
  fold found in Hq, Hqe, Hqn. rewrite Hq in Hscore. injection Hscore as <-.
  assert (Hsize' : list_size_ok vd).
  { unfold list_size_ok, vd. now rewrite length_map. }
  destruct (generate_risk_assessment_returns
              {| ad_vulnerabilities := Some vd; ad_risk_score := Some (Fin q) |}
              industry Hsize') as (bi & tl & Hbi & Htl & Hgen).
  cbn [ad_vulnerabilities ad_risk_score from_option id] in Hbi, Htl, Hgen.
  destruct (business_impact_facts vd) as (bi' & Hbi' & Hbi0 & Hbi1 & _).
  rewrite Hbi in Hbi'. injection Hbi' as <-.
  destruct (adjusted_score_range q industry Hq0 Hq1)
    as (a & Ha & Ha0 & Ha1 & Ha4 & Haz).
  destruct (calculate_financial_exposure_returns a bi Ha0 Ha1 Hbi0 Hbi1)
    as (fe & Hfe).
  exists q, bi, tl, a, fe.
  repeat (split; [assumption |]).
  unfold run_comprehensive_audit.
  destruct (SecurityAuditor_init target h) as [auditor h0] eqn:Hinit.
  cbn [fst snd] in Hscan. rewrite Hscan, bind_Return.
  unfold audit_data_of. cbn [vulnerabilities risk_score].
  assert (Hd : deref (<[length h := found]> (h ++ [[]])) (length h) = found).
  { unfold deref.
    now rewrite list_lookup_insert_eq by (rewrite length_app; cbn [length]; lia). }
  rewrite Hd. fold vd. rewrite Hgen, bind_Return, Ha.
  unfold generate_executive_summary.
  cbn [rm_risk_score business_impact_score remediation_cost severity_distribution
       vulnerability_count timeline_months].
  destruct (risk_level_of (Fin a)) as [level advice].
  rewrite Hfe, bind_Return. unfold getitem. rewrite total_key_present, bind_Return.
  cbn [fst snd ad_vulnerabilities from_option id total_files_scanned timestamp
       scan_duration].
  reflexivity.
Qed.

End Pipeline.

(** ** The risk score is a float *)

Section ScoreIsFloat.
Local Open Scope Q_scope.

Lemma py_round1_float p r :
  0 <= p -> py_round1 (Fin p) = Fin r -> RN r = Fin r.
Proof.
  intros Hp H. unfold py_round1 in H. apply RN_idem in H; [exact H |].
  apply Qle_shift_div_l; [reflexivity |]. rewrite Qmult_0_l.
  change 0 with (inject_Z 0). rewrite <- Zle_Qle.
  apply rne_ge_Z. change (inject_Z 0) with 0. lra.
Qed.

(** The risk score is a float. *)
Lemma calculate_risk_score_float (vulns : list Vulnerability) r :
  calculate_risk_score vulns = Return (Fin r) -> RN r = Fin r.
Proof.
  destruct (decide (vulns = [])) as [-> | Hne].
  { intros [= <-]. reflexivity. }
  rewrite (calculate_risk_score_nonempty _ Hne).
  set (t := foldr Z.add 0%Z (map (fun v => spec_weight (severity v)) vulns)).
  set (n := Z.of_nat (length vulns)).
  assert (Hn : (1 <= n)%Z)
    by (subst n; destruct vulns; [contradiction | cbn [length]; lia]).
  pose proof (total_weight_bounds vulns) as Ht. fold t n in Ht.
  destruct (quotient_range t n Hn Ht) as [Hx0 Hx1].
  unfold int_truediv.
  replace (n * 10 =? 0)%Z with false by (symmetry; apply Z.eqb_neq; lia).
  destruct (RN_between (inject_Z t / inject_Z (n * 10)) 0 1) as (q & Hq & Hq0 & Hq1);
    [apply Qle_refl | exact Hx0 | exact Hx1 | reflexivity |].
  change (round53 0) with 0 in Hq0. change (round53 1) with 1 in Hq1.
  rewrite Hq, bind_Return. cbn [fmul].
  destruct (RN_between (q * 10) 0 10) as (p & Hp & Hp0 & _);
    [apply Qle_refl | lra | lra | reflexivity |].
  change (round53 0) with 0 in Hp0. rewrite Hp.
  intros H. apply Return_inj in H. now apply (py_round1_float p).
Qed.

End ScoreIsFloat.

(** ** The output file *)

Section OutputFile.

Lemma string_length_app (a b : string) :
  String.length (a ++ b) = (String.length a + String.length b)%nat.
Proof.
  induction a as [| c a IH]; [reflexivity |].
  rewrite append_cons. cbn [String.length]. now rewrite IH.
Qed.

Lemma eqb_length (a b : string) :
  String.length a <> String.length b -> String.eqb a b = false.
Proof.
  intros H. destruct (String.eqb_spec a b) as [-> | _]; [contradiction | reflexivity].
Qed.

Lemma endswith_app (w t : string) : endswith (w ++ t) t = true.
Proof.
  induction w as [| c w IH].
  - change (endswith t t = true).
    destruct t; unfold endswith; fold endswith; now rewrite String.eqb_refl.
  - rewrite append_cons. cbn [endswith]. rewrite IH. apply orb_true_r.
Qed.

Lemma endswith_inv (s t : string) :
  endswith s t = true -> exists w, s = (w ++ t)%string.
Proof.
  induction s as [| c s IH]; cbn [endswith].
  - rewrite orb_false_r. intros H. apply String.eqb_eq in H. subst t.
    now exists ""%string.
  - intros H. apply orb_true_iff in H as [H | H].
    + apply String.eqb_eq in H. subst t. now exists ""%string.
    + destruct (IH H) as [w ->]. exists (String c w). now rewrite append_cons.
Qed.

(** The pieces of a name that ends in [.json]. *)
Lemma split_on_json (w : string) :
  exists init lp,
    split_on slash w = init ++ [lp]
    /\ split_on slash (w ++ ".json") = init ++ [(lp ++ ".json")%string].
Proof.
  induction w as [| c w (init & lp & H1 & H2)].
  - exists [], ""%string. split; reflexivity.
  - rewrite append_cons. cbn [split_on]. rewrite H1, H2.
    destruct (Ascii.eqb c slash).
    + exists (""%string :: init), lp. split; reflexivity.
    + destruct init as [| i0 init]; cbn [app].
      * exists [], (String c lp). split; [reflexivity |]. now rewrite append_cons.
      * exists (String c i0 :: init), lp. split; reflexivity.
Qed.

Lemma rfind_dot_json (lp : string) :
  rfind_dot (lp ++ ".json") = Some (String.length lp).
Proof.
  induction lp as [| c lp IH]; [reflexivity |].
  rewrite append_cons. cbn [rfind_dot String.length]. now rewrite IH.
Qed.

Lemma string_drop_app (a b : string) :
  string_drop (String.length a) (a ++ b) = b.
Proof.
  induction a as [| c a IH]; [destruct b; reflexivity |].
  rewrite append_cons. cbn [String.length string_drop]. exact IH.
Qed.

Lemma suffix_json (w : string) :
  exists lp,
    file_name (w ++ ".json") = (lp ++ ".json")%string
    /\ suffix (Path_of_string (w ++ ".json"))
       = if (0 <? String.length lp)%nat then ".json"%string else ""%string.
Proof.
  destruct (split_on_json w) as (init & lp & _ & H). exists lp.
  split; [unfold file_name; now rewrite H, last_snoc |].
  set (nm := (lp ++ ".json")%string) in *.
  assert (Hlen : String.length nm = (String.length lp + 5)%nat)
    by (unfold nm; now rewrite string_length_app).
  assert (Hlast : exists pre, Path_of_string (w ++ ".json") = pre ++ [nm]).
  { unfold Path_of_string. cbv zeta. rewrite H, filter_app.
    rewrite (filter_cons_True _ nm []).
    - rewrite filter_nil, app_assoc. eauto.
    - rewrite !eqb_length by (rewrite Hlen; cbn [String.length]; lia).
      exact I. }
  destruct Hlast as [pre Hp]. unfold suffix. rewrite Hp, last_snoc.
  unfold is_root. rewrite !eqb_length by (rewrite Hlen; cbn [String.length]; lia).
  cbn [orb]. unfold nm at 1. rewrite rfind_dot_json, Hlen.
  replace (String.length lp <? String.length lp + 5 - 1)%nat with true
    by (symmetry; apply Nat.ltb_lt; lia).
  rewrite andb_true_r. unfold nm. rewrite string_drop_app. reflexivity.
Qed.

Lemma output_file_json (output : string) :
  exists w, output_file true output = (w ++ ".json")%string.
Proof.
  unfold output_file. cbn [andb].
  destruct (endswith output ".json") eqn:E; cbn [negb].
  - now apply endswith_inv.
  - eauto.
Qed.

End OutputFile.

(** ** The properties *)

Section FurtherScanner.
Local Open Scope Q_scope.

(** X1: with the built-in catalog no rule is malformed, so a file that can
    be read is scanned to the end: the findings are one per rule and line
    that the rule matches, by category and rule in the order of the catalog
    and by ascending line within a rule, nothing merged or dropped; the file
    path of each is relative to the target. *)
Theorem scan_file_reports_every_match target (h : heap) tree path content :
  let auditor := fst (SecurityAuditor_init target h) in
  read_text (Path_of_string target) tree path ignore = Return content ->
  exists rel,
    relative_to path (Path_of_string target) = Return rel
    /\ scan_file auditor tree path
       = findings_in catalog rel (split_lines content).
Proof.
  intros auditor Hread.
  destruct (read_text_relative _ _ _ _ _ Hread) as [rel Hrel].
  exists rel. split; [exact Hrel |].
  unfold scan_file. subst auditor. rewrite init_target_path, Hread.
  rewrite (scan_lines_spec _ path rel).
  - reflexivity.
  - rewrite init_patterns. apply catalog_well_formed.
  - rewrite init_target_path. exact Hrel.
Qed.

(** X2: whatever the rules of the auditor, every finding that [scan_file]
    returns comes from a rule of its category that matches the line with the
    finding's number (counted from 1) in the file as read; its snippet is
    that line stripped, and its severity, remediation, identifier and score
    are those that the category determines. *)
Theorem scan_file_findings_sound self tree path v :
  v ∈ scan_file self tree path ->
  exists content rel,
    read_text (target_path self) tree path ignore = Return content
    /\ relative_to path (target_path self) = Return rel
    /\ finding_ok self rel (split_lines content) v.
Proof. exact (scan_file_sound self tree path v). Qed.

(** X3: a finding of the built-in catalog is critical with score 9.0, high
    with score 7.5 or medium with score 5.0: the severity low, the score
    2.5 and the fall-back identifier and remediation of the look-up
    functions never appear in a scan. *)
Theorem scanner_findings_are_classified target (h : heap) tree path v :
  v ∈ scan_file (fst (SecurityAuditor_init target h)) tree path ->
  catalog_severity (severity v) (cvss_score v)
  /\ cwe_id v <> "CWE-Unknown"%string
  /\ remediation v <> "Review and secure the identified code."%string.
Proof. exact (scan_file_classified target h tree path v). Qed.

(** X4: the first scan of a new auditor returns the findings of the eligible
    entries and their score, which is 0.0 when nothing is found and lies
    between 4.0 and 10.0 otherwise. *)
Theorem fresh_scan_risk_score_range target tree t0 t1 (h : heap) :
  exists r h1 q,
    scan_directory (fst (SecurityAuditor_init target h)) tree t0 t1
      (snd (SecurityAuditor_init target h)) = Return (r, h1)
    /\ deref h1 (vulnerabilities r) = scan_findings target tree
    /\ total_files_scanned r = Z.of_nat (length (scanned_entries target tree))
    /\ risk_score r = Fin q
    /\ (scan_findings target tree = [] -> q = 0)
    /\ (scan_findings target tree <> [] -> 4 <= q /\ q <= 10).
Proof.
  destruct (fresh_scan_spec target tree t0 t1 h) as (score & Hscore & Hscan).
  destruct (scan_findings_score target tree) as (q & Hq & Hqe & Hqn & _).
  rewrite Hq in Hscore. injection Hscore as <-.
  do 2 eexists. exists q. split; [exact Hscan |].
  cbn [vulnerabilities total_files_scanned risk_score].
  repeat split; try assumption.
  - unfold deref.
    now rewrite list_lookup_insert_eq by (rewrite length_app; cbn [length]; lia).
  - now apply Hqn.
  - now apply Hqn.
Qed.

End FurtherScanner.

Section FurtherCalculator.
Local Open Scope Q_scope.

(** X5: the risk score does not see the number of findings: a list repeated
    any number of times scores as the list itself. *)
Theorem risk_score_volume_insensitive (k : nat) (l : list Vulnerability) :
  k <> 0%nat -> calculate_risk_score (copies k l) = calculate_risk_score l.
Proof. exact (risk_score_copies k l). Qed.

(** X6: in a risk assessment the severity distribution has one entry for
    each severity that occurs (a finding without severity counting as low),
    with the number of its findings, which is at least 1; the counts add up
    to the vulnerability count, which is the number of findings. *)
Theorem severity_distribution_counts (ad : AuditData) industry rm :
  generate_risk_assessment ad industry = Return rm ->
  let vulns := default [] (ad_vulnerabilities ad) in
  vulnerability_count rm = Z.of_nat (length vulns)
  /\ NoDup (map fst (severity_distribution rm))
  /\ weighted_sum (fun _ => 1%Z) (severity_distribution rm) = vulnerability_count rm
  /\ (forall k, dict_get (severity_distribution rm) k
                = if (count_of k vulns =? 0)%Z then None
                  else Some (count_of k vulns))
  /\ (forall k c, dict_get (severity_distribution rm) k = Some c -> (1 <= c)%Z).
Proof.
  intros H vulns.
  destruct (generate_risk_assessment_inv ad industry rm H) as (Hn & Hd & _).
  fold vulns in Hn, Hd. rewrite Hd, Hn.
  destruct (severity_distribution_facts vulns) as (H1 & H2 & H3 & H4).
  auto.
Qed.

(** X7: the cost dictionary always holds the key 'total', with the sum of
    the costs of all severities; every other severity of the distribution
    has its own entry, base cost (1000 when unknown) times count; the
    entries other than 'total' add up to the total unless a severity is
    itself named 'total', whose entry the total then replaces. *)
Theorem remediation_cost_total (sd : dict Z) :
  NoDup (map fst sd) ->
  getitem (calculate_remediation_cost sd) "total"
  = Return (weighted_sum spec_cost sd)
  /\ (forall k, k <> "total"%string ->
        dict_get (calculate_remediation_cost sd) k
        = match dict_get sd k with
          | Some c => Some (spec_cost k * c)%Z
          | None => None
          end)
  /\ ("total"%string ∉ map fst sd ->
      sum_except_total (calculate_remediation_cost sd) = weighted_sum spec_cost sd).
Proof.
  intros Hnd. split; [| split].
  - unfold getitem. rewrite calculate_remediation_cost_get by exact Hnd.
    now rewrite String.eqb_refl.
  - intros k Hk. rewrite calculate_remediation_cost_get by exact Hnd.
    destruct (String.eqb_spec "total" k); [congruence | reflexivity].
  - intros Ht. unfold calculate_remediation_cost. cbv zeta.
    pose proof (remediation_fold_exact sd [] 0 Hnd) as Hf.
    match type of Hf with
    | _ -> ?l = _ =>
        match goal with
        | |- context [fold_left ?f sd ?a] =>
            replace (fold_left f sd a)
              with ([] ++ map (fun kc => (fst kc, (spec_cost (fst kc) * snd kc)%Z)) sd,
                    (0 + weighted_sum spec_cost sd)%Z)
        end
    end.
    2:{ symmetry. apply Hf. intros k _ Hin. inversion Hin. }
    cbn [app]. rewrite dict_set_fresh.
    2:{ rewrite map_map. cbn [fst]. exact Ht. }
    unfold sum_except_total. rewrite List.filter_app. cbn [List.filter fst].
    rewrite String.eqb_refl. cbn [negb]. rewrite app_nil_r.
    clear Hf Hnd. induction sd as [| [k0 c0] sd IH];
      cbn [map fst snd List.filter weighted_sum foldr]; [reflexivity |].
    cbn [map fst] in Ht. apply not_elem_of_cons in Ht as [Hne Ht].
    destruct (String.eqb_spec k0 "total"); [congruence |].
    cbn [negb map snd foldr]. rewrite IH by exact Ht. lia.
Qed.

(** X8: the timeline never gets shorter when findings are added. *)
Theorem timeline_grows_with_findings (vd more : list vuln_dict) :
  list_size_ok (vd ++ more) ->
  exists r r',
    estimate_timeline (count_severities vd) = Return (Fin r)
    /\ estimate_timeline (count_severities (vd ++ more)) = Return (Fin r')
    /\ 0 <= r /\ r <= r'.
Proof.
  intros Hsize. rewrite !estimate_timeline_spec, !count_severities_weighted.
  pose proof (total_days_bounds vd) as H1.
  pose proof (total_days_bounds more) as H2.
  pose proof (total_days_bounds (vd ++ more)) as H3.
  unfold list_size_ok in Hsize.
  apply spec_timeline_mono; try lia.
  rewrite total_over_app. lia.
Qed.

(** X9: for scores between 0 and 10 the financial exposure is returned and
    its three amounts are ordered: 0 <= minimum <= expected <= maximum
    <= 3,500,000. *)
Theorem financial_exposure_ordered s i :
  0 <= s -> s <= 10 -> 0 <= i -> i <= 10 ->
  exists fe, calculate_financial_exposure (Fin s) (Fin i) = Return fe
    /\ (0 <= minimum fe)%Z /\ (minimum fe <= expected fe)%Z
    /\ (expected fe <= maximum fe)%Z /\ (maximum fe <= 3500000)%Z.
Proof.
  intros Hs0 Hs1 Hi0 Hi1. unfold calculate_financial_exposure.
  rewrite of_int_10000, bind_Return.
  destruct (fmul_bounded s i 10 10 100) as (x & -> & Hx0 & Hx1);
    try assumption; [discriminate | lia |].
  destruct (fmul_bounded x 10000 100 10000 1000000) as (y & -> & Hy0 & Hy1);
    try assumption; try discriminate; [lia |].
  assert (E1 : lit (5 # 10) = Fin (1 # 2)) by (vm_compute; reflexivity).
  assert (E2 : exists c, lit (12 # 10) = Fin c /\ 1 # 2 <= c /\ c <= 35 # 10)
    by (eexists; split; [vm_compute; reflexivity | split; discriminate]).
  assert (E3 : lit (35 # 10) = Fin (7 # 2)) by (vm_compute; reflexivity).
  destruct E2 as (c & E2 & Hc0 & Hc1). rewrite E1, E2, E3. cbn [fmul].
  change (inject_Z 1000000) with 1000000 in Hy1.
  assert (Hhi : round53 3500000 < 2 ^ 1024) by (vm_compute; reflexivity).
  assert (Ehi : round53 3500000 = 3500000) by (vm_compute; reflexivity).
  destruct (RN_mono (y * (1 # 2)) (y * c) 3500000)
    as (lo & mid & Hlo & Hmid & Hlo0 & Hlm & _); [lra | | | exact Hhi |].
  { rewrite !(Qmult_comm y). apply Qmult_le_compat_r; lra. }
  { apply Qle_trans with (y * (7 # 2)).
    - rewrite !(Qmult_comm y). apply Qmult_le_compat_r; lra.
    - lra. }
  destruct (RN_mono (y * c) (y * (7 # 2)) 3500000)
    as (mid' & hi & Hmid' & Hhi' & _ & Hmh & Hh1); [| | lra | exact Hhi |].
  { apply Qmult_le_0_compat; lra. }
  { rewrite !(Qmult_comm y). apply Qmult_le_compat_r; lra. }
  rewrite Hmid in Hmid'. injection Hmid' as <-. rewrite Ehi in Hh1.
  rewrite Hlo, Hmid, Hhi'. cbn [py_round]. rewrite !bind_Return.
  eexists. split; [reflexivity |]. cbn [minimum expected maximum].
  repeat split.
  - apply rne_ge_Z. exact Hlo0.
  - now apply rne_mono.
  - now apply rne_mono.
  - apply rne_le_Z. exact Hh1.
Qed.

(** X10: the business-impact score of a non-empty list lies between 0.9 and
    9.0, so that it is 0.0 for the empty list only. *)
Theorem business_impact_zero_only_when_empty (vd : list vuln_dict) :
  exists r, calculate_business_impact_score vd = Return (Fin r)
    /\ (vd <> [] -> fle (lit (9 # 10)) (Fin r) = true
                    /\ fle (Fin r) (lit 9) = true)
    /\ (r == 0 <-> vd = []).
Proof.
  destruct (decide (vd = [])) as [-> | Hne].
  - exists 0. split; [reflexivity |]. split; [contradiction |]. split; reflexivity.
  - destruct (business_impact_bounds vd Hne) as (r & Hr & Hr0 & Hr1).
    exists r. split; [exact Hr |].
    assert (E : round53 (9 # 10) = 8106479329266893 # 9007199254740992)
      by (vm_compute; reflexivity).
    split.
    + intros _.
      assert (E9 : lit (9 # 10) = Fin (round53 (9 # 10)))
        by (vm_compute; reflexivity).
      rewrite E9. change (lit 9) with (Fin 9). rewrite !fle_Fin.
      split; assumption.
    + split; [| contradiction]. intros Hz. exfalso.
      rewrite E in Hr0. rewrite Hz in Hr0. vm_compute in Hr0. now apply Hr0.
Qed.

(** X11: for a base score that is a float between 0 and 10, the adjusted
    score is never below the base score, and it is the base score itself
    when the industry has the factor 1.0. *)
Theorem industry_adjustment_never_lowers (ad : AuditData) (b : Q) industry :
  ad_risk_score ad = Some (Fin b) -> RN b = Fin b -> 0 <= b -> b <= 10 ->
  list_size_ok (default [] (ad_vulnerabilities ad)) ->
  exists rm a,
    generate_risk_assessment ad industry = Return rm
    /\ rm_risk_score rm = Fin a /\ b <= a /\ a <= 10
    /\ (spec_industry_multiplier industry = lit 1 -> a = b).
Proof.
  intros Hbase Hfl Hb0 Hb1 Hsize.
  destruct (generate_risk_assessment_returns ad industry Hsize)
    as (bi & tl & _ & _ & Hgen).
  rewrite Hbase in Hgen. cbn [from_option id] in Hgen.
  destruct (adjustment_never_lowers b industry Hfl Hb0 Hb1)
    as (a & Ha & Ha0 & Ha1 & Ha2).
  eexists. exists a. split; [exact Hgen |]. cbn [rm_risk_score]. auto.
Qed.

(** X12: the executive summary raises [ValueError] when the risk score or
    the business-impact score is not a number, and [KeyError] when the
    scores lie between 0 and 10 but the cost dictionary has no 'total'. *)
Theorem generate_executive_summary_errors :
  (forall rm,
     rm_risk_score rm = NaN \/ business_impact_score rm = NaN ->
     generate_executive_summary rm = Raise ValueError)
  /\ (forall rm s i,
        rm_risk_score rm = Fin s -> 0 <= s -> s <= 10 ->
        business_impact_score rm = Fin i -> 0 <= i -> i <= 10 ->
        dict_get (remediation_cost rm) "total" = None ->
        generate_executive_summary rm = Raise KeyError).
Proof.
  split; [exact executive_summary_not_a_number
         | exact executive_summary_without_total].
Qed.

End FurtherCalculator.

Section FurtherRunner.
Local Open Scope Q_scope.

Lemma count_of_vuln_to_dict k (found : list Vulnerability) :
  count_of k (map vuln_to_dict found) = count_severity k found.
Proof.
  unfold count_of, total_over, count_severity.
  induction found as [| v vs IH]; cbn [map foldr List.filter]; [reflexivity |].
  rewrite IH, severity_of_vuln_to_dict.
  destruct (String.eqb (severity v) k); cbn [length]; lia.
Qed.

Lemma get_count_severities k (vd : list vuln_dict) :
  get (count_severities vd) k 0%Z = count_of k vd.
Proof.
  unfold get. rewrite count_severities_get.
  destruct (Z.eqb_spec (count_of k vd) 0); congruence.
Qed.

(** X13: the priority actions come in ascending priority: action 1 when
    some finding is critical and action 2 when some finding is high, each
    with the number of such findings in its text and the set of their
    categories, then always the same three general actions 3, 4 and 5,
    which carry no categories; findings of another severity add nothing. *)
Theorem priority_actions_structure (vulns : list Vulnerability) :
  let acts := _generate_priority_actions vulns in
  let critical_vulns :=
    List.filter (fun v => String.eqb (severity v) "critical") vulns in
  let high_vulns :=
    List.filter (fun v => String.eqb (severity v) "high") vulns in
  map priority acts
  = (if (0 <? count_severity "critical" vulns)%Z then [1%Z] else [])
    ++ (if (0 <? count_severity "high" vulns)%Z then [2%Z] else [])
    ++ [3; 4; 5]%Z
  /\ (forall a, a ∈ acts -> priority a = 1%Z ->
        action a = ("Address " ++ str_of_int (count_severity "critical" vulns)
                    ++ " critical vulnerabilities immediately")%string
        /\ categories a = Some (list_to_set (map category critical_vulns))
        /\ timeline a = "1-2 weeks"%string)
  /\ (forall a, a ∈ acts -> priority a = 2%Z ->
        action a = ("Remediate " ++ str_of_int (count_severity "high" vulns)
                    ++ " high-severity vulnerabilities")%string
        /\ categories a = Some (list_to_set (map category high_vulns))
        /\ timeline a = "2-4 weeks"%string)
  /\ (forall a, a ∈ acts -> (3 <= priority a)%Z -> categories a = None).
Proof.
  intros acts critical_vulns high_vulns.
  unfold acts, _generate_priority_actions, count_severity.
  fold critical_vulns high_vulns. cbv zeta.
  destruct critical_vulns as [| c cs]; destruct high_vulns as [| x xs];
    cbn [app length map priority];
    (split; [reflexivity |]);
    (split; [intros a Ha Hp | split; [intros a Ha Hp | intros a Ha Hp]]);
    repeat match goal with
           | H : _ ∈ _ :: _ |- _ => apply elem_of_cons in H as [-> | H]
           | H : _ ∈ [] |- _ => inversion H
           | H : priority _ = _ |- _ => cbn [priority] in H; try discriminate H
           | H : (_ <= priority _)%Z |- _ => cbn [priority] in H; try lia
           end;
    try (repeat split; reflexivity).
Qed.

(** X14: for a tree with fewer than 2^63 findings the audit computes its
    results without raising, and the counts of the report agree: the total
    of the vulnerability summary, the total of the executive summary, the
    number of detailed vulnerabilities and the sum of the severity breakdown
    are all the number of findings of the scan; the critical and high counts
    of the executive summary are the numbers of findings with these
    severities; and the files scanned are the eligible entries. *)
Theorem run_comprehensive_audit_counts_agree target industry tree t0 t1 (h : heap) :
  list_size_ok (scan_findings target tree) ->
  exists res h1,
    run_comprehensive_audit target industry tree t0 t1 h = Return (res, h1)
    /\ detailed_vulnerabilities res = map vuln_to_dict (scan_findings target tree)
    /\ vs_total_vulnerabilities (vulnerability_summary res)
       = Z.of_nat (length (scan_findings target tree))
    /\ total_vulnerabilities (executive_summary res)
       = Z.of_nat (length (scan_findings target tree))
    /\ weighted_sum (fun _ => 1%Z) (severity_breakdown (vulnerability_summary res))
       = Z.of_nat (length (scan_findings target tree))
    /\ critical_vulnerabilities (executive_summary res)
       = count_severity "critical" (scan_findings target tree)
    /\ high_vulnerabilities (executive_summary res)
       = count_severity "high" (scan_findings target tree)
    /\ files_scanned (audit_metadata res)
       = Z.of_nat (length (scanned_entries target tree)).
Proof.
  intros Hsize.
  destruct (run_comprehensive_audit_spec target industry tree t0 t1 h Hsize)
    as (q & bi & tl & a & fe & _ & _ & _ & _ & _ & _ & _ & _ & _ & Hrun).
  do 2 eexists. split; [exact Hrun |].
  cbn [detailed_vulnerabilities vulnerability_summary executive_summary
       audit_metadata vs_total_vulnerabilities total_vulnerabilities
       severity_breakdown critical_vulnerabilities high_vulnerabilities
       files_scanned].
  destruct (severity_distribution_facts
              (map vuln_to_dict (scan_findings target tree))) as (_ & Hsum & _).
  rewrite !get_count_severities, !count_of_vuln_to_dict, Hsum, length_map.
  repeat split.
Qed.

(** X15: in the results of an audit the risk level is LOW when the scan
    found nothing and MEDIUM, HIGH or CRITICAL as soon as it found
    something, whatever the industry; the score of the executive summary is
    the score of the vulnerability summary times the industry factor,
    capped at 10.0, and is never below the score of the vulnerability
    summary. *)
Theorem risk_level_low_only_without_findings target industry tree t0 t1 (h : heap) :
  list_size_ok (scan_findings target tree) ->
  exists res h1,
    run_comprehensive_audit target industry tree t0 t1 h = Return (res, h1)
    /\ es_risk_score (executive_summary res)
       = py_min (lit 10) (fmul (vs_risk_score (vulnerability_summary res))
                               (spec_industry_multiplier industry))
    /\ fle (vs_risk_score (vulnerability_summary res))
           (es_risk_score (executive_summary res)) = true
    /\ (scan_findings target tree = [] ->
        risk_level (executive_summary res) = "LOW"%string)
    /\ (scan_findings target tree <> [] ->
        In (risk_level (executive_summary res))
           ["MEDIUM"; "HIGH"; "CRITICAL"]%string).
Proof.
  intros Hsize.
  destruct (run_comprehensive_audit_spec target industry tree t0 t1 h Hsize)
    as (q & bi & tl & a & fe & Hq & Hqe & Hqn & _ & _ & Ha & Ha4 & Haz & _ & Hrun).
  do 2 eexists. split; [exact Hrun |].
  cbn [executive_summary vulnerability_summary es_risk_score vs_risk_score
       risk_level].
  split; [now rewrite Ha |].
  split.
  { destruct (scan_findings_score target tree) as (q' & Hq' & _ & _ & Hq0 & Hq1).
    rewrite Hq in Hq'. injection Hq' as <-.
    destruct (adjustment_never_lowers q industry
                (calculate_risk_score_float _ _ Hq) Hq0 Hq1)
      as (a' & Ha' & Hle & _).
    rewrite Ha in Ha'. injection Ha' as <-. now apply fle_Fin. }
  rewrite risk_level_of_chain.
  change (lit 8) with (Fin 8). change (lit 6) with (Fin 6).
  change (lit 4) with (Fin 4). unfold fge.
  split.
  - intros Hnil. rewrite (Haz ltac:(rewrite (Hqe Hnil); reflexivity)).
    reflexivity.
  - intros Hne. destruct (Hqn Hne) as [Hq4 _]. pose proof (Ha4 Hq4) as H4.
    destruct (fle (Fin 8) (Fin a)); [cbn [In]; auto |].
    destruct (fle (Fin 6) (Fin a)); [cbn [In]; auto |].
    replace (fle (Fin 4) (Fin a)) with true by (symmetry; now apply fle_Fin).
    cbn [In]. auto.
Qed.

(** X16: when the scan finds nothing, every figure of the results is zero:
    both risk scores and the business-impact score are 0.0, the breakdown is
    empty, the cost is 0, the timeline 0.0, the three exposures 0, and the
    priority actions are the three general ones. *)
Theorem clean_tree_results target industry tree t0 t1 (h : heap) :
  scan_findings target tree = [] ->
  exists res h1,
    run_comprehensive_audit target industry tree t0 t1 h = Return (res, h1)
    /\ vs_risk_score (vulnerability_summary res) = lit 0
    /\ es_risk_score (executive_summary res) = lit 0
    /\ es_business_impact_score (executive_summary res) = lit 0
    /\ severity_breakdown (vulnerability_summary res) = []
    /\ estimated_cost (remediation_roadmap res) = [("total"%string, 0%Z)]
    /\ estimated_remediation_cost (executive_summary res) = 0%Z
    /\ estimated_timeline (executive_summary res) = lit 0
    /\ potential_financial_exposure (executive_summary res)
       = {| minimum := 0; expected := 0; maximum := 0 |}
    /\ map priority (priority_actions (remediation_roadmap res)) = [3; 4; 5]%Z
    /\ detailed_vulnerabilities res = [].
Proof.
  intros Hnil.
  assert (Hsize : list_size_ok (scan_findings target tree)).
  { rewrite Hnil. unfold list_size_ok. cbn [length]. lia. }
  destruct (run_comprehensive_audit_spec target industry tree t0 t1 h Hsize)
    as (q & bi & tl & a & fe & _ & Hqe & _ & Hbi & Htl & _ & _ & Haz & Hfe & Hrun).
  do 2 eexists. split; [exact Hrun |].
  pose proof (Hqe Hnil) as Hq. subst q.
  pose proof (Haz ltac:(reflexivity)) as Hz. subst a.
  rewrite Hnil in *. cbn [map] in *.
  assert (Ebi : bi = 0) by (vm_compute in Hbi; congruence).
  assert (Etl : tl = 0) by (vm_compute in Htl; congruence).
  subst bi tl.
  assert (Efe : fe = {| minimum := 0; expected := 0; maximum := 0 |})
    by (vm_compute in Hfe; congruence).
  subst fe.
  cbn [vulnerability_summary executive_summary remediation_roadmap
       vs_risk_score es_risk_score es_business_impact_score severity_breakdown
       estimated_cost estimated_remediation_cost estimated_timeline
       potential_financial_exposure priority_actions detailed_vulnerabilities].
  repeat split.
Qed.

End FurtherRunner.

Section FurtherScoring.
Local Open Scope Q_scope.

(** X17: a second scan with the same auditor appends its findings to the
    list that the first result holds as well, so that both results then
    show every finding twice; the second result has the risk score and the
    file count of the first. *)
Theorem repeated_scan_doubles_findings target tree :
  let found := scan_findings target tree in
  exists r1 h1 r2 h2,
    two_scans target tree = Return (r1, h1, r2, h2)
    /\ deref h1 (vulnerabilities r1) = found
    /\ deref h2 (vulnerabilities r2) = found ++ found
    /\ deref h2 (vulnerabilities r1) = found ++ found
    /\ risk_score r2 = risk_score r1
    /\ total_files_scanned r2 = total_files_scanned r1.
Proof.
  intros found. unfold two_scans.
  destruct (fresh_scan_spec target tree 0 1 []) as (score & Hscore & Hscan).
  fold found in Hscore, Hscan.
  destruct (SecurityAuditor_init target []) as [auditor h0] eqn:Hinit.
  cbn [fst snd] in Hscan. rewrite Hscan, bind_Return.
  assert (Ha : auditor = new_auditor target).
  { unfold new_auditor. now rewrite Hinit. }
  set (h1 := <[length (@nil (list Vulnerability)) := found]> ([] ++ [[]])).
  assert (Hl : (self_vulnerabilities auditor < length h1)%nat)
    by (rewrite Ha; vm_compute; lia).
  destruct (scan_directory_spec auditor tree 2 3 h1 Hl)
    as (r2 & h2 & Hr2 & Hn2 & Hv2 & _ & Hd2 & Hs2 & _).
  rewrite Hr2, bind_Return.
  assert (Hd1 : deref h1 (self_vulnerabilities auditor) = found)
    by (rewrite Ha; reflexivity).
  rewrite Hd1 in Hd2. rewrite Ha in Hd2, Hn2.
  change (flat_map _ _) with found in Hd2.
  do 4 eexists. split; [reflexivity |].
  cbn [vulnerabilities risk_score total_files_scanned].
  split; [reflexivity |]. split; [exact Hd2 |].
  split; [rewrite <- Hd2, Hv2, Ha; reflexivity |].
  split; [| exact Hn2].
  rewrite Hd2 in Hs2.
  assert (E : found ++ found = copies 2 found)
    by (cbn [copies]; now rewrite app_nil_r).
  rewrite E, risk_score_copies, Hscore in Hs2 by discriminate.
  now injection Hs2.
Qed.

(** X18: the risk score does not fall when findings are replaced, one for
    one, by findings that weigh at least as much. *)
Theorem risk_score_monotone_in_severity (l l' : list Vulnerability) :
  Forall2 weighs_at_most l l' ->
  exists r r', calculate_risk_score l = Return (Fin r)
               /\ calculate_risk_score l' = Return (Fin r') /\ r <= r'.
Proof.
  intros H. pose proof (Forall2_length _ _ _ H) as Hlen.
  destruct (decide (l = [])) as [-> | Hne].
  { destruct l'; [| discriminate Hlen]. exists 0, 0.
    repeat split; try reflexivity. apply Qle_refl. }
  assert (Hne' : l' <> []) by (intros ->; destruct l; [contradiction | discriminate]).
  rewrite (calculate_risk_score_nonempty _ Hne), (calculate_risk_score_nonempty _ Hne').
  rewrite <- Hlen.
  set (t := foldr Z.add 0%Z (map (fun v => spec_weight (severity v)) l)).
  set (t' := foldr Z.add 0%Z (map (fun v => spec_weight (severity v)) l')).
  set (n := Z.of_nat (length l)).
  assert (Hn : (1 <= n)%Z)
    by (subst n; destruct l; [contradiction | cbn [length]; lia]).
  pose proof (total_weight_bounds l) as Ht. fold t n in Ht.
  pose proof (total_weight_bounds l') as Ht'. rewrite <- Hlen in Ht'. fold t' n in Ht'.
  assert (Htt : (t <= t')%Z).
  { subst t t'. clear -H. induction H as [| v w l l' Hvw _ IH]; cbn [map foldr]; [lia |].
    unfold weighs_at_most in Hvw. lia. }
  destruct (quotient_range t n Hn Ht) as [Hx0 _].
  destruct (quotient_range t' n Hn Ht') as [_ Hx1].
  unfold int_truediv.
  replace (n * 10 =? 0)%Z with false by (symmetry; apply Z.eqb_neq; lia).
  destruct (RN_mono (inject_Z t / inject_Z (n * 10)) (inject_Z t' / inject_Z (n * 10)) 1)
    as (q & q' & Hq & Hq' & Hq0 & Hqq & Hq1);
    [exact Hx0 | | exact Hx1 | reflexivity |].
  { apply Qmult_le_compat_r; [now rewrite <- Zle_Qle |].
    apply Qlt_le_weak, Qinv_lt_0_compat.
    change 0 with (inject_Z 0). rewrite <- Zlt_Qlt. lia. }
  change (round53 1) with 1 in Hq1.
  rewrite Hq, Hq', !bind_Return. cbn [fmul].
  destruct (RN_mono (q * 10) (q' * 10) 10) as (p & p' & Hp & Hp' & Hp0 & Hpp & Hp1);
    [lra | lra | lra | reflexivity |].
  change (round53 10) with 10 in Hp1. rewrite Hp, Hp'.
  destruct (py_round1_mono p p' 100) as (r & r' & Hr & Hr' & _ & Hrr);
    [exact Hp0 | exact Hpp | change (inject_Z 100) with 100; lra | reflexivity |].
  exists r, r'. rewrite Hr, Hr'. auto.
Qed.

End FurtherScoring.

Section FurtherOutput.

(** X19: with the option [--json] the report goes to a file whose name ends
    in [.json], and [export_results] writes it as JSON, except when what
    follows the last slash of that name is [.json] alone: such a name has
    no suffix for [pathlib], and the report is written as text. *)
Theorem json_option_gives_json_report (output : string) :
  let name := output_file true output in
  endswith name ".json" = true
  /\ (export_format name = Json <-> file_name name <> ".json"%string).
Proof.
  intros name. destruct (output_file_json output) as [w Hw].
  subst name. rewrite Hw. split; [apply endswith_app |].
  destruct (suffix_json w) as (lp & Hf & Hs).
  unfold export_format. cbv zeta. rewrite Hs, Hf.
  destruct lp as [| c lp]; cbn [String.length Nat.ltb Nat.leb].
  - split; [discriminate | intros H; now contradiction H].
  - split; [| reflexivity]. intros _ E.
    apply (f_equal String.length) in E. rewrite append_cons in E.
    cbn [String.length] in E. rewrite string_length_app in E.
    cbn [String.length] in E. lia.
Qed.

End FurtherOutput.

(** ** Instances of the further properties *)

Section FurtherInstances.
Local Open Scope Q_scope.

(** The weak hash in [a.py] is found, and nothing else. *)
Lemma scan_file_reports_every_match_witness :
  exists rel,
    relative_to ["project"; "a.py"]%string (Path_of_string "project") = Return rel
    /\ scan_file (fst (SecurityAuditor_init "project" [])) weak_hash_tree
         ["project"; "a.py"]%string
       = findings_in catalog rel (split_lines (text_of_string "h = md5(x)")).
Proof.
  apply (scan_file_reports_every_match "project" [] weak_hash_tree
           ["project"; "a.py"]%string (text_of_string "h = md5(x)")).
  vm_compute. reflexivity.
Defined.

Lemma scan_file_findings_sound_witness :
  exists content rel,
    read_text (target_path (new_auditor "project")) weak_hash_tree
      ["project"; "a.py"]%string ignore = Return content
    /\ relative_to ["project"; "a.py"]%string (target_path (new_auditor "project"))
       = Return rel
    /\ finding_ok (new_auditor "project") rel (split_lines content) md5_finding.
Proof.
  apply (scan_file_findings_sound (new_auditor "project") weak_hash_tree
           ["project"; "a.py"]%string md5_finding).
  vm_compute. left.
Defined.

Lemma scanner_findings_are_classified_witness :
  catalog_severity (severity md5_finding) (cvss_score md5_finding)
  /\ cwe_id md5_finding <> "CWE-Unknown"%string
  /\ remediation md5_finding <> "Review and secure the identified code."%string.
Proof.
  apply (scanner_findings_are_classified "project" [] weak_hash_tree
           ["project"; "a.py"]%string md5_finding).
  vm_compute. left.
Defined.

(** Three copies of a critical and an unrated finding. *)
Lemma risk_score_volume_insensitive_witness :
  calculate_risk_score (copies 3 [critical_finding; unknown_severity_finding])
  = calculate_risk_score [critical_finding; unknown_severity_finding].
Proof. apply risk_score_volume_insensitive. discriminate. Defined.

(** The assessment of scenario C. *)
Lemma severity_distribution_counts_witness :
  exists rm,
    generate_risk_assessment
      {| ad_vulnerabilities := Some scenario_C_findings;
         ad_risk_score := Some (lit (72 # 10)) |} "fintech" = Return rm
    /\ weighted_sum (fun _ => 1%Z) (severity_distribution rm) = 4%Z.
Proof.
  destruct (generate_risk_assessment
              {| ad_vulnerabilities := Some scenario_C_findings;
                 ad_risk_score := Some (lit (72 # 10)) |} "fintech")
    as [rm | e] eqn:H; [| vm_compute in H; discriminate].
  exists rm. split; [reflexivity |].
  destruct (severity_distribution_counts _ _ _ H) as (Hn & _ & Hsum & _).
  rewrite Hsum, Hn. reflexivity.
Defined.

Lemma remediation_cost_total_witness :
  getitem (calculate_remediation_cost
             [("critical", 1%Z); ("high", 2%Z); ("medium", 1%Z)]%string) "total"
  = Return 34000%Z.
Proof.
  destruct (remediation_cost_total
              [("critical", 1%Z); ("high", 2%Z); ("medium", 1%Z)]%string)
    as (H & _).
  - apply (bool_decide_unpack _). vm_compute. exact I.
  - exact H.
Defined.

(** Scenario C with one more low finding. *)
Lemma timeline_grows_with_findings_witness :
  exists r r',
    estimate_timeline (count_severities scenario_C_findings) = Return (Fin r)
    /\ estimate_timeline
         (count_severities (scenario_C_findings ++ [vuln "low" "xss"]))
       = Return (Fin r')
    /\ 0 <= r /\ r <= r'.
Proof.
  apply timeline_grows_with_findings. unfold list_size_ok. vm_compute. reflexivity.
Defined.

Lemma financial_exposure_ordered_witness :
  exists fe, calculate_financial_exposure (Fin 9) (Fin (72 # 10)) = Return fe
    /\ (0 <= minimum fe)%Z /\ (minimum fe <= expected fe)%Z
    /\ (expected fe <= maximum fe)%Z /\ (maximum fe <= 3500000)%Z.
Proof. apply financial_exposure_ordered; discriminate. Defined.

(** A single finding of an unknown category and severity scores 0.9. *)
Lemma business_impact_zero_only_when_empty_witness :
  exists r, calculate_business_impact_score [vuln "info" "style"] = Return (Fin r)
            /\ fle (lit (9 # 10)) (Fin r) = true.
Proof.
  destruct (business_impact_zero_only_when_empty [vuln "info" "style"])
    as (r & Hr & Hb & _).
  exists r. split; [exact Hr |]. apply Hb. discriminate.
Defined.

(** Two critical findings of the same category and a medium one. *)
Lemma priority_actions_structure_witness :
  map priority
      (_generate_priority_actions [critical_finding; md5_finding; critical_finding])
  = [1; 3; 4; 5]%Z.
Proof.
  destruct (priority_actions_structure
              [critical_finding; md5_finding; critical_finding]) as (H & _).
  exact H.
Defined.

Lemma run_comprehensive_audit_counts_agree_witness :
  exists res h1,
    run_comprehensive_audit "project" "fintech" weak_hash_tree 0 1 []
    = Return (res, h1)
    /\ vs_total_vulnerabilities (vulnerability_summary res) = 1%Z
    /\ total_vulnerabilities (executive_summary res) = 1%Z
    /\ critical_vulnerabilities (executive_summary res) = 0%Z.
Proof.
  destruct (run_comprehensive_audit_counts_agree "project" "fintech"
              weak_hash_tree 0%Z 1%Z [])
    as (res & h1 & Hrun & _ & Hv & He & _ & Hc & _).
  - unfold list_size_ok. vm_compute. reflexivity.
  - exists res, h1. split; [exact Hrun |].
    rewrite Hv, He, Hc. repeat split.
Defined.

Lemma risk_level_low_only_without_findings_witness :
  exists res h1,
    run_comprehensive_audit "project" "consumer" weak_hash_tree 0 1 []
    = Return (res, h1)
    /\ In (risk_level (executive_summary res)) ["MEDIUM"; "HIGH"; "CRITICAL"]%string.
Proof.
  destruct (risk_level_low_only_without_findings "project" "consumer"
              weak_hash_tree 0%Z 1%Z [])
    as (res & h1 & Hrun & _ & _ & Hne).
  - unfold list_size_ok. vm_compute. reflexivity.
  - exists res, h1. split; [exact Hrun |]. apply Hne.
    vm_compute. discriminate.
Defined.

(** The file of scenario A holds nothing that the catalog matches. *)
Lemma clean_tree_results_witness :
  exists res h1,
    run_comprehensive_audit "project" "fintech" scenario_A_tree 0 1 []
    = Return (res, h1)
    /\ vs_risk_score (vulnerability_summary res) = lit 0
    /\ es_risk_score (executive_summary res) = lit 0
    /\ es_business_impact_score (executive_summary res) = lit 0
    /\ severity_breakdown (vulnerability_summary res) = []
    /\ estimated_cost (remediation_roadmap res) = [("total"%string, 0%Z)]
    /\ estimated_remediation_cost (executive_summary res) = 0%Z
    /\ estimated_timeline (executive_summary res) = lit 0
    /\ potential_financial_exposure (executive_summary res)
       = {| minimum := 0; expected := 0; maximum := 0 |}
    /\ map priority (priority_actions (remediation_roadmap res)) = [3; 4; 5]%Z
    /\ detailed_vulnerabilities res = [].
Proof.
  apply (clean_tree_results "project" "fintech" scenario_A_tree 0%Z 1%Z []).
  vm_compute. reflexivity.
Defined.

Lemma industry_adjustment_never_lowers_witness :
  exists rm a,
    generate_risk_assessment
      {| ad_vulnerabilities := Some scenario_C_findings;
         ad_risk_score := Some (Fin 7) |} "consumer" = Return rm
    /\ rm_risk_score rm = Fin a /\ 7 <= a /\ a <= 10
    /\ (spec_industry_multiplier "consumer" = lit 1 -> a = 7).
Proof.
  apply (industry_adjustment_never_lowers _ 7 "consumer").
  - reflexivity.
  - vm_compute. reflexivity.
  - discriminate.
  - discriminate.
  - unfold list_size_ok. vm_compute. reflexivity.
Defined.

Lemma generate_executive_summary_errors_witness :
  generate_executive_summary metrics_not_a_number = Raise ValueError
  /\ generate_executive_summary metrics_without_total = Raise KeyError.
Proof.
  destruct generate_executive_summary_errors as [Hnan Hkey].
  split.
  - apply Hnan. left. reflexivity.
  - apply (Hkey _ 7 6); try reflexivity; discriminate.
Defined.


(** A medium finding replaced by a critical one. *)
Lemma risk_score_monotone_in_severity_witness :
  exists r r', calculate_risk_score [md5_finding; unknown_severity_finding]
               = Return (Fin r)
               /\ calculate_risk_score [critical_finding; unknown_severity_finding]
                  = Return (Fin r')
               /\ r <= r'.
Proof.
  apply risk_score_monotone_in_severity.
  repeat constructor; unfold weighs_at_most; vm_compute; discriminate.
Defined.

End FurtherInstances.
